(** * LBBS abstract I/O transformations (bbs/io.c) and the delimited reader's
      return contract (include/readline.h): a shallow embedding.

    The C code is embedded function by function.  Pointers are addresses in
    [Z] with [NULL = 0]; the pointer to a registry entry held by a slot is the
    entry itself (entries are immutable once registered) or [None] for NULL.
    Calls that leave io.c (transformer hooks, module reference counting,
    bbs_error / bbs_warning) are recorded as events, in program order.
    Dereferencing a NULL transformer pointer is undefined in C: the functions
    that can do it return [option], with [None] for that crash. *)

From Stdlib Require Import ZArith List String Ascii Bool Lia Sorted.
Import ListNotations.
Local Open Scope Z_scope.

(** ** libc string comparison *)

Module Libc.

(** A byte read as [unsigned char]. *)
Definition uchar (c : ascii) : Z := Z.of_N (N_of_ascii c).

(** tolower(3) in the C locale: 'A'..'Z' are moved to 'a'..'z'. *)
Definition tolower (c : Z) : Z :=
  if (65 <=? c) && (c <=? 90) then c + 32 else c.

(** strcmp(3): the difference of the first two bytes that differ, read as
    unsigned char; a NUL byte ends both strings.  The end of the Rocq string
    stands for the terminating NUL. *)
Fixpoint strcmp (s1 s2 : string) : Z :=
  match s1, s2 with
  | EmptyString, EmptyString => 0
  | EmptyString, String c2 _ => 0 - uchar c2
  | String c1 _, EmptyString => uchar c1
  | String c1 r1, String c2 r2 =>
      if uchar c1 =? uchar c2
      then (if uchar c1 =? 0 then 0 else strcmp r1 r2)
      else uchar c1 - uchar c2
  end.

(** strcasecmp(3): as strcmp, on the bytes passed through tolower. *)
Fixpoint strcasecmp (s1 s2 : string) : Z :=
  match s1, s2 with
  | EmptyString, EmptyString => 0
  | EmptyString, String c2 _ => 0 - tolower (uchar c2)
  | String c1 _, EmptyString => tolower (uchar c1)
  | String c1 r1, String c2 r2 =>
      if tolower (uchar c1) =? tolower (uchar c2)
      then (if uchar c1 =? 0 then 0 else strcasecmp r1 r2)
      else tolower (uchar c1) - tolower (uchar c2)
  end.

(** The content of a C string holds no NUL byte. *)
Fixpoint cstring (s : string) : Prop :=
  match s with
  | EmptyString => True
  | String c r => uchar c <> 0 /\ cstring r
  end.

(** The string with every byte passed through tolower. *)
Fixpoint lower (s : string) : list Z :=
  match s with
  | EmptyString => []
  | String c r => tolower (uchar c) :: lower r
  end.

End Libc.

Import Libc.

(** ** Data of io.c *)

Definition ptr := Z.
Definition NULL : ptr := 0.

(** [if (p)] on a pointer. *)
Definition non_null (p : ptr) : bool := negb (p =? NULL).

(** Modelled from the spec: enum bbs_io_transform_type is declared in
    include/io.h, which is not among the sources; the spec gives the closed
    enumeration (TLS encryption, deflate compression, session logging) and
    io.c names the three constants. *)
Inductive bbs_io_transform_type :=
| TRANSFORM_TLS_ENCRYPTION
| TRANSFORM_DEFLATE_COMPRESSION
| TRANSFORM_SESSION_LOGGING.

Definition type_eqb (a b : bbs_io_transform_type) : bool :=
  match a, b with
  | TRANSFORM_TLS_ENCRYPTION, TRANSFORM_TLS_ENCRYPTION => true
  | TRANSFORM_DEFLATE_COMPRESSION, TRANSFORM_DEFLATE_COMPRESSION => true
  | TRANSFORM_SESSION_LOGGING, TRANSFORM_SESSION_LOGGING => true
  | _, _ => false
  end.

Inductive bbs_io_session_type :=
| TRANSFORM_SESSION_NODE
| TRANSFORM_SESSION_TCPCLIENT.

(** enum bbs_io_transform_dir is a bit mask (io.c tests [t->dir & direction]). *)
Definition bbs_io_transform_dir := Z.

(** What the setup hook hands back: its status, the two descriptors it was
    given mutable access to, and the private data it stored through [data]. *)
Record setup_result := {
  sr_res : Z;
  sr_rfd : Z;
  sr_wfd : Z;
  sr_data : ptr
}.

(** struct bbs_io_transformer.  The setup and query hooks are functions of
    their arguments; the query hook sees the slot through its private data.
    The cleanup hook returns nothing: it is the address of the function, and a
    call of it is an event. *)
Record bbs_io_transformer := {
  t_name : string;
  t_type : bbs_io_transform_type;
  t_dir : bbs_io_transform_dir;
  t_setup : Z -> Z -> bbs_io_transform_dir -> ptr -> setup_result;
  t_query : option (ptr -> Z -> ptr -> Z);
  t_cleanup : ptr;
  t_module : ptr
}.

(** struct bbs_io_transformation: one slot of a stack. *)
Record bbs_io_transformation := {
  transformer : option bbs_io_transformer;
  data : ptr
}.

(** struct bbs_io_transformations: the array transformations[MAX_IO_TRANSFORMS].
    MAX_IO_TRANSFORMS is defined in include/io.h (not among the sources): the
    array is a list, its length is that constant, and every
    [for (i = 0; i < MAX_IO_TRANSFORMS; i++)] walks the list front to back. *)
Definition bbs_io_transformations := list bbs_io_transformation.

Definition empty_slot : bbs_io_transformation :=
  {| transformer := None; data := NULL |}.

(** A zero-initialised stack of [n] slots. *)
Definition fresh_stack (n : nat) : bbs_io_transformations := repeat empty_slot n.

(** struct io_session. *)
Record io_session := {
  i_s : ptr;
  i_id : Z;
  i_start : Z;
  i_type : bbs_io_session_type;
  i_owner : ptr
}.

(** The messages of bbs_error and bbs_warning, one constructor per call site
    with the values it formats.  bbs_debug output is not recorded. *)
Inductive log_message :=
| SessionAlreadyRegistered (id : Z)
| NoActiveSession (s : ptr) (total : Z)
| TransformerAlreadyRegistered (name : string)
| TransformationAlreadyActive (type : bbs_io_transform_type)
| EncryptionAfterCompression
| AtMaxTransformations
| NoSuitableTransformer (type : bbs_io_transform_type)
| FailedToStore.

Inductive log_level := LOG_ERROR | LOG_WARNING.

(** What io.c does outside itself. *)
Inductive event :=
| EvLog (level : log_level) (msg : log_message)
| EvCleanup (fn : ptr) (name : string) (d : ptr)
| EvModuleRef (module : ptr)
| EvModuleUnref (module : ptr).

(** The two static lists and the static counter of io.c. *)
Record session_state := {
  sessions : list io_session;
  io_session_io : Z
}.

(** unsigned int arithmetic: 32 bits on the platforms LBBS builds for. *)
Definition UINT_MODULUS : Z := 2 ^ 32.
Definition uint_incr (n : Z) : Z := (n + 1) mod UINT_MODULUS.

(** ** Session registry *)

(** RWLIST_TRAVERSE_SAFE with RWLIST_REMOVE_CURRENT and break: the first
    element that satisfies the test is unlinked. *)
Fixpoint remove_first {A : Type} (f : A -> bool) (l : list A) : list A :=
  match l with
  | [] => []
  | x :: r => if f x then r else x :: remove_first f r
  end.

Definition session_is (s : ptr) (i : io_session) : bool := i_s i =? s.

(** bbs_io_session_register.  [alloc_ok] tells whether calloc succeeded and
    [now] is what time(NULL) returned. *)
Definition bbs_io_session_register (st : session_state) (alloc_ok : bool) (now : Z)
    (s : ptr) (type : bbs_io_session_type) (owner : ptr)
  : Z * session_state * list event :=
  match find (session_is s) (sessions st) with
  | Some i => (-1, st, [EvLog LOG_WARNING (SessionAlreadyRegistered (i_id i))])
  | None =>
      if alloc_ok then
        let id := uint_incr (io_session_io st) in
        (0,
         {| sessions := sessions st ++
                        [{| i_s := s; i_id := id; i_start := now;
                            i_type := type; i_owner := owner |}];
            io_session_io := id |},
         [])
      else (-1, st, [])
  end.

(** bbs_io_session_unregister.  When nothing matched, the loop visited every
    element, so [total] is the length of the list. *)
Definition bbs_io_session_unregister (st : session_state) (s : ptr)
  : Z * session_state * list event :=
  match find (session_is s) (sessions st) with
  | Some _ =>
      (0,
       {| sessions := remove_first (session_is s) (sessions st);
          io_session_io := io_session_io st |},
       [])
  | None =>
      (-1, st,
       [EvLog LOG_WARNING (NoActiveSession s (Z.of_nat (List.length (sessions st))))])
  end.

(** find_io_session. *)
Definition find_io_session (st : session_state) (id : Z) : option io_session :=
  find (fun i => i_id i =? id) (sessions st).

(** ** Transformer registry *)

Definition same_name_nocase (name : string) (t : bbs_io_transformer) : bool :=
  strcasecmp name (t_name t) =? 0.

Definition same_name (name : string) (t : bbs_io_transformer) : bool :=
  strcmp name (t_name t) =? 0.

(** __bbs_io_transformer_register. *)
Definition __bbs_io_transformer_register (reg : list bbs_io_transformer)
    (alloc_ok : bool) (name : string)
    (setup : Z -> Z -> bbs_io_transform_dir -> ptr -> setup_result)
    (query : option (ptr -> Z -> ptr -> Z)) (cleanup : ptr)
    (type : bbs_io_transform_type) (dir : bbs_io_transform_dir) (module : ptr)
  : Z * list bbs_io_transformer * list event :=
  match find (same_name_nocase name) reg with
  | Some _ => (-1, reg, [EvLog LOG_ERROR (TransformerAlreadyRegistered name)])
  | None =>
      if alloc_ok then
        (0,
         reg ++ [{| t_name := name; t_type := type; t_dir := dir;
                    t_setup := setup; t_query := query; t_cleanup := cleanup;
                    t_module := module |}],
         [])
      else (-1, reg, [])
  end.

(** bbs_io_transformer_unregister. *)
Definition bbs_io_transformer_unregister (reg : list bbs_io_transformer)
    (name : string) : Z * list bbs_io_transformer :=
  match find (same_name_nocase name) reg with
  | Some _ => (0, remove_first (same_name_nocase name) reg)
  | None => (-1, reg)
  end.

(** bbs_io_named_transformer_available. *)
Definition bbs_io_named_transformer_available (reg : list bbs_io_transformer)
    (name : string) : Z :=
  match find (same_name name) reg with
  | Some _ => 1
  | None => 0
  end.

(** transform_type_from_name: the status and the value written through [type]. *)
Definition transform_type_from_name (reg : list bbs_io_transformer)
    (name : string) : Z * option bbs_io_transform_type :=
  match find (same_name name) reg with
  | Some t => (0, Some (t_type t))
  | None => (-1, None)
  end.


(** ** Transformation stack *)

(** io_transform_slots_free. *)
Fixpoint io_transform_slots_free (trans : bbs_io_transformations) : bool :=
  match trans with
  | [] => false
  | tran :: rest =>
      match transformer tran with
      | None => true
      | Some _ => io_transform_slots_free rest
      end
  end.

(** io_transform_store: [None] when no slot has a NULL transformer (the C
    function then logs and returns -1), otherwise the stack with the first
    such slot written (it returns 0). *)
Fixpoint io_transform_store (trans : bbs_io_transformations)
    (t : bbs_io_transformer) (d : ptr) : option bbs_io_transformations :=
  match trans with
  | [] => None
  | tran :: rest =>
      match transformer tran with
      | None => Some ({| transformer := Some t; data := d |} :: rest)
      | Some _ =>
          match io_transform_store rest t d with
          | Some rest' => Some (tran :: rest')
          | None => None
          end
      end
  end.

(** bbs_io_transform_active.  A slot whose data is set is read through its
    transformer pointer: [None] is the NULL dereference. *)
Fixpoint bbs_io_transform_active (trans : bbs_io_transformations)
    (type : bbs_io_transform_type) : option bool :=
  match trans with
  | [] => Some false
  | tran :: rest =>
      if non_null (data tran) then
        match transformer tran with
        | None => None
        | Some t =>
            if type_eqb (t_type t) type then Some true
            else bbs_io_transform_active rest type
        end
      else bbs_io_transform_active rest type
  end.

(** __bbs_io_transform_possible: the answer and what was logged. *)
Definition __bbs_io_transform_possible (trans : bbs_io_transformations)
    (type : bbs_io_transform_type) (warn : bool) : option (bool * list event) :=
  match bbs_io_transform_active trans type with
  | None => None
  | Some true =>
      Some (false,
            if warn then [EvLog LOG_ERROR (TransformationAlreadyActive type)] else [])
  | Some false =>
      if type_eqb type TRANSFORM_TLS_ENCRYPTION then
        match bbs_io_transform_active trans TRANSFORM_DEFLATE_COMPRESSION with
        | None => None
        | Some true =>
            Some (false,
                  if warn then [EvLog LOG_WARNING EncryptionAfterCompression] else [])
        | Some false => Some (true, [])
        end
      else Some (true, [])
  end.

(** bbs_io_transform_possible. *)
Definition bbs_io_transform_possible (trans : bbs_io_transformations)
    (type : bbs_io_transform_type) : option bool :=
  match __bbs_io_transform_possible trans type false with
  | Some (b, _) => Some b
  | None => None
  end.

(** The traversal of bbs_io_transform_setup: the first registered transformer
    whose direction mask meets [direction] and whose type is [type]. *)
Definition suitable (type : bbs_io_transform_type) (direction : bbs_io_transform_dir)
    (t : bbs_io_transformer) : bool :=
  negb (Z.land (t_dir t) direction =? 0) && type_eqb (t_type t) type.

(** What bbs_io_transform_setup leaves behind: its return value, the stack,
    the two descriptors and the events. *)
Record setup_outcome := {
  so_res : Z;
  so_trans : bbs_io_transformations;
  so_rfd : Z;
  so_wfd : Z;
  so_events : list event
}.

(** Lines 341-352 of bbs_io_transform_setup: what happens once the hook has
    returned [res] and [d], on the stack as it is then. *)
Definition store_after_setup (trans : bbs_io_transformations)
    (t : bbs_io_transformer) (res : Z) (d : ptr)
  : Z * bbs_io_transformations * list event :=
  if res =? 0 then
    match io_transform_store trans t d with
    | None =>
        (1, trans,
         [EvLog LOG_ERROR FailedToStore; EvCleanup (t_cleanup t) (t_name t) d])
    | Some trans' => (0, trans', [EvModuleRef (t_module t)])
    end
  else (res, trans, []).

(** bbs_io_transform_setup, with what may happen to the stack while the hook
    runs made explicit: [during_hook] is the change other threads make to the
    stack between the free-slot check and the store. *)
Definition io_transform_setup_with
    (during_hook : bbs_io_transformations -> bbs_io_transformations)
    (reg : list bbs_io_transformer) (trans : bbs_io_transformations)
    (type : bbs_io_transform_type) (direction : bbs_io_transform_dir)
    (rfd wfd : Z) (arg : ptr) : option setup_outcome :=
  match __bbs_io_transform_possible trans type true with
  | None => None
  | Some (false, ev) =>
      Some {| so_res := -1; so_trans := trans; so_rfd := rfd; so_wfd := wfd;
              so_events := ev |}
  | Some (true, ev) =>
      if negb (io_transform_slots_free trans) then
        Some {| so_res := -1; so_trans := trans; so_rfd := rfd; so_wfd := wfd;
                so_events := ev ++ [EvLog LOG_ERROR AtMaxTransformations] |}
      else
        match find (suitable type direction) reg with
        | None =>
            Some {| so_res := -1; so_trans := trans; so_rfd := rfd; so_wfd := wfd;
                    so_events := ev ++ [EvLog LOG_WARNING (NoSuitableTransformer type)] |}
        | Some t =>
            let r := t_setup t rfd wfd direction arg in
            let '(res, trans', ev') :=
              store_after_setup (during_hook trans) t (sr_res r) (sr_data r) in
            Some {| so_res := res; so_trans := trans'; so_rfd := sr_rfd r;
                    so_wfd := sr_wfd r; so_events := ev ++ ev' |}
        end
  end.

(** bbs_io_transform_setup as the connection's thread runs it: nothing else
    writes the stack. *)
Definition bbs_io_transform_setup :=
  io_transform_setup_with (fun trans => trans).

(** bbs_io_transform_query. *)
Fixpoint bbs_io_transform_query (trans : bbs_io_transformations)
    (type : bbs_io_transform_type) (query : Z) (qdata : ptr) : option Z :=
  match trans with
  | [] => Some (-1)
  | tran :: rest =>
      if non_null (data tran) then
        match transformer tran with
        | None => None
        | Some t =>
            if type_eqb (t_type t) type then
              match t_query t with
              | Some q => Some (q (data tran) query qdata)
              | None => Some 1
              end
            else bbs_io_transform_query rest type query qdata
        end
      else bbs_io_transform_query rest type query qdata
  end.

(** teardown_transformation: the cleared slot and the two calls made. *)
Definition teardown_transformation (tran : bbs_io_transformation)
  : option (bbs_io_transformation * list event) :=
  match transformer tran with
  | None => None
  | Some t =>
      Some ({| transformer := None; data := NULL |},
            [EvCleanup (t_cleanup t) (t_name t) (data tran);
             EvModuleUnref (t_module t)])
  end.

(** bbs_io_teardown_all_transformers. *)
Fixpoint bbs_io_teardown_all_transformers (trans : bbs_io_transformations)
  : option (bbs_io_transformations * list event) :=
  match trans with
  | [] => Some ([], [])
  | tran :: rest =>
      if non_null (data tran) then
        match teardown_transformation tran with
        | None => None
        | Some (tran', ev) =>
            match bbs_io_teardown_all_transformers rest with
            | None => None
            | Some (rest', ev') => Some (tran' :: rest', ev ++ ev')
            end
        end
      else
        match bbs_io_teardown_all_transformers rest with
        | None => None
        | Some (rest', ev') => Some (tran :: rest', ev')
        end
  end.

(** ** Runs of the two registries *)

Inductive session_op :=
| SRegister (alloc_ok : bool) (now : Z) (s : ptr) (type : bbs_io_session_type)
            (owner : ptr)
| SUnregister (s : ptr).

Definition session_init : session_state :=
  {| sessions := []; io_session_io := 0 |}.

(** One call on the session registry: the state it leaves and the identifier
    it issued, if it registered a session (the identifier of the element
    appended to the list). *)
Definition session_step (st : session_state) (op : session_op)
  : session_state * list Z :=
  match op with
  | SRegister alloc_ok now s type owner =>
      let '(res, st', _) := bbs_io_session_register st alloc_ok now s type owner in
      (st', if res =? 0 then map i_id (skipn (List.length (sessions st)) (sessions st'))
            else [])
  | SUnregister s =>
      let '(_, st', _) := bbs_io_session_unregister st s in (st', [])
  end.

(** A sequence of calls: the final state and the identifiers issued, in order. *)
Fixpoint session_run (st : session_state) (ops : list session_op)
  : session_state * list Z :=
  match ops with
  | [] => (st, [])
  | op :: rest =>
      let '(st', ids) := session_step st op in
      let '(st'', ids') := session_run st' rest in
      (st'', ids ++ ids')
  end.

Inductive registry_op :=
| RRegister (alloc_ok : bool) (name : string)
            (setup : Z -> Z -> bbs_io_transform_dir -> ptr -> setup_result)
            (query : option (ptr -> Z -> ptr -> Z)) (cleanup : ptr)
            (type : bbs_io_transform_type) (dir : bbs_io_transform_dir)
            (module : ptr)
| RUnregister (name : string).

Definition op_name (op : registry_op) : string :=
  match op with
  | RRegister _ name _ _ _ _ _ _ => name
  | RUnregister name => name
  end.

Definition registry_step (reg : list bbs_io_transformer) (op : registry_op)
  : list bbs_io_transformer :=
  match op with
  | RRegister alloc_ok name setup query cleanup type dir module =>
      snd (fst (__bbs_io_transformer_register reg alloc_ok name setup query
                  cleanup type dir module))
  | RUnregister name => snd (bbs_io_transformer_unregister reg name)
  end.

Definition registry_run (reg : list bbs_io_transformer) (ops : list registry_op)
  : list bbs_io_transformer :=
  fold_left registry_step ops reg.

(** The registered set as the specification describes it: a set of names in
    which two names are the same when they agree after case folding.  A
    registration whose allocation fails adds nothing. *)
Fixpoint absent_nocase (name : string) (names : list string) : bool :=
  match names with
  | [] => true
  | n :: r =>
      if list_eq_dec Z.eq_dec (lower name) (lower n) then false
      else absent_nocase name r
  end.

Fixpoint drop_nocase (name : string) (names : list string) : list string :=
  match names with
  | [] => []
  | n :: r =>
      if list_eq_dec Z.eq_dec (lower name) (lower n) then r
      else n :: drop_nocase name r
  end.

Definition registered_step (names : list string) (op : registry_op) : list string :=
  match op with
  | RRegister alloc_ok name _ _ _ _ _ _ =>
      if absent_nocase name names && alloc_ok then names ++ [name] else names
  | RUnregister name => drop_nocase name names
  end.

Definition registered_names (ops : list registry_op) : list string :=
  fold_left registered_step ops [].

(** What holds of the registry between calls while the counter has not
    wrapped: every live identifier was issued (it is at most the counter) and
    no two live sessions share one. *)
Definition session_inv (st : session_state) : Prop :=
  0 <= io_session_io st /\
  Forall (fun i => 0 < i_id i <= io_session_io st) (sessions st) /\
  NoDup (map i_id (sessions st)).

(** Registering and unregistering one stack, [n] times over. *)
Fixpoint churn (n : nat) : list session_op :=
  match n with
  | O => []
  | S k => SRegister true 0 1 TRANSFORM_SESSION_NODE 0 :: SUnregister 1 :: churn k
  end.

(** Every registered name is a C string. *)
Definition names_cstring (reg : list bbs_io_transformer) : Prop :=
  Forall (fun t => cstring (t_name t)) reg.

(** ** Stack predicates *)

(** A slot whose data is set has a transformer: what keeps
    bbs_io_transform_active and the teardown away from a NULL dereference. *)
Definition slot_wf (tran : bbs_io_transformation) : Prop :=
  data tran <> NULL -> transformer tran <> None.

Definition stack_wf (trans : bbs_io_transformations) : Prop := Forall slot_wf trans.

(** The test the scans of active, query and teardown make on a slot. *)
Definition has_data (tran : bbs_io_transformation) : bool := non_null (data tran).

(** The test the capacity check and the store make on a slot. *)
Definition in_use (tran : bbs_io_transformation) : bool :=
  match transformer tran with
  | Some _ => true
  | None => false
  end.

(** An active slot of a kind. *)
Definition active_slot (type : bbs_io_transform_type) (tran : bbs_io_transformation)
  : bool :=
  has_data tran &&
  match transformer tran with
  | Some t => type_eqb (t_type t) type
  | None => false
  end.

Definition count_active (type : bbs_io_transform_type)
    (trans : bbs_io_transformations) : nat :=
  List.length (filter (active_slot type) trans).

(** The calls teardown_transformation makes for a slot. *)
Definition teardown_calls (tran : bbs_io_transformation) : list event :=
  match transformer tran with
  | Some t =>
      [EvCleanup (t_cleanup t) (t_name t) (data tran); EvModuleUnref (t_module t)]
  | None => []
  end.

Definition is_cleanup (e : event) : bool :=
  match e with
  | EvCleanup _ _ _ => true
  | _ => false
  end.

Definition is_module_ref (e : event) : bool :=
  match e with
  | EvModuleRef _ => true
  | _ => false
  end.

Definition is_module_unref (e : event) : bool :=
  match e with
  | EvModuleUnref _ => true
  | _ => false
  end.

Definition is_unref_of (m : ptr) (e : event) : bool :=
  match e with
  | EvModuleUnref m' => m' =? m
  | _ => false
  end.

Definition owned_by (m : ptr) (tran : bbs_io_transformation) : bool :=
  match transformer tran with
  | Some t => t_module t =? m
  | None => false
  end.

(** What holds of every stack a connection produces. *)
Definition stack_inv (trans : bbs_io_transformations) : Prop :=
  stack_wf trans /\ forall type, (count_active type trans <= 1)%nat.

(** The slot the teardown leaves in place of [tran]. *)
Definition torn_down (tran : bbs_io_transformation) : bbs_io_transformation :=
  if has_data tran then {| transformer := None; data := NULL |} else tran.

(** The stacks a connection's thread can produce: a zero-initialised array,
    then any sequence of setups and teardowns. *)
Inductive stack_reachable : bbs_io_transformations -> Prop :=
| reach_fresh n : stack_reachable (fresh_stack n)
| reach_setup trans reg type direction rfd wfd arg o :
    stack_reachable trans ->
    bbs_io_transform_setup reg trans type direction rfd wfd arg = Some o ->
    stack_reachable (so_trans o)
| reach_teardown trans trans' ev :
    stack_reachable trans ->
    bbs_io_teardown_all_transformers trans = Some (trans', ev) ->
    stack_reachable trans'.

(** ** Sample transformers, for the examples *)

(** A setup hook that succeeds, leaves the descriptors alone and hands back
    the private data [d]. *)
Definition hook_ok (d : ptr) : Z -> Z -> bbs_io_transform_dir -> ptr -> setup_result :=
  fun rfd wfd _ _ => {| sr_res := 0; sr_rfd := rfd; sr_wfd := wfd; sr_data := d |}.

(** A setup hook that declines with status [res]. *)
Definition hook_status (res : Z) : Z -> Z -> bbs_io_transform_dir -> ptr -> setup_result :=
  fun rfd wfd _ _ => {| sr_res := res; sr_rfd := rfd; sr_wfd := wfd; sr_data := NULL |}.

Definition sample_transformer_at (name : string) (type : bbs_io_transform_type)
    (dir : bbs_io_transform_dir)
    (setup : Z -> Z -> bbs_io_transform_dir -> ptr -> setup_result)
    (cleanup module : ptr) : bbs_io_transformer :=
  {| t_name := name; t_type := type; t_dir := dir; t_setup := setup;
     t_query := None; t_cleanup := cleanup; t_module := module |}.

Definition sample_transformer (name : string) (type : bbs_io_transform_type)
    (dir : bbs_io_transform_dir)
    (setup : Z -> Z -> bbs_io_transform_dir -> ptr -> setup_result)
    (module : ptr) : bbs_io_transformer :=
  sample_transformer_at name type dir setup (40 + module) module.

(** ** Delimited reader: the return contract of bbs_readline *)

Module Readline.

(** The failure classes the specification names for a delimiter-mode read,
    and a record of [n] bytes. *)
Inductive outcome :=
| Closed
| TimedOut
| IOError
| Record_read (n : Z).

(** Modelled from the spec: the body of bbs_readline (bbs/readline.c) is not
    among the sources, only its declaration in include/readline.h.  One round
    of the read loop as section 4.4 describes it: wait for readability with
    the timeout, then read; [poll_res] and [read_res] are what poll and read
    returned, and [record_len] is the length of the record up to the delimiter
    once the bytes read complete one.  A wait that times out is poll
    returning 0, end of stream is read returning 0, and a negative result of
    either is a transport error. *)
Definition classify (poll_res read_res record_len : Z) : outcome :=
  if poll_res <? 0 then IOError
  else if poll_res =? 0 then TimedOut
  else if read_res <? 0 then IOError
  else if read_res =? 0 then Closed
  else Record_read record_len.

(** Modelled from the spec: the value bbs_readline returns for an outcome,
    as documented at its declaration: -2 on failure, -1 if read or poll
    returns 0, and otherwise the number of bytes of the record, without the
    delimiter. *)
Definition retval (o : outcome) : Z :=
  match o with
  | IOError => -2
  | TimedOut => -1
  | Closed => -1
  | Record_read n => n
  end.

(** Modelled from the spec: one round of bbs_readline, from the results of
    poll and read to the value returned. *)
Definition bbs_readline (poll_res read_res record_len : Z) : Z :=
  retval (classify poll_res read_res record_len).

End Readline.

(** ** Sequences of setups, and what the registry keeps *)

(** One call of bbs_io_transform_setup, as a connection makes it. *)
Record setup_request := {
  rq_type : bbs_io_transform_type;
  rq_direction : bbs_io_transform_dir;
  rq_rfd : Z;
  rq_wfd : Z;
  rq_arg : ptr
}.

(** A sequence of setups on one stack, each on the stack the one before left:
    the final stack and the events of all of them, in order. *)
Fixpoint setup_run (reg : list bbs_io_transformer) (trans : bbs_io_transformations)
    (reqs : list setup_request) : option (bbs_io_transformations * list event) :=
  match reqs with
  | [] => Some (trans, [])
  | rq :: rest =>
      match bbs_io_transform_setup reg trans (rq_type rq) (rq_direction rq)
              (rq_rfd rq) (rq_wfd rq) (rq_arg rq) with
      | None => None
      | Some o =>
          match setup_run reg (so_trans o) rest with
          | None => None
          | Some (trans', ev) => Some (trans', so_events o ++ ev)
          end
      end
  end.

Definition is_ref_of (m : ptr) (e : event) : bool :=
  match e with
  | EvModuleRef m' => m' =? m
  | _ => false
  end.

(** Every setup hook of the registry that returns 0 hands back private data. *)
Definition hooks_give_data (reg : list bbs_io_transformer) : Prop :=
  forall t rfd wfd direction arg,
    In t reg ->
    sr_res (t_setup t rfd wfd direction arg) = 0 ->
    sr_data (t_setup t rfd wfd direction arg) <> NULL.

(** Every slot that holds a transformer has its data set. *)
Definition no_null_data (trans : bbs_io_transformations) : Prop :=
  Forall (fun tran => in_use tran = true -> has_data tran = true) trans.

(** The names of the registry after case folding. *)
Definition folded_names (reg : list bbs_io_transformer) : list (list Z) :=
  map (fun t => lower (t_name t)) reg.

(** ** The CLI command that adds a transformation to a session *)

(** What cli_io_session_transformation_add reaches through pointers: the
    stack a session points to, and the rfd and wfd fields of its owner, a
    struct bbs_node or a struct bbs_tcp_client (both declared outside io.c;
    only these two fields are used). *)
Record cli_memory := {
  stack_at : ptr -> bbs_io_transformations;
  node_fds : ptr -> Z * Z;
  tcpclient_fds : ptr -> Z * Z
}.

Definition update {V : Type} (f : ptr -> V) (p : ptr) (v : V) : ptr -> V :=
  fun q => if q =? p then v else f q.

(** What the command prints on a->fdout, one constructor per bbs_dprintf
    with the string it formats. *)
Inductive cli_line :=
| TransformerNotAvailable (name : string)
| NoSuchSession (text : string)
| EnabledTransformation (name : string)
| FailedToEnable (name : string).

Record cli_outcome := {
  co_res : Z;
  co_memory : cli_memory;
  co_printed : list cli_line;
  co_events : list event
}.

(** cli_io_session_transformation_add.  [argv3] and [argv4] are a->argv[3]
    and a->argv[4]; [atoi_argv3] is what atoi returned for argv[3], which the
    code casts to unsigned int; [tx_rx] is TRANSFORM_SERVER_CLIENT_TX_RX,
    a constant of include/io.h (not among the sources). *)
Definition cli_io_session_transformation_add (tx_rx : bbs_io_transform_dir)
    (reg : list bbs_io_transformer) (st : session_state) (mem : cli_memory)
    (argv3 argv4 : string) (atoi_argv3 : Z) : option cli_outcome :=
  let transformer_name := argv4 in
  if bbs_io_named_transformer_available reg transformer_name =? 0 then
    Some {| co_res := -1; co_memory := mem;
            co_printed := [TransformerNotAvailable transformer_name];
            co_events := [] |}
  else
    match find_io_session st (atoi_argv3 mod UINT_MODULUS) with
    | None =>
        Some {| co_res := -1; co_memory := mem;
                co_printed := [NoSuchSession argv4]; co_events := [] |}
    | Some i =>
        match transform_type_from_name reg transformer_name with
        | (0, Some type) =>
            let fds := match i_type i with
                       | TRANSFORM_SESSION_NODE => node_fds mem (i_owner i)
                       | TRANSFORM_SESSION_TCPCLIENT => tcpclient_fds mem (i_owner i)
                       end in
            match bbs_io_transform_setup reg (stack_at mem (i_s i)) type tx_rx
                    (fst fds) (snd fds) NULL with
            | None => None
            | Some o =>
                let fds' := (so_rfd o, so_wfd o) in
                Some {| co_res := so_res o;
                        co_memory :=
                          {| stack_at := update (stack_at mem) (i_s i) (so_trans o);
                             node_fds :=
                               match i_type i with
                               | TRANSFORM_SESSION_NODE =>
                                   update (node_fds mem) (i_owner i) fds'
                               | TRANSFORM_SESSION_TCPCLIENT => node_fds mem
                               end;
                             tcpclient_fds :=
                               match i_type i with
                               | TRANSFORM_SESSION_NODE => tcpclient_fds mem
                               | TRANSFORM_SESSION_TCPCLIENT =>
                                   update (tcpclient_fds mem) (i_owner i) fds'
                               end |};
                        co_printed :=
                          [if so_res o =? 0 then EnabledTransformation transformer_name
                           else FailedToEnable transformer_name];
                        co_events := so_events o |}
            end
        | _ =>
            Some {| co_res := -1; co_memory := mem; co_printed := [];
                    co_events := [] |}
        end
    end.

(** ** The CLI command that lists the transformations of a session *)

(** What cli_io_session prints, line by line. *)
Inductive session_line :=
| NoSuchSessionLine (text : string)
| ActiveTransformationsHeader
| TransformerName (name : string)
| ActiveTransformationsCount (active : Z).

(** The loop of cli_io_session: the names of the transformers of the slots
    whose data is set, in slot order; [None] is the NULL dereference. *)
Fixpoint listed_names (trans : bbs_io_transformations) : option (list string) :=
  match trans with
  | [] => Some []
  | tran :: rest =>
      if non_null (data tran) then
        match transformer tran with
        | None => None
        | Some t =>
            match listed_names rest with
            | None => None
            | Some names => Some (t_name t :: names)
            end
        end
      else listed_names rest
  end.

(** cli_io_session.  [argv2] is a->argv[2] and [atoi_argv2] what atoi
    returned for it. *)
Definition cli_io_session (st : session_state) (mem : cli_memory)
    (argv2 : string) (atoi_argv2 : Z) : option (Z * list session_line) :=
  match find_io_session st (atoi_argv2 mod UINT_MODULUS) with
  | None => Some (-1, [NoSuchSessionLine argv2])
  | Some io =>
      match listed_names (stack_at mem (i_s io)) with
      | None => None
      | Some names =>
          Some (0,
                [ActiveTransformationsHeader] ++ map TransformerName names ++
                [ActiveTransformationsCount (Z.of_nat (List.length names))])
      end
  end.

(** 1 for an active kind, 0 otherwise. *)
Definition active_flag (trans : bbs_io_transformations)
    (type : bbs_io_transform_type) : nat :=
  match bbs_io_transform_active trans type with
  | Some true => 1
  | _ => 0
  end.

(** ** mod_sendmail.c *)

Module Sendmail.

(** The parameters MAILER_PARAMS declares (include/mail.h is not among the
    sources; these are the names the body of sendmail uses). *)
Record mailer_params := {
  async : bool;
  to : string;
  from : string;
  replyto : string;
  errorsto : string;
  subject : string;
  body : string
}.

(** What the calls that leave the function returned: eaccess on the
    binary, whether bbs_mkftemp gave a file and under which name, the result
    of bbs_execvp or bbs_execvp_fd, whether errno is ECHILD when it is
    tested, and the result of remove. *)
Record environment := {
  eaccess_res : Z;
  mkftemp_ok : bool;
  tmp_name : string;
  exec_res : Z;
  errno_is_echild : bool;
  remove_res : Z
}.

Inductive message :=
| MailerDoesNotExist (recipient : string)
| CannotCreateTemporary
| FailedToDeleteTemporary (file : string)
| UnableToExecute
| FailedToSend (recipient : string).

(** The calls of the function, in order.  bbs_debug output is not recorded. *)
Inductive call :=
| LogError (msg : message)
| MakeEmailFile (p : mailer_params)
| Fclose
| Rewind
| ExecShell (command : string)
| ExecSendmail
| RemoveTemporary (file : string).

Definition SENDMAIL_CMD : string := "/usr/sbin/sendmail -t".

(** The snprintf of the asynchronous path.  The buffer holds 256 bytes and
    the temporary name at most 79, so nothing is cut. *)
Definition shell_command (tmp : string) : string :=
  ("( " ++ SENDMAIL_CMD ++ " < " ++ tmp ++ " ; rm -f " ++ tmp ++ " ) &")%string.

(** The translation of the exec result at the end of sendmail: the value
    returned and what is logged. *)
Definition translate_result (recipient : string) (res : Z) (echild : bool)
  : Z * list call :=
  let '(res1, log1) :=
    if (res <? 0) && negb echild then (res, [LogError UnableToExecute])
    else if res =? 127 then (res, [LogError UnableToExecute])
    else
      let res' := if res <? 0 then 0 else res in
      (if negb (res' =? 0) then -1 else res', []) in
  (res1, log1 ++ (if negb (res1 =? 0) then [LogError (FailedToSend recipient)] else [])).

(** sendmail. *)
Definition sendmail (env : environment) (p : mailer_params) : Z * list call :=
  if negb (eaccess_res env =? 0) then
    (-1, [LogError (MailerDoesNotExist (to p))])
  else if negb (mkftemp_ok env) then
    (-1, [LogError CannotCreateTemporary])
  else
    let before_exec := [MakeEmailFile p] in
    let exec_calls :=
      if async p then [Fclose; ExecShell (shell_command (tmp_name env))]
      else
        [Rewind; ExecSendmail; Fclose; RemoveTemporary (tmp_name env)] ++
        (if negb (remove_res env =? 0)
         then [LogError (FailedToDeleteTemporary (tmp_name env))] else []) in
    let '(res, log) := translate_result (to p) (exec_res env) (errno_is_echild env) in
    (res, before_exec ++ exec_calls ++ log).

Definition is_error (c : call) : bool :=
  match c with
  | LogError _ => true
  | _ => false
  end.

Definition is_remove (c : call) : bool :=
  match c with
  | RemoveTemporary _ => true
  | _ => false
  end.

End Sendmail.

(** * Properties *)

(** ** libc comparisons *)

Section LibcFacts.

Lemma uchar_range (c : ascii) : 0 <= uchar c < 256.
Proof.
  unfold uchar. pose proof (N_ascii_bounded c) as Hb. lia.
Qed.

Lemma uchar_inj (c d : ascii) : uchar c = uchar d -> c = d.
Proof.
  unfold uchar. intros H. apply N2Z.inj in H.
  rewrite <- (ascii_N_embedding c), <- (ascii_N_embedding d). now rewrite H.
Qed.

Lemma tolower_nonneg (x : Z) : 0 <= x -> 0 <= tolower x.
Proof.
  unfold tolower. destruct ((65 <=? x) && (x <=? 90)); lia.
Qed.

Lemma tolower_zero (x : Z) : 0 <= x -> tolower x = 0 -> x = 0.
Proof.
  unfold tolower. destruct ((65 <=? x) && (x <=? 90)) eqn:E; [|lia].
  apply andb_true_iff in E. lia.
Qed.

Lemma strcmp_refl (s : string) : strcmp s s = 0.
Proof.
  induction s as [|c r IH]; simpl; [reflexivity|].
  rewrite Z.eqb_refl. destruct (uchar c =? 0); auto.
Qed.

Lemma strcasecmp_refl (s : string) : strcasecmp s s = 0.
Proof.
  induction s as [|c r IH]; simpl; [reflexivity|].
  rewrite Z.eqb_refl. destruct (uchar c =? 0); auto.
Qed.

(** On C strings strcmp answers 0 exactly for equal strings. *)
Lemma strcmp_zero_iff (a b : string) :
  cstring a -> cstring b -> (strcmp a b = 0 <-> a = b).
Proof.
  revert b. induction a as [|c r IH]; intros [|d r'] Ha Hb; simpl in *.
  - tauto.
  - split; [|discriminate]. destruct Hb. lia.
  - split; [|discriminate]. destruct Ha. lia.
  - destruct Ha as [Hc Hr], Hb as [Hd Hr'].
    destruct (uchar c =? uchar d) eqn:E.
    + apply Z.eqb_eq in E. apply uchar_inj in E. subst d.
      destruct (uchar c =? 0) eqn:E0; [apply Z.eqb_eq in E0; contradiction|].
      rewrite (IH r' Hr Hr'). split; intros H; [now subst|now inversion H].
    + apply Z.eqb_neq in E. split; [lia|].
      intros H. inversion H. subst. contradiction.
Qed.

(** On C strings strcasecmp answers 0 exactly for strings that agree after
    case folding. *)
Lemma strcasecmp_zero_iff (a b : string) :
  cstring a -> cstring b -> (strcasecmp a b = 0 <-> lower a = lower b).
Proof.
  revert b. induction a as [|c r IH]; intros [|d r'] Ha Hb; simpl in *.
  - tauto.
  - split; [|discriminate]. destruct Hb as [Hd _]. intros H.
    assert (tolower (uchar d) = 0) as H0 by lia.
    apply tolower_zero in H0; [contradiction|apply uchar_range].
  - split; [|discriminate]. destruct Ha as [Hc _]. intros H.
    apply tolower_zero in H; [contradiction|apply uchar_range].
  - destruct Ha as [Hc Hr], Hb as [Hd Hr'].
    destruct (tolower (uchar c) =? tolower (uchar d)) eqn:E.
    + apply Z.eqb_eq in E.
      destruct (uchar c =? 0) eqn:E0; [apply Z.eqb_eq in E0; contradiction|].
      rewrite (IH r' Hr Hr'). split; intros H; [now rewrite E, H|now inversion H].
    + apply Z.eqb_neq in E. split; [lia|].
      intros H. inversion H. contradiction.
Qed.

Lemma strcasecmp_zero_sym (a b : string) :
  cstring a -> cstring b -> strcasecmp a b = 0 -> strcasecmp b a = 0.
Proof.
  intros Ha Hb H. apply (strcasecmp_zero_iff b a Hb Ha).
  symmetry. now apply (strcasecmp_zero_iff a b Ha Hb).
Qed.

End LibcFacts.

(** ** Lists: finding and unlinking the first match *)

Section ListFacts.

Context {A : Type}.

Lemma find_none_iff (f : A -> bool) (l : list A) :
  find f l = None <-> (forall x, In x l -> f x = false).
Proof.
  split.
  - intros H x. now apply find_none.
  - induction l as [|y r IH]; simpl; intros H; [reflexivity|].
    rewrite (H y (or_introl eq_refl)). apply IH. intros x Hx. apply H. now right.
Qed.

Lemma find_some_ex (f : A -> bool) (l : list A) (x : A) :
  In x l -> f x = true -> exists y, find f l = Some y /\ f y = true.
Proof.
  intros Hin Hf. destruct (find f l) as [y|] eqn:E.
  - exists y. split; [reflexivity|]. now apply find_some in E.
  - rewrite (find_none _ _ E x Hin) in Hf. discriminate.
Qed.

Lemma find_app_none (f : A -> bool) (l : list A) (x : A) :
  find f l = None -> find f (l ++ [x]) = if f x then Some x else None.
Proof.
  induction l as [|y r IH]; simpl; intros H; [reflexivity|].
  destruct (f y); [discriminate|auto].
Qed.

Lemma remove_first_app_last (f : A -> bool) (l : list A) (x : A) :
  find f l = None -> f x = true -> remove_first f (l ++ [x]) = l.
Proof.
  induction l as [|y r IH]; simpl; intros H Hx.
  - now rewrite Hx.
  - destruct (f y); [discriminate|]. now rewrite IH.
Qed.

Lemma remove_first_in (f : A -> bool) (l : list A) (x : A) :
  In x (remove_first f l) -> In x l.
Proof.
  induction l as [|y r IH]; simpl; [tauto|].
  destruct (f y); [now right|]. intros [H|H]; [now left|right; auto].
Qed.

Lemma remove_first_none (f : A -> bool) (l : list A) :
  find f l = None -> remove_first f l = l.
Proof.
  induction l as [|y r IH]; simpl; [reflexivity|].
  destruct (f y); [discriminate|]. intros H. now rewrite IH.
Qed.

End ListFacts.

(** ** Session registry *)

Section SessionFacts.

Lemma session_is_true (s : ptr) (i : io_session) : session_is s i = true <-> i_s i = s.
Proof. unfold session_is. apply Z.eqb_eq. Qed.

Lemma session_find_none (st : session_state) (s : ptr) :
  (forall i, In i (sessions st) -> i_s i <> s) ->
  find (session_is s) (sessions st) = None.
Proof.
  intros H. apply find_none_iff. intros i Hi.
  destruct (session_is s i) eqn:E; [|reflexivity].
  apply session_is_true in E. now apply H in Hi.
Qed.

Lemma register_already_registered (st : session_state) (s : ptr) (i : io_session)
    (alloc_ok : bool) (now : Z) (type : bbs_io_session_type) (owner : ptr) :
  In i (sessions st) -> i_s i = s ->
  exists j, In j (sessions st) /\ i_s j = s /\
    bbs_io_session_register st alloc_ok now s type owner
    = (-1, st, [EvLog LOG_WARNING (SessionAlreadyRegistered (i_id j))]).
Proof.
  intros Hin Hs. unfold bbs_io_session_register.
  destruct (find_some_ex (session_is s) (sessions st) i Hin) as [j [Hj Hjs]].
  - now apply session_is_true.
  - rewrite Hj. exists j. apply find_some in Hj. destruct Hj as [Hj _].
    apply session_is_true in Hjs. auto.
Qed.

Lemma register_fresh (st : session_state) (s : ptr) (now : Z)
    (type : bbs_io_session_type) (owner : ptr) :
  (forall i, In i (sessions st) -> i_s i <> s) ->
  bbs_io_session_register st true now s type owner
  = (0,
     {| sessions := sessions st ++
                    [{| i_s := s; i_id := uint_incr (io_session_io st);
                        i_start := now; i_type := type; i_owner := owner |}];
        io_session_io := uint_incr (io_session_io st) |},
     []).
Proof.
  intros H. unfold bbs_io_session_register. now rewrite (session_find_none st s H).
Qed.

Lemma unregister_not_registered (st : session_state) (s : ptr) :
  (forall i, In i (sessions st) -> i_s i <> s) ->
  bbs_io_session_unregister st s
  = (-1, st,
     [EvLog LOG_WARNING (NoActiveSession s (Z.of_nat (List.length (sessions st))))]).
Proof.
  intros H. unfold bbs_io_session_unregister. now rewrite (session_find_none st s H).
Qed.

(** What a successful registration did. *)
Lemma register_success_inv (st st1 : session_state) (s : ptr) (alloc_ok : bool)
    (now : Z) (type : bbs_io_session_type) (owner : ptr) (ev : list event) :
  bbs_io_session_register st alloc_ok now s type owner = (0, st1, ev) ->
  find (session_is s) (sessions st) = None /\
  ev = [] /\
  st1 = {| sessions := sessions st ++
                       [{| i_s := s; i_id := uint_incr (io_session_io st);
                           i_start := now; i_type := type; i_owner := owner |}];
           io_session_io := uint_incr (io_session_io st) |}.
Proof.
  unfold bbs_io_session_register.
  destruct (find (session_is s) (sessions st)); [discriminate|].
  destruct alloc_ok; [|discriminate].
  intros H. inversion H. auto.
Qed.

Lemma register_then_unregister (st st1 : session_state) (s : ptr) (alloc_ok : bool)
    (now : Z) (type : bbs_io_session_type) (owner : ptr) (ev : list event) :
  bbs_io_session_register st alloc_ok now s type owner = (0, st1, ev) ->
  bbs_io_session_unregister st1 s
  = (0, {| sessions := sessions st; io_session_io := io_session_io st1 |}, []).
Proof.
  intros H. apply register_success_inv in H. destruct H as [Hnone [_ ->]].
  unfold bbs_io_session_unregister. simpl.
  rewrite (find_app_none _ _ _ Hnone).
  assert (session_is s {| i_s := s; i_id := uint_incr (io_session_io st);
                          i_start := now; i_type := type; i_owner := owner |} = true)
    as Hs by (apply session_is_true; reflexivity).
  rewrite Hs. now rewrite (remove_first_app_last _ _ _ Hnone Hs).
Qed.

End SessionFacts.

(** C7: registering a stack that a session already references fails with -1
    and a warning and leaves the registry as it was; unregistering a stack
    that no session references fails with -1 and a warning and leaves the
    registry as it was; both are total (no crash); registering a stack that
    is not yet referenced succeeds when the allocation does, and after any
    successful registration the unregistration of the same stack returns 0
    and restores the session list. *)
Theorem session_register_unregister_errors (st : session_state) (s : ptr) :
  (forall i alloc_ok now type owner,
      In i (sessions st) -> i_s i = s ->
      exists j, In j (sessions st) /\ i_s j = s /\
        bbs_io_session_register st alloc_ok now s type owner
        = (-1, st, [EvLog LOG_WARNING (SessionAlreadyRegistered (i_id j))])) /\
  ((forall i, In i (sessions st) -> i_s i <> s) ->
   bbs_io_session_unregister st s
   = (-1, st,
      [EvLog LOG_WARNING (NoActiveSession s (Z.of_nat (List.length (sessions st))))])
   /\ forall now type owner,
      fst (fst (bbs_io_session_register st true now s type owner)) = 0) /\
  (forall alloc_ok now type owner st1 ev,
      bbs_io_session_register st alloc_ok now s type owner = (0, st1, ev) ->
      bbs_io_session_unregister st1 s
      = (0, {| sessions := sessions st; io_session_io := io_session_io st1 |}, [])).
Proof.
  split; [|split].
  - intros i alloc_ok now type owner Hin Hs.
    now apply (register_already_registered st s i).
  - intros H. split; [now apply unregister_not_registered|].
    intros now type owner. now rewrite (register_fresh st s now type owner H).
  - intros alloc_ok now type owner st1 ev H.
    now apply (register_then_unregister st st1 s alloc_ok now type owner ev).
Qed.

(** C7 on a registry holding one session for the stack at address 100:
    registering 100 again fails, unregistering 200 fails, and registering 200
    then unregistering it succeeds. *)
Lemma session_register_unregister_errors_witness :
  let i := {| i_s := 100; i_id := 1; i_start := 0;
              i_type := TRANSFORM_SESSION_NODE; i_owner := 7 |} in
  let st := {| sessions := [i]; io_session_io := 1 |} in
  (exists j, In j (sessions st) /\ i_s j = 100 /\
     bbs_io_session_register st true 5 100 TRANSFORM_SESSION_TCPCLIENT 8
     = (-1, st, [EvLog LOG_WARNING (SessionAlreadyRegistered (i_id j))])) /\
  bbs_io_session_unregister st 200
  = (-1, st, [EvLog LOG_WARNING (NoActiveSession 200 1)]) /\
  fst (fst (bbs_io_session_register st true 5 200 TRANSFORM_SESSION_NODE 9)) = 0.
Proof.
  intros i st.
  assert (forall k, In k (sessions st) -> i_s k <> 200) as Hfresh.
  { intros k [<-|[]]. simpl. lia. }
  split; [|split].
  - apply (proj1 (session_register_unregister_errors st 100) i true 5
             TRANSFORM_SESSION_TCPCLIENT 8); [now left|reflexivity].
  - apply (proj1 (proj1 (proj2 (session_register_unregister_errors st 200)) Hfresh)).
  - apply (proj2 (proj1 (proj2 (session_register_unregister_errors st 200)) Hfresh)).
Defined.

(** ** Session identifiers *)

Section SessionIds.

Lemma session_run_app (st : session_state) (a b : list session_op) :
  session_run st (a ++ b)
  = (fst (session_run (fst (session_run st a)) b),
     snd (session_run st a) ++ snd (session_run (fst (session_run st a)) b)).
Proof.
  revert st. induction a as [|op r IH]; intros st; simpl.
  - now destruct (session_run st b).
  - destruct (session_step st op) as [st1 ids1].
    rewrite IH. destruct (session_run st1 r) as [st2 ids2]. simpl.
    now rewrite app_assoc.
Qed.

Lemma skipn_length_app {A : Type} (l : list A) (x : A) :
  skipn (List.length l) (l ++ [x]) = [x].
Proof. induction l; simpl; auto. Qed.

(** One call either issues nothing and leaves the counter alone, or issues
    the incremented counter to the session it appends. *)
Lemma session_step_cases (st st' : session_state) (op : session_op) (ids : list Z) :
  session_step st op = (st', ids) ->
  (ids = [] /\ io_session_io st' = io_session_io st /\
   forall i, In i (sessions st') -> In i (sessions st)) \/
  (ids = [uint_incr (io_session_io st)] /\
   io_session_io st' = uint_incr (io_session_io st) /\
   exists i, i_id i = uint_incr (io_session_io st) /\
             sessions st' = sessions st ++ [i]).
Proof.
  destruct op as [alloc_ok now s type owner|s]; simpl.
  - unfold bbs_io_session_register.
    destruct (find (session_is s) (sessions st)).
    + simpl. intros H. inversion H. subst. left. auto.
    + destruct alloc_ok; simpl; intros H; inversion H; subst; [right|left; auto].
      simpl. rewrite skipn_length_app. simpl. split; [reflexivity|].
      split; [reflexivity|]. eexists. split; [|reflexivity]. reflexivity.
  - unfold bbs_io_session_unregister.
    destruct (find (session_is s) (sessions st)); intros H; inversion H; subst;
      left; simpl; (split; [reflexivity|split; [reflexivity|]]); auto.
    intros j. apply remove_first_in.
Qed.

Lemma session_step_nodup (st st' : session_state) (op : session_op) (ids : list Z) :
  session_step st op = (st', ids) -> ids = [] ->
  NoDup (map i_id (sessions st)) -> NoDup (map i_id (sessions st')).
Proof.
  destruct op as [alloc_ok now s type owner|s]; simpl.
  - unfold bbs_io_session_register.
    destruct (find (session_is s) (sessions st)).
    + intros H. inversion H. now subst.
    + destruct alloc_ok; simpl; intros H; inversion H; subst; [|auto].
      simpl. rewrite skipn_length_app. discriminate.
  - unfold bbs_io_session_unregister.
    destruct (find (session_is s) (sessions st)); intros H; inversion H; subst;
      [|auto].
    simpl. intros _. generalize (sessions st). clear.
    induction l as [|x r IH]; simpl; [auto|].
    intros Hnd. inversion Hnd as [|? ? Hni Hr]. subst.
    destruct (session_is s x); [assumption|].
    simpl. constructor; [|auto].
    intros Hin. apply Hni. apply in_map_iff in Hin. destruct Hin as [y [Hy Hin]].
    apply in_map_iff. exists y. split; [assumption|].
    now apply remove_first_in in Hin.
Qed.

Lemma NoDup_snoc {A : Type} (l : list A) (x : A) :
  NoDup l -> ~ In x l -> NoDup (l ++ [x]).
Proof.
  induction l as [|y r IH]; simpl; intros Hnd Hni.
  - constructor; [tauto|constructor].
  - inversion Hnd as [|? ? Hy Hr]. subst. constructor.
    + intros Hin. apply in_app_or in Hin. destruct Hin as [Hin|[->|[]]]; tauto.
    + apply IH; tauto.
Qed.

Lemma uint_incr_small (c : Z) :
  0 <= c -> c + 1 < UINT_MODULUS -> uint_incr c = c + 1.
Proof.
  intros H0 H1. unfold uint_incr. apply Z.mod_small. lia.
Qed.

(** While the counter does not wrap, a run issues increasing identifiers
    above the counter it started from, and keeps the invariant. *)
Lemma session_run_increasing (ops : list session_op) :
  forall st, session_inv st ->
  io_session_io st + Z.of_nat (List.length (snd (session_run st ops))) < UINT_MODULUS ->
  io_session_io (fst (session_run st ops))
  = io_session_io st + Z.of_nat (List.length (snd (session_run st ops))) /\
  StronglySorted Z.lt (snd (session_run st ops)) /\
  Forall (fun id => io_session_io st < id) (snd (session_run st ops)) /\
  session_inv (fst (session_run st ops)) /\
  (forall i, In i (sessions (fst (session_run st ops))) ->
             In i (sessions st) \/ In (i_id i) (snd (session_run st ops))).
Proof.
  induction ops as [|op r IH]; intros st Hinv Hlt; simpl in *.
  - repeat split; try apply Hinv; auto; try constructor. lia.
  - destruct (session_step st op) as [st1 ids1] eqn:Estep.
    pose proof (IH st1) as IH1.
    destruct (session_run st1 r) as [st2 ids2] eqn:Erun. simpl in *.
    rewrite length_app, Nat2Z.inj_add in Hlt.
    destruct Hinv as [Hc [Hle Hnd]].
    destruct (session_step_cases _ _ _ _ Estep)
      as [[-> [Hctr Hsub]]|[-> [Hctr [i [Hid Hsess]]]]].
    + (* nothing issued *)
      simpl in *. rewrite Hctr in IH1.
      destruct IH1 as [Hc2 [Hs2 [Hf2 [Hinv2 Hin2]]]]; [|lia|].
      { split; [lia|]. split.
        - apply Forall_forall. intros j Hj. apply Hsub in Hj.
          rewrite Forall_forall in Hle. rewrite Hctr. now apply Hle.
        - now apply (session_step_nodup _ _ _ _ Estep). }
      repeat split; auto; try apply Hinv2.
      all: intros j Hj; destruct (Hin2 j Hj) as [H|H]; [left; auto|right; auto].
    + (* one identifier issued *)
      change ([uint_incr (io_session_io st)] ++ ids2)
        with (uint_incr (io_session_io st) :: ids2).
      cbn [List.length] in *. rewrite Nat2Z.inj_succ.
      change (Z.of_nat 1) with 1 in Hlt.
      assert (uint_incr (io_session_io st) = io_session_io st + 1) as Hinc
        by (apply uint_incr_small; lia).
      rewrite Hinc in *. rewrite Hctr in IH1.
      destruct IH1 as [Hc2 [Hs2 [Hf2 [Hinv2 Hin2]]]]; [|lia|].
      { split; [lia|]. rewrite Hsess. split.
        - apply Forall_app. split.
          + eapply Forall_impl; [|exact Hle]. simpl. intros; lia.
          + constructor; [lia|constructor].
        - rewrite map_app. simpl. rewrite Hid. apply NoDup_snoc; [assumption|].
          intros Hin. apply in_map_iff in Hin. destruct Hin as [j [Hj Hjin]].
          rewrite Forall_forall in Hle. specialize (Hle j Hjin). lia. }
      repeat split.
      * rewrite Hc2. lia.
      * constructor; [assumption|].
        eapply Forall_impl; [|exact Hf2]. simpl. intros; lia.
      * constructor; [lia|].
        eapply Forall_impl; [|exact Hf2]. simpl. intros; lia.
      * apply Hinv2.
      * apply Hinv2.
      * apply Hinv2.
      * intros j Hj. destruct (Hin2 j Hj) as [H|H]; [|right; right; assumption].
        rewrite Hsess in H. apply in_app_or in H. destruct H as [H|[<-|[]]].
        -- left. assumption.
        -- right. left. symmetry. assumption.
Qed.

Lemma StronglySorted_lt_NoDup (l : list Z) : StronglySorted Z.lt l -> NoDup l.
Proof.
  induction 1 as [|a l Hs IH Hf]; constructor; [|assumption].
  intros Hin. rewrite Forall_forall in Hf. specialize (Hf a Hin). lia.
Qed.

Lemma StronglySorted_app_r {A : Type} (R : A -> A -> Prop) (l l' : list A) :
  StronglySorted R (l ++ l') -> StronglySorted R l'.
Proof.
  induction l as [|x r IH]; simpl; [auto|].
  intros H. inversion H. auto.
Qed.

Lemma churn_step (c : Z) (rest : list session_op) :
  0 <= c -> c + 1 < UINT_MODULUS ->
  session_run {| sessions := []; io_session_io := c |}
    (SRegister true 0 1 TRANSFORM_SESSION_NODE 0 :: SUnregister 1 :: rest)
  = (fst (session_run {| sessions := []; io_session_io := c + 1 |} rest),
     (c + 1) :: snd (session_run {| sessions := []; io_session_io := c + 1 |} rest)).
Proof.
  intros H0 H1. cbn [session_run session_step].
  rewrite register_fresh by (intros i []).
  rewrite uint_incr_small by assumption.
  unfold bbs_io_session_unregister, session_is. simpl.
  now destruct (session_run {| sessions := []; io_session_io := c + 1 |} rest).
Qed.

Lemma churn_state (n : nat) :
  forall c, 0 <= c -> c + Z.of_nat n < UINT_MODULUS ->
  fst (session_run {| sessions := []; io_session_io := c |} (churn n))
  = {| sessions := []; io_session_io := c + Z.of_nat n |}.
Proof.
  induction n as [|k IH]; intros c H0 Hlt.
  - simpl. f_equal. lia.
  - cbn [churn]. rewrite churn_step by lia. cbn [fst].
    rewrite IH by lia. f_equal. lia.
Qed.

End SessionIds.

(** The run of section 8's property, past the wrap of the counter: after
    4294967294 registrations the next two identifiers are 4294967295 and 0. *)
Lemma churn_then_wrap (n : nat) :
  Z.of_nat n = 4294967294 ->
  snd (session_run session_init
         (churn n ++ [SRegister true 0 1 TRANSFORM_SESSION_NODE 0; SUnregister 1;
                      SRegister true 0 1 TRANSFORM_SESSION_NODE 0]))
  = snd (session_run session_init (churn n)) ++ [4294967295; 0].
Proof.
  intros Hn. rewrite session_run_app. cbn [snd]. f_equal.
  unfold session_init. rewrite churn_state.
  - rewrite Hn. reflexivity.
  - lia.
  - rewrite Hn. change UINT_MODULUS with 4294967296. lia.
Qed.

(** C8, as stated, fails: in the run that registers and unregisters one stack
    4294967295 times and registers it once more, the last two identifiers
    issued are 4294967295 and then 0, so the identifiers issued are not
    strictly increasing. *)
Lemma session_ids_wrap_around :
  exists ops ids,
    snd (session_run session_init ops) = ids ++ [4294967295; 0] /\
    ~ StronglySorted Z.lt (snd (session_run session_init ops)).
Proof.
  assert (Z.of_nat (Z.to_nat 4294967294) = 4294967294) as Hn
    by (apply Z2Nat.id; discriminate).
  exists (churn (Z.to_nat 4294967294) ++
          [SRegister true 0 1 TRANSFORM_SESSION_NODE 0; SUnregister 1;
           SRegister true 0 1 TRANSFORM_SESSION_NODE 0]).
  exists (snd (session_run session_init (churn (Z.to_nat 4294967294)))).
  split; [now apply churn_then_wrap|].
  rewrite (churn_then_wrap _ Hn). intros Hs.
  apply StronglySorted_app_r in Hs.
  inversion Hs as [|a l _ Hf]. subst. inversion Hf as [|b l' Hlt _]. subst. lia.
Qed.

(** C8, amended: in every run of register and unregister calls from the
    start of the process that issues fewer than 2^32 identifiers (the
    unsigned counter has not wrapped), the identifiers issued are strictly
    increasing, hence pairwise distinct and never issued twice, they are
    positive, and the live sessions carry pairwise distinct identifiers, each
    one of those issued. *)
Theorem session_ids_increase_until_wrap (ops : list session_op) :
  Z.of_nat (List.length (snd (session_run session_init ops))) < UINT_MODULUS ->
  StronglySorted Z.lt (snd (session_run session_init ops)) /\
  NoDup (snd (session_run session_init ops)) /\
  Forall (fun id => 0 < id) (snd (session_run session_init ops)) /\
  NoDup (map i_id (sessions (fst (session_run session_init ops)))) /\
  (forall i, In i (sessions (fst (session_run session_init ops))) ->
             In (i_id i) (snd (session_run session_init ops))).
Proof.
  intros Hlt.
  assert (session_inv session_init) as Hinit.
  { repeat split; simpl; try lia; constructor. }
  destruct (session_run_increasing ops session_init Hinit)
    as [_ [Hs [Hf [[_ [_ Hnd]] Hin]]]]; [simpl; lia|].
  repeat split; auto.
  - now apply StronglySorted_lt_NoDup.
  - intros i Hi. destruct (Hin i Hi) as [[]|H]. exact H.
Qed.

(** C8 on a run with an unregistration in between: the identifiers issued
    are 1, 2, 3. *)
Lemma session_ids_increase_until_wrap_witness :
  let ops := [SRegister true 10 100 TRANSFORM_SESSION_NODE 7;
              SRegister true 11 200 TRANSFORM_SESSION_TCPCLIENT 8;
              SUnregister 100;
              SRegister true 12 100 TRANSFORM_SESSION_NODE 7] in
  snd (session_run session_init ops) = [1; 2; 3] /\
  StronglySorted Z.lt (snd (session_run session_init ops)) /\
  NoDup (map i_id (sessions (fst (session_run session_init ops)))).
Proof.
  intros ops.
  assert (Z.of_nat (List.length (snd (session_run session_init ops))) < UINT_MODULUS)
    as H by (vm_compute; reflexivity).
  split; [reflexivity|].
  split.
  - exact (proj1 (session_ids_increase_until_wrap ops H)).
  - exact (proj1 (proj2 (proj2 (proj2 (session_ids_increase_until_wrap ops H))))).
Defined.

(** ** Transformer registry *)

Section RegistryFacts.

Lemma same_name_nocase_lower (name : string) (t : bbs_io_transformer) :
  cstring name -> cstring (t_name t) ->
  (same_name_nocase name t = true <-> lower name = lower (t_name t)).
Proof.
  intros Hn Ht. unfold same_name_nocase. rewrite Z.eqb_eq.
  now apply strcasecmp_zero_iff.
Qed.

Lemma same_name_eq (name : string) (t : bbs_io_transformer) :
  cstring name -> cstring (t_name t) ->
  (same_name name t = true <-> name = t_name t).
Proof.
  intros Hn Ht. unfold same_name. rewrite Z.eqb_eq. now apply strcmp_zero_iff.
Qed.

Lemma find_nocase_absent (name : string) (reg : list bbs_io_transformer) :
  cstring name -> names_cstring reg ->
  absent_nocase name (map t_name reg)
  = match find (same_name_nocase name) reg with Some _ => false | None => true end.
Proof.
  intros Hn. induction reg as [|t r IH]; simpl; intros Hreg; [reflexivity|].
  inversion Hreg as [|? ? Ht Hr]. subst.
  pose proof (same_name_nocase_lower name t Hn Ht) as Hiff.
  destruct (list_eq_dec Z.eq_dec (lower name) (lower (t_name t))) as [E|E].
  - apply Hiff in E. now rewrite E.
  - destruct (same_name_nocase name t); [exfalso; apply E; now apply Hiff|auto].
Qed.

Lemma remove_nocase_drop (name : string) (reg : list bbs_io_transformer) :
  cstring name -> names_cstring reg ->
  map t_name (remove_first (same_name_nocase name) reg)
  = drop_nocase name (map t_name reg).
Proof.
  intros Hn. induction reg as [|t r IH]; simpl; intros Hreg; [reflexivity|].
  inversion Hreg as [|? ? Ht Hr]. subst.
  pose proof (same_name_nocase_lower name t Hn Ht) as Hiff.
  destruct (list_eq_dec Z.eq_dec (lower name) (lower (t_name t))) as [E|E].
  - apply Hiff in E. now rewrite E.
  - destruct (same_name_nocase name t); [exfalso; apply E; now apply Hiff|].
    simpl. now rewrite IH.
Qed.

Lemma names_cstring_remove (f : bbs_io_transformer -> bool)
    (reg : list bbs_io_transformer) :
  names_cstring reg -> names_cstring (remove_first f reg).
Proof.
  unfold names_cstring. rewrite !Forall_forall. intros H t Ht.
  apply H. now apply remove_first_in in Ht.
Qed.

(** One call on the registry changes its names as the specification's set. *)
Lemma registry_step_names (reg : list bbs_io_transformer) (op : registry_op) :
  cstring (op_name op) -> names_cstring reg ->
  map t_name (registry_step reg op) = registered_step (map t_name reg) op /\
  names_cstring (registry_step reg op).
Proof.
  intros Hop Hreg.
  destruct op as [alloc_ok name setup query cleanup type dir module|name];
    simpl in *.
  - unfold __bbs_io_transformer_register.
    rewrite (find_nocase_absent name reg Hop Hreg).
    destruct (find (same_name_nocase name) reg); simpl; [auto|].
    destruct alloc_ok; simpl; [|auto].
    split; [now rewrite map_app|].
    apply Forall_app. split; [assumption|]. constructor; [assumption|constructor].
  - unfold bbs_io_transformer_unregister.
    destruct (find (same_name_nocase name) reg) eqn:E; simpl.
    + split; [now apply remove_nocase_drop|now apply names_cstring_remove].
    + split; [|assumption].
      rewrite <- (remove_nocase_drop name reg Hop Hreg).
      now rewrite (remove_first_none _ _ E).
Qed.

Lemma registry_run_names (ops : list registry_op) :
  forall reg, Forall (fun op => cstring (op_name op)) ops -> names_cstring reg ->
  map t_name (registry_run reg ops) = fold_left registered_step ops (map t_name reg) /\
  names_cstring (registry_run reg ops).
Proof.
  unfold registry_run.
  induction ops as [|op r IH]; intros reg Hops Hreg; simpl; [auto|].
  inversion Hops as [|? ? Hop Hr]. subst.
  destruct (registry_step_names reg op Hop Hreg) as [Hmap Hcs].
  rewrite <- Hmap. now apply IH.
Qed.

(** The lookup by name finds an entry exactly when the name is, byte for
    byte, the name of a registered entry. *)
Lemma available_iff_in (reg : list bbs_io_transformer) (name : string) :
  cstring name -> names_cstring reg ->
  (bbs_io_named_transformer_available reg name = 1 <-> In name (map t_name reg)) /\
  (bbs_io_named_transformer_available reg name = 0 <-> ~ In name (map t_name reg)).
Proof.
  intros Hn Hreg. unfold bbs_io_named_transformer_available.
  unfold names_cstring in Hreg. rewrite Forall_forall in Hreg.
  destruct (find (same_name name) reg) as [t|] eqn:E.
  - apply find_some in E. destruct E as [Hin Hs].
    apply (same_name_eq name t Hn (Hreg t Hin)) in Hs.
    assert (In name (map t_name reg)) as Hm
      by (apply in_map_iff; exists t; auto).
    split; split; auto; try discriminate. intros H. contradiction.
  - assert (~ In name (map t_name reg)) as Hm.
    { intros Hin. apply in_map_iff in Hin. destruct Hin as [t [Ht Hin]].
      pose proof (find_none _ _ E t Hin) as Hf.
      assert (same_name name t = true) as Hs
        by (apply (same_name_eq name t Hn (Hreg t Hin)); auto).
      rewrite Hs in Hf. discriminate. }
    split; split; auto; try discriminate. intros H. contradiction.
Qed.

Lemma register_duplicate (reg : list bbs_io_transformer) (alloc_ok : bool)
    (name : string) setup query cleanup type dir module :
  (exists t, In t reg /\ same_name_nocase name t = true) ->
  __bbs_io_transformer_register reg alloc_ok name setup query cleanup type dir module
  = (-1, reg, [EvLog LOG_ERROR (TransformerAlreadyRegistered name)]).
Proof.
  intros [t [Hin Hs]]. unfold __bbs_io_transformer_register.
  destruct (find_some_ex _ _ t Hin Hs) as [y [Hy _]]. now rewrite Hy.
Qed.

Lemma register_new (reg : list bbs_io_transformer) (name : string)
    setup query cleanup type dir module :
  (forall t, In t reg -> same_name_nocase name t = false) ->
  __bbs_io_transformer_register reg true name setup query cleanup type dir module
  = (0,
     reg ++ [{| t_name := name; t_type := type; t_dir := dir; t_setup := setup;
                t_query := query; t_cleanup := cleanup; t_module := module |}],
     []).
Proof.
  intros H. unfold __bbs_io_transformer_register.
  now rewrite (proj2 (find_none_iff _ _) H).
Qed.

End RegistryFacts.

(** C4: a registration whose name agrees, after case folding, with the name
    of a registered transformer returns -1, reports the duplicate and leaves
    the registry as it was; a registration whose name agrees with none is
    appended to the registry and returns 0 (the allocation succeeding). *)
Theorem register_rejects_duplicate_nocase (reg : list bbs_io_transformer)
    (name : string) setup query cleanup type dir module :
  cstring name -> names_cstring reg ->
  ((exists t, In t reg /\ lower (t_name t) = lower name) ->
   forall alloc_ok,
   __bbs_io_transformer_register reg alloc_ok name setup query cleanup type dir module
   = (-1, reg, [EvLog LOG_ERROR (TransformerAlreadyRegistered name)])) /\
  ((forall t, In t reg -> lower (t_name t) <> lower name) ->
   __bbs_io_transformer_register reg true name setup query cleanup type dir module
   = (0,
      reg ++ [{| t_name := name; t_type := type; t_dir := dir; t_setup := setup;
                 t_query := query; t_cleanup := cleanup; t_module := module |}],
      [])).
Proof.
  intros Hn Hreg. pose proof Hreg as Hall.
  unfold names_cstring in Hall. rewrite Forall_forall in Hall. split.
  - intros [t [Hin Hl]] alloc_ok. apply register_duplicate.
    exists t. split; [assumption|].
    apply (same_name_nocase_lower name t Hn (Hall t Hin)). now symmetry.
  - intros H. apply register_new. intros t Hin.
    destruct (same_name_nocase name t) eqn:E; [|reflexivity].
    apply (same_name_nocase_lower name t Hn (Hall t Hin)) in E.
    exfalso. apply (H t Hin). now symmetry.
Qed.

(** C4 on a registry holding "TLS": registering "tls" is refused, and
    registering "deflate" is stored behind it. *)
Lemma register_rejects_duplicate_nocase_witness :
  let tls := sample_transformer "TLS" TRANSFORM_TLS_ENCRYPTION 3 (hook_ok 500) 1 in
  __bbs_io_transformer_register [tls] true "tls" (hook_ok 600) None 41
    TRANSFORM_TLS_ENCRYPTION 3 2
  = (-1, [tls], [EvLog LOG_ERROR (TransformerAlreadyRegistered "tls")]) /\
  __bbs_io_transformer_register [tls] true "deflate" (hook_ok 600) None 41
    TRANSFORM_DEFLATE_COMPRESSION 3 2
  = (0, [tls; sample_transformer_at "deflate" TRANSFORM_DEFLATE_COMPRESSION 3
                (hook_ok 600) 41 2], []).
Proof.
  intros tls.
  assert (names_cstring [tls]) as Hreg.
  { constructor; [|constructor]. simpl. repeat split; discriminate. }
  split.
  - apply (proj1 (register_rejects_duplicate_nocase [tls] "tls" (hook_ok 600) None 41
                    TRANSFORM_TLS_ENCRYPTION 3 2
                    ltac:(simpl; repeat split; discriminate) Hreg)).
    exists tls. split; [now left|reflexivity].
  - apply (proj2 (register_rejects_duplicate_nocase [tls] "deflate" (hook_ok 600) None 41
                    TRANSFORM_DEFLATE_COMPRESSION 3 2
                    ltac:(simpl; repeat split; discriminate) Hreg)).
    intros t [<-|[]]. discriminate.
Defined.

(** C3: with "TLS" registered, the query "tls" differs from the registered
    name only in letter case (strcasecmp answers 0, and the two agree after
    case folding); the registration of "tls" is refused as already registered
    and the unregistration of "tls" removes "TLS", yet the lookup
    bbs_io_named_transformer_available answers 1 for "TLS" and 0 for "tls":
    it compares with strcmp where its siblings compare with strcasecmp. *)
Lemma available_is_case_sensitive :
  let reg := registry_run []
               [RRegister true "TLS" (hook_ok 500) None 40 TRANSFORM_TLS_ENCRYPTION 3 1] in
  map t_name reg = ["TLS"%string] /\
  strcasecmp "tls" "TLS" = 0 /\
  lower "tls" = lower "TLS" /\
  __bbs_io_transformer_register reg true "tls" (hook_ok 600) None 41
    TRANSFORM_TLS_ENCRYPTION 3 2
  = (-1, reg, [EvLog LOG_ERROR (TransformerAlreadyRegistered "tls")]) /\
  bbs_io_transformer_unregister reg "tls" = (0, []) /\
  bbs_io_named_transformer_available reg "TLS" = 1 /\
  bbs_io_named_transformer_available reg "tls" = 0.
Proof.
  repeat split.
Qed.

(** The lookup by name after any sequence of register and unregister calls:
    the names in the registry are those of the specification's registered
    set (names identified up to letter case), and the lookup answers 1
    exactly when the queried name is, byte for byte, one of the registered
    names, and 0 exactly when it is not. *)
Theorem available_reflects_registered_names (ops : list registry_op) (name : string) :
  cstring name -> Forall (fun op => cstring (op_name op)) ops ->
  map t_name (registry_run [] ops) = registered_names ops /\
  (bbs_io_named_transformer_available (registry_run [] ops) name = 1
   <-> In name (registered_names ops)) /\
  (bbs_io_named_transformer_available (registry_run [] ops) name = 0
   <-> ~ In name (registered_names ops)).
Proof.
  intros Hn Hops.
  destruct (registry_run_names ops [] Hops) as [Hmap Hcs]; [constructor|].
  simpl in Hmap. unfold registered_names. rewrite <- Hmap.
  split; [reflexivity|]. now apply available_iff_in.
Qed.

(** On a run that registers "TLS" and "deflate", tries "Deflate", and
    unregisters "tls", the registered set is "deflate" alone. *)
Lemma available_reflects_registered_names_witness :
  let ops := [RRegister true "TLS" (hook_ok 500) None 40 TRANSFORM_TLS_ENCRYPTION 3 1;
              RRegister true "deflate" (hook_ok 600) None 41
                TRANSFORM_DEFLATE_COMPRESSION 3 2;
              RRegister true "Deflate" (hook_ok 700) None 42
                TRANSFORM_DEFLATE_COMPRESSION 3 2;
              RUnregister "tls"] in
  registered_names ops = ["deflate"%string] /\
  (bbs_io_named_transformer_available (registry_run [] ops) "deflate" = 1
   <-> In "deflate"%string (registered_names ops)) /\
  (bbs_io_named_transformer_available (registry_run [] ops) "TLS" = 0
   <-> ~ In "TLS"%string (registered_names ops)).
Proof.
  intros ops.
  assert (Forall (fun op => cstring (op_name op)) ops) as Hops.
  { repeat constructor; discriminate. }
  split; [reflexivity|]. split.
  - exact (proj1 (proj2 (available_reflects_registered_names ops "deflate"
                           ltac:(simpl; repeat split; discriminate) Hops))).
  - exact (proj2 (proj2 (available_reflects_registered_names ops "TLS"
                           ltac:(simpl; repeat split; discriminate) Hops))).
Defined.

(** ** Transformation stack *)

(** Well-formedness of a stack written out slot by slot. *)
Ltac slot_wf_by_cases :=
  unfold slot_wf; simpl; intros Hd;
  first [discriminate | exfalso; apply Hd; reflexivity].

Ltac stack_wf_by_cases :=
  unfold stack_wf;
  repeat (first [apply Forall_nil | apply Forall_cons; [slot_wf_by_cases|]]).

Section StackFacts.

Lemma type_eqb_eq (a b : bbs_io_transform_type) : type_eqb a b = true <-> a = b.
Proof. destruct a, b; simpl; split; intros H; congruence. Qed.

Lemma type_eqb_refl (a : bbs_io_transform_type) : type_eqb a a = true.
Proof. now destruct a. Qed.

Lemma non_null_true (p : ptr) : non_null p = true <-> p <> NULL.
Proof.
  unfold non_null. rewrite negb_true_iff. apply Z.eqb_neq.
Qed.

Lemma stack_wf_fresh (n : nat) : stack_wf (fresh_stack n).
Proof.
  unfold stack_wf, fresh_stack. apply Forall_forall. intros tran Hin.
  apply repeat_spec in Hin. subst. intros H. now contradiction H.
Qed.

(** On a well-formed stack the scan never dereferences NULL, and it finds a
    transformation of the kind exactly when some slot is active for it. *)
Lemma active_spec (trans : bbs_io_transformations) (type : bbs_io_transform_type) :
  stack_wf trans ->
  bbs_io_transform_active trans type = Some (existsb (active_slot type) trans).
Proof.
  induction trans as [|tran rest IH]; intros Hwf; simpl; [reflexivity|].
  inversion Hwf as [|? ? Hs Hr]. subst.
  unfold active_slot, has_data. destruct (non_null (data tran)) eqn:E; simpl.
  - apply non_null_true in E. specialize (Hs E).
    destruct (transformer tran) as [t|]; [|contradiction].
    destruct (type_eqb (t_type t) type); simpl; auto.
  - auto.
Qed.

Lemma existsb_count (type : bbs_io_transform_type) (trans : bbs_io_transformations) :
  existsb (active_slot type) trans = false <-> count_active type trans = 0%nat.
Proof.
  unfold count_active. induction trans as [|tran rest IH]; simpl; [tauto|].
  destruct (active_slot type tran); simpl; [split; discriminate|exact IH].
Qed.

Lemma active_fresh (n : nat) (type : bbs_io_transform_type) :
  bbs_io_transform_active (fresh_stack n) type = Some false.
Proof. induction n; simpl; auto. Qed.

Lemma suitable_found (reg : list bbs_io_transformer) (type : bbs_io_transform_type)
    (direction : bbs_io_transform_dir) (t : bbs_io_transformer) :
  find (suitable type direction) reg = Some t ->
  In t reg /\ t_type t = type /\ Z.land (t_dir t) direction <> 0.
Proof.
  intros H. apply find_some in H. destruct H as [Hin Hs]. unfold suitable in Hs.
  apply andb_true_iff in Hs. destruct Hs as [Hd Ht].
  apply type_eqb_eq in Ht. apply negb_true_iff, Z.eqb_neq in Hd. auto.
Qed.

(** The store and the capacity check agree: a slot is free exactly when the
    store succeeds. *)
Lemma store_free (trans : bbs_io_transformations) (t : bbs_io_transformer) (d : ptr) :
  io_transform_slots_free trans = true <->
  exists trans', io_transform_store trans t d = Some trans'.
Proof.
  induction trans as [|tran rest IH]; simpl.
  - split; [discriminate|]. intros [? H]. discriminate.
  - destruct (transformer tran).
    + rewrite IH. split; intros [trans' H].
      * rewrite H. eauto.
      * destruct (io_transform_store rest t d); [eauto|discriminate].
    + split; eauto.
Qed.

Lemma store_full (trans : bbs_io_transformations) (t : bbs_io_transformer) (d : ptr) :
  io_transform_slots_free trans = false <-> io_transform_store trans t d = None.
Proof.
  pose proof (store_free trans t d) as H.
  destruct (io_transform_slots_free trans), (io_transform_store trans t d);
    split; intros; try discriminate; try reflexivity.
  - destruct (proj1 H eq_refl). discriminate.
  - assert (false = true) by (apply H; eauto). discriminate.
Qed.

(** What the store changes: one slot that had no transformer now holds the
    transformer and the data; the slots around it are as before. *)
Lemma store_shape (trans trans' : bbs_io_transformations) (t : bbs_io_transformer)
    (d : ptr) :
  io_transform_store trans t d = Some trans' ->
  exists before tran after,
    trans = before ++ tran :: after /\
    transformer tran = None /\
    Forall (fun x => in_use x = true) before /\
    trans' = before ++ {| transformer := Some t; data := d |} :: after.
Proof.
  revert trans'. induction trans as [|x rest IH]; simpl; intros trans' H;
    [discriminate|].
  destruct (transformer x) eqn:E.
  - destruct (io_transform_store rest t d) as [rest'|]; [|discriminate].
    inversion H. subst.
    destruct (IH rest' eq_refl) as [before [tran [after [-> [Hn [Hb ->]]]]]].
    exists (x :: before), tran, after. repeat split; auto.
    constructor; [|assumption]. unfold in_use. now rewrite E.
  - inversion H. subst. exists [], x, rest. repeat split; auto.
Qed.

Lemma possible_already_active (trans : bbs_io_transformations)
    (type : bbs_io_transform_type) :
  bbs_io_transform_active trans type = Some true ->
  __bbs_io_transform_possible trans type true
  = Some (false, [EvLog LOG_ERROR (TransformationAlreadyActive type)]).
Proof.
  intros H. unfold __bbs_io_transform_possible. now rewrite H.
Qed.

Lemma possible_encryption_late (trans : bbs_io_transformations) :
  bbs_io_transform_active trans TRANSFORM_TLS_ENCRYPTION = Some false ->
  bbs_io_transform_active trans TRANSFORM_DEFLATE_COMPRESSION = Some true ->
  __bbs_io_transform_possible trans TRANSFORM_TLS_ENCRYPTION true
  = Some (false, [EvLog LOG_WARNING EncryptionAfterCompression]).
Proof.
  intros H1 H2. unfold __bbs_io_transform_possible. rewrite H1. simpl.
  now rewrite H2.
Qed.

(** A request that is possible logs nothing in the check. *)
Lemma possible_true_inv (trans : bbs_io_transformations)
    (type : bbs_io_transform_type) (warn : bool) (ev : list event) :
  __bbs_io_transform_possible trans type warn = Some (true, ev) ->
  ev = [] /\ bbs_io_transform_active trans type = Some false.
Proof.
  unfold __bbs_io_transform_possible.
  destruct (bbs_io_transform_active trans type) as [[|]|]; try discriminate.
  destruct (type_eqb type TRANSFORM_TLS_ENCRYPTION).
  - destruct (bbs_io_transform_active trans TRANSFORM_DEFLATE_COMPRESSION)
      as [[|]|]; try discriminate.
    intros H. inversion H. auto.
  - intros H. inversion H. auto.
Qed.

Lemma setup_refused
    (during_hook : bbs_io_transformations -> bbs_io_transformations)
    (reg : list bbs_io_transformer) (trans : bbs_io_transformations)
    (type : bbs_io_transform_type) (direction : bbs_io_transform_dir)
    (rfd wfd : Z) (arg : ptr) (ev : list event) :
  __bbs_io_transform_possible trans type true = Some (false, ev) ->
  io_transform_setup_with during_hook reg trans type direction rfd wfd arg
  = Some {| so_res := -1; so_trans := trans; so_rfd := rfd; so_wfd := wfd;
            so_events := ev |}.
Proof.
  intros H. unfold io_transform_setup_with. now rewrite H.
Qed.

(** The hook has been found and called: the rest of the setup. *)
Lemma setup_reaches_hook
    (during_hook : bbs_io_transformations -> bbs_io_transformations)
    (reg : list bbs_io_transformer) (trans : bbs_io_transformations)
    (type : bbs_io_transform_type) (direction : bbs_io_transform_dir)
    (rfd wfd : Z) (arg : ptr) (t : bbs_io_transformer) :
  __bbs_io_transform_possible trans type true = Some (true, []) ->
  io_transform_slots_free trans = true ->
  find (suitable type direction) reg = Some t ->
  io_transform_setup_with during_hook reg trans type direction rfd wfd arg
  = let r := t_setup t rfd wfd direction arg in
    Some {| so_res := fst (fst (store_after_setup (during_hook trans) t
                                   (sr_res r) (sr_data r)));
            so_trans := snd (fst (store_after_setup (during_hook trans) t
                                     (sr_res r) (sr_data r)));
            so_rfd := sr_rfd r; so_wfd := sr_wfd r;
            so_events := snd (store_after_setup (during_hook trans) t
                                (sr_res r) (sr_data r)) |}.
Proof.
  intros Hp Hf Ht. unfold io_transform_setup_with. rewrite Hp, Hf, Ht. simpl.
  now destruct (store_after_setup (during_hook trans) t
                  (sr_res (t_setup t rfd wfd direction arg))
                  (sr_data (t_setup t rfd wfd direction arg))) as [[? ?] ?].
Qed.

End StackFacts.

(** C1: on every well-formed stack on which compression is active, the setup
    of encryption returns -1 and leaves the stack and the descriptors as they
    were, calling no hook; the failure is logged as the ordering conflict
    when encryption is not itself active already, and as a duplicate when it
    is.  On a fresh stack of at least two slots, with a registered
    transformer for each kind in the requested direction and setup hooks that
    return 0, the setup of encryption and then the setup of compression both
    return 0 and fill the first two slots in that order. *)
Theorem encryption_after_compression_refused :
  (forall reg trans direction rfd wfd arg,
      stack_wf trans ->
      bbs_io_transform_active trans TRANSFORM_DEFLATE_COMPRESSION = Some true ->
      exists ev,
        bbs_io_transform_setup reg trans TRANSFORM_TLS_ENCRYPTION direction rfd wfd arg
        = Some {| so_res := -1; so_trans := trans; so_rfd := rfd; so_wfd := wfd;
                  so_events := ev |} /\
        (bbs_io_transform_active trans TRANSFORM_TLS_ENCRYPTION = Some false ->
         ev = [EvLog LOG_WARNING EncryptionAfterCompression]) /\
        (bbs_io_transform_active trans TRANSFORM_TLS_ENCRYPTION = Some true ->
         ev = [EvLog LOG_ERROR (TransformationAlreadyActive TRANSFORM_TLS_ENCRYPTION)])) /\
  (forall n reg dir1 dir2 rfd wfd arg1 arg2 t1 t2,
      find (suitable TRANSFORM_TLS_ENCRYPTION dir1) reg = Some t1 ->
      find (suitable TRANSFORM_DEFLATE_COMPRESSION dir2) reg = Some t2 ->
      let r1 := t_setup t1 rfd wfd dir1 arg1 in
      let r2 := t_setup t2 (sr_rfd r1) (sr_wfd r1) dir2 arg2 in
      sr_res r1 = 0 ->
      sr_res r2 = 0 ->
      exists o1 o2,
        bbs_io_transform_setup reg (fresh_stack (S (S n))) TRANSFORM_TLS_ENCRYPTION
          dir1 rfd wfd arg1 = Some o1 /\
        so_res o1 = 0 /\
        bbs_io_transform_setup reg (so_trans o1) TRANSFORM_DEFLATE_COMPRESSION
          dir2 (so_rfd o1) (so_wfd o1) arg2 = Some o2 /\
        so_res o2 = 0 /\
        so_trans o2
        = {| transformer := Some t1; data := sr_data r1 |}
          :: {| transformer := Some t2; data := sr_data r2 |}
          :: fresh_stack n).
Proof.
  split.
  - intros reg trans direction rfd wfd arg Hwf Hc.
    pose proof (active_spec trans TRANSFORM_TLS_ENCRYPTION Hwf) as Ht.
    destruct (existsb (active_slot TRANSFORM_TLS_ENCRYPTION) trans).
    + eexists. split; [|split].
      * apply setup_refused. now apply possible_already_active.
      * rewrite Ht. discriminate.
      * reflexivity.
    + eexists. split; [|split].
      * apply setup_refused. now apply possible_encryption_late.
      * reflexivity.
      * rewrite Ht. discriminate.
  - intros n reg dir1 dir2 rfd wfd arg1 arg2 t1 t2 Hf1 Hf2 r1 r2 Hr1 Hr2.
    destruct (suitable_found _ _ _ _ Hf1) as [_ [Hty1 _]].
    destruct (suitable_found _ _ _ _ Hf2) as [_ [Hty2 _]].
    eexists. eexists. split; [|split; [|split; [|split]]].
    + unfold bbs_io_transform_setup. apply setup_reaches_hook; [|reflexivity|exact Hf1].
      unfold __bbs_io_transform_possible. rewrite !active_fresh. reflexivity.
    + cbn zeta. fold r1. unfold store_after_setup. rewrite Hr1. reflexivity.
    + cbn zeta. fold r1. unfold store_after_setup. rewrite Hr1.
      cbn [Z.eqb fresh_stack repeat io_transform_store empty_slot transformer
           fst snd so_trans so_rfd so_wfd].
      unfold bbs_io_transform_setup. apply setup_reaches_hook; [|reflexivity|exact Hf2].
      unfold __bbs_io_transform_possible.
      cbn [bbs_io_transform_active data transformer type_eqb].
      rewrite Hty1. cbn [type_eqb].
      destruct (non_null (sr_data r1)); fold (fresh_stack n);
        rewrite !active_fresh; reflexivity.
    + cbn zeta. fold r1. fold r2. unfold store_after_setup. rewrite Hr2. reflexivity.
    + cbn zeta. fold r1. fold r2. unfold store_after_setup. rewrite Hr2.
      reflexivity.
Qed.

(** C1 on a registry with a TLS and a deflate transformer: on a stack whose
    first slot holds deflate, the setup of TLS is refused with the ordering
    warning; on a fresh stack of three slots TLS and then deflate are set up. *)
Lemma encryption_after_compression_refused_witness :
  let tls := sample_transformer "TLS" TRANSFORM_TLS_ENCRYPTION 3 (hook_ok 500) 1 in
  let deflate :=
    sample_transformer "DEFLATE" TRANSFORM_DEFLATE_COMPRESSION 3 (hook_ok 600) 2 in
  let trans := [{| transformer := Some deflate; data := 600 |}; empty_slot] in
  (exists ev,
      bbs_io_transform_setup [tls; deflate] trans TRANSFORM_TLS_ENCRYPTION 1 4 5 0
      = Some {| so_res := -1; so_trans := trans; so_rfd := 4; so_wfd := 5;
                so_events := ev |} /\
      (bbs_io_transform_active trans TRANSFORM_TLS_ENCRYPTION = Some false ->
       ev = [EvLog LOG_WARNING EncryptionAfterCompression]) /\
      (bbs_io_transform_active trans TRANSFORM_TLS_ENCRYPTION = Some true ->
       ev = [EvLog LOG_ERROR (TransformationAlreadyActive TRANSFORM_TLS_ENCRYPTION)])) /\
  (exists o1 o2,
      bbs_io_transform_setup [tls; deflate] (fresh_stack 3) TRANSFORM_TLS_ENCRYPTION
        1 4 5 0 = Some o1 /\
      so_res o1 = 0 /\
      bbs_io_transform_setup [tls; deflate] (so_trans o1) TRANSFORM_DEFLATE_COMPRESSION
        1 (so_rfd o1) (so_wfd o1) 0 = Some o2 /\
      so_res o2 = 0 /\
      so_trans o2
      = [{| transformer := Some tls; data := 500 |};
         {| transformer := Some deflate; data := 600 |}; empty_slot]).
Proof.
  intros tls deflate trans. split.
  - apply (proj1 encryption_after_compression_refused [tls; deflate] trans 1 4 5 0).
    + stack_wf_by_cases.
    + reflexivity.
  - apply (proj2 encryption_after_compression_refused 1%nat [tls; deflate]
             1 1 4 5 0 0 tls deflate); reflexivity.
Defined.

(** ** At most one active slot per kind *)

Section StackInvariant.

Lemma count_active_app (type : bbs_io_transform_type)
    (a b : bbs_io_transformations) :
  count_active type (a ++ b) = (count_active type a + count_active type b)%nat.
Proof.
  unfold count_active. now rewrite filter_app, length_app.
Qed.

Lemma slot_wf_free_inactive (type : bbs_io_transform_type)
    (tran : bbs_io_transformation) :
  transformer tran = None -> active_slot type tran = false.
Proof.
  intros H. unfold active_slot. rewrite H. apply andb_false_r.
Qed.

(** The store adds at most the new slot to the active slots of a kind. *)
Lemma store_count (trans trans' : bbs_io_transformations) (t : bbs_io_transformer)
    (d : ptr) (type : bbs_io_transform_type) :
  io_transform_store trans t d = Some trans' ->
  count_active type trans'
  = (count_active type trans +
     (if active_slot type {| transformer := Some t; data := d |} then 1 else 0))%nat.
Proof.
  intros H. destruct (store_shape _ _ _ _ H) as [before [tran [after [-> [Hn [_ ->]]]]]].
  rewrite !count_active_app.
  change (tran :: after) with ([tran] ++ after).
  change ({| transformer := Some t; data := d |} :: after)
    with ([{| transformer := Some t; data := d |}] ++ after).
  rewrite !count_active_app. unfold count_active at 2 5. simpl.
  rewrite (slot_wf_free_inactive type tran Hn).
  destruct (active_slot type {| transformer := Some t; data := d |}); simpl; lia.
Qed.

Lemma store_wf (trans trans' : bbs_io_transformations) (t : bbs_io_transformer)
    (d : ptr) :
  io_transform_store trans t d = Some trans' -> stack_wf trans -> stack_wf trans'.
Proof.
  intros H. destruct (store_shape _ _ _ _ H) as [before [tran [after [-> [_ [_ ->]]]]]].
  unfold stack_wf. rewrite !Forall_app. intros [Hb Ha]. split; [assumption|].
  inversion Ha. subst. constructor; [|assumption].
  unfold slot_wf. simpl. discriminate.
Qed.

(** The setup on the connection's thread either leaves the stack alone or
    stores, in a slot without transformer, a transformer of the requested
    kind, which was not active. *)
Lemma setup_stack_cases (reg : list bbs_io_transformer)
    (trans : bbs_io_transformations) (type : bbs_io_transform_type)
    (direction : bbs_io_transform_dir) (rfd wfd : Z) (arg : ptr) (o : setup_outcome) :
  bbs_io_transform_setup reg trans type direction rfd wfd arg = Some o ->
  so_trans o = trans \/
  exists t d,
    io_transform_store trans t d = Some (so_trans o) /\
    t_type t = type /\
    bbs_io_transform_active trans type = Some false.
Proof.
  unfold bbs_io_transform_setup, io_transform_setup_with.
  destruct (__bbs_io_transform_possible trans type true) as [[[|] ev]|] eqn:Ep;
    [| |discriminate].
  - destruct (possible_true_inv _ _ _ _ Ep) as [-> Hact].
    destruct (io_transform_slots_free trans); simpl;
      [|intros H; inversion H; now left].
    destruct (find (suitable type direction) reg) as [t|] eqn:Ef;
      [|intros H; inversion H; now left].
    destruct (suitable_found _ _ _ _ Ef) as [_ [Hty _]].
    unfold store_after_setup.
    destruct (sr_res (t_setup t rfd wfd direction arg) =? 0);
      [|intros H; inversion H; now left].
    destruct (io_transform_store trans t (sr_data (t_setup t rfd wfd direction arg)))
      as [trans'|] eqn:Es; intros H; inversion H; [|now left].
    right. simpl. eauto.
  - intros H. inversion H. now left.
Qed.

(** On a well-formed stack the setup does not crash. *)
Lemma setup_defined (reg : list bbs_io_transformer)
    (trans : bbs_io_transformations) (type : bbs_io_transform_type)
    (direction : bbs_io_transform_dir) (rfd wfd : Z) (arg : ptr) :
  stack_wf trans ->
  exists o, bbs_io_transform_setup reg trans type direction rfd wfd arg = Some o.
Proof.
  intros Hwf. unfold bbs_io_transform_setup, io_transform_setup_with,
    __bbs_io_transform_possible.
  rewrite (active_spec trans type Hwf).
  rewrite (active_spec trans TRANSFORM_DEFLATE_COMPRESSION Hwf).
  destruct (existsb (active_slot type) trans); [eauto|].
  destruct (type_eqb type TRANSFORM_TLS_ENCRYPTION);
    [destruct (existsb (active_slot TRANSFORM_DEFLATE_COMPRESSION) trans); [eauto|]|];
    (destruct (io_transform_slots_free trans); simpl; [|eauto];
     destruct (find (suitable type direction) reg) as [t|]; [|eauto];
     destruct (store_after_setup trans t (sr_res (t_setup t rfd wfd direction arg))
                 (sr_data (t_setup t rfd wfd direction arg))) as [[? ?] ?]; eauto).
Qed.

Lemma stack_inv_fresh (n : nat) : stack_inv (fresh_stack n).
Proof.
  split; [apply stack_wf_fresh|]. intros type.
  assert (count_active type (fresh_stack n) = 0%nat) as ->; [|lia].
  apply existsb_count.
  pose proof (active_spec (fresh_stack n) type (stack_wf_fresh n)) as H.
  rewrite active_fresh in H. now inversion H.
Qed.

Lemma stack_inv_setup (reg : list bbs_io_transformer)
    (trans : bbs_io_transformations) (type : bbs_io_transform_type)
    (direction : bbs_io_transform_dir) (rfd wfd : Z) (arg : ptr) (o : setup_outcome) :
  stack_inv trans ->
  bbs_io_transform_setup reg trans type direction rfd wfd arg = Some o ->
  stack_inv (so_trans o).
Proof.
  intros [Hwf Hcount] H.
  destruct (setup_stack_cases _ _ _ _ _ _ _ _ H) as [->|[t [d [Hs [Hty Hact]]]]];
    [now split|].
  split; [now apply (store_wf _ _ _ _ Hs)|].
  intros type'. rewrite (store_count _ _ _ _ type' Hs).
  unfold active_slot at 1. simpl. rewrite Hty.
  destruct (type_eqb type type') eqn:E.
  - apply type_eqb_eq in E. subst type'.
    rewrite (active_spec trans type Hwf) in Hact. inversion Hact as [Hex].
    apply existsb_count in Hex. rewrite Hex.
    destruct (has_data {| transformer := Some t; data := d |}); simpl; lia.
  - rewrite andb_false_r. specialize (Hcount type'). lia.
Qed.

(** The teardown on a well-formed stack: every slot with data is cleared,
    and the calls made are those of the slots with data, in order. *)
Lemma teardown_spec (trans : bbs_io_transformations) :
  stack_wf trans ->
  bbs_io_teardown_all_transformers trans
  = Some (map torn_down trans, flat_map teardown_calls (filter has_data trans)).
Proof.
  induction trans as [|tran rest IH]; intros Hwf; simpl; [reflexivity|].
  inversion Hwf as [|? ? Hs Hr]. subst. rewrite (IH Hr).
  assert (torn_down tran
          = if non_null (data tran) then {| transformer := None; data := NULL |}
            else tran) as -> by reflexivity.
  unfold has_data.
  destruct (non_null (data tran)) eqn:E; [|reflexivity].
  apply non_null_true in E. specialize (Hs E).
  unfold teardown_transformation, teardown_calls. simpl.
  destruct (transformer tran); [reflexivity|contradiction].
Qed.

Lemma torn_down_no_data (tran : bbs_io_transformation) :
  has_data (torn_down tran) = false.
Proof.
  unfold torn_down. destruct (has_data tran) eqn:E; [reflexivity|exact E].
Qed.

Lemma torn_down_wf (trans : bbs_io_transformations) :
  stack_wf (map torn_down trans).
Proof.
  unfold stack_wf. apply Forall_forall. intros x Hx.
  apply in_map_iff in Hx. destruct Hx as [tran [<- _]].
  pose proof (torn_down_no_data tran) as H. unfold has_data in H.
  unfold slot_wf. intros Hd. apply non_null_true in Hd. congruence.
Qed.

Lemma filter_torn_down (trans : bbs_io_transformations) :
  filter has_data (map torn_down trans) = [].
Proof.
  induction trans as [|tran rest IH]; simpl; [reflexivity|].
  now rewrite torn_down_no_data.
Qed.

Lemma count_active_torn_down (type : bbs_io_transform_type)
    (trans : bbs_io_transformations) :
  count_active type (map torn_down trans) = 0%nat.
Proof.
  unfold count_active. induction trans as [|tran rest IH]; simpl; [reflexivity|].
  unfold active_slot at 1. now rewrite torn_down_no_data.
Qed.

Lemma stack_inv_reachable (trans : bbs_io_transformations) :
  stack_reachable trans -> stack_inv trans.
Proof.
  induction 1 as [n|trans reg type direction rfd wfd arg o _ IH Hs
                  |trans trans' ev _ IH Ht].
  - apply stack_inv_fresh.
  - now apply (stack_inv_setup _ _ _ _ _ _ _ _ IH Hs).
  - destruct IH as [Hwf _]. rewrite (teardown_spec trans Hwf) in Ht.
    inversion Ht. subst. split; [apply torn_down_wf|].
    intros type. rewrite count_active_torn_down. lia.
Qed.

End StackInvariant.

(** C2: on every stack on which a transformation of a kind is active, the
    setup of that kind returns -1, reports the duplicate, calls no hook and
    leaves every slot and both descriptors as they were; and every stack a
    connection can produce from a fresh one by setups and teardowns has at
    most one active slot per kind (and no call on it crashes). *)
Theorem one_active_slot_per_kind :
  (forall reg trans type direction rfd wfd arg,
      bbs_io_transform_active trans type = Some true ->
      bbs_io_transform_setup reg trans type direction rfd wfd arg
      = Some {| so_res := -1; so_trans := trans; so_rfd := rfd; so_wfd := wfd;
                so_events := [EvLog LOG_ERROR (TransformationAlreadyActive type)] |}) /\
  (forall trans,
      stack_reachable trans ->
      (forall type, (count_active type trans <= 1)%nat) /\
      (forall reg type direction rfd wfd arg,
          exists o, bbs_io_transform_setup reg trans type direction rfd wfd arg = Some o)).
Proof.
  split.
  - intros reg trans type direction rfd wfd arg H.
    apply setup_refused. now apply possible_already_active.
  - intros trans Hr. destruct (stack_inv_reachable trans Hr) as [Hwf Hc].
    split; [assumption|]. intros reg type direction rfd wfd arg.
    now apply setup_defined.
Qed.

(** C2 on the stack a fresh two-slot stack becomes once TLS is set up: a
    second setup of TLS is refused and the stack is unchanged, and the stack
    has one active TLS slot. *)
Lemma one_active_slot_per_kind_witness :
  let tls := sample_transformer "TLS" TRANSFORM_TLS_ENCRYPTION 3 (hook_ok 500) 1 in
  let trans := [{| transformer := Some tls; data := 500 |}; empty_slot] in
  bbs_io_transform_setup [tls] trans TRANSFORM_TLS_ENCRYPTION 1 4 5 0
  = Some {| so_res := -1; so_trans := trans; so_rfd := 4; so_wfd := 5;
            so_events :=
              [EvLog LOG_ERROR (TransformationAlreadyActive TRANSFORM_TLS_ENCRYPTION)] |} /\
  count_active TRANSFORM_TLS_ENCRYPTION trans = 1%nat /\
  (count_active TRANSFORM_TLS_ENCRYPTION trans <= 1)%nat.
Proof.
  intros tls trans. split; [|split].
  - apply (proj1 one_active_slot_per_kind [tls] trans TRANSFORM_TLS_ENCRYPTION 1 4 5 0).
    reflexivity.
  - reflexivity.
  - apply (proj1 (proj2 one_active_slot_per_kind trans
                    (reach_setup (fresh_stack 2) [tls] TRANSFORM_TLS_ENCRYPTION 1 4 5 0
                       {| so_res := 0; so_trans := trans; so_rfd := 4; so_wfd := 5;
                          so_events := [EvModuleRef 1] |}
                       (reach_fresh 2) eq_refl))).
Defined.

(** ** Teardown *)

Section TeardownFacts.

(** The calls made for the slots with data of a well-formed stack: one
    cleanup and one unref per slot, the unref on the slot's module. *)
Lemma teardown_calls_count (l : bbs_io_transformations) (m : ptr) :
  stack_wf l ->
  Forall (fun tran => has_data tran = true) l ->
  List.length (filter is_cleanup (flat_map teardown_calls l)) = List.length l /\
  List.length (filter is_module_unref (flat_map teardown_calls l)) = List.length l /\
  List.length (filter (is_unref_of m) (flat_map teardown_calls l))
  = List.length (filter (owned_by m) l) /\
  filter is_module_ref (flat_map teardown_calls l) = [].
Proof.
  induction l as [|tran rest IH]; intros Hwf Hd; simpl; [auto|].
  inversion Hwf as [|? ? Hs Hr]. inversion Hd as [|? ? Ht Hdr]. subst.
  destruct (IH Hr Hdr) as [H1 [H2 [H3 H4]]].
  unfold has_data in Ht. apply non_null_true in Ht. specialize (Hs Ht).
  destruct (transformer tran) as [t|] eqn:Et; [|contradiction].
  assert (teardown_calls tran
          = [EvCleanup (t_cleanup t) (t_name t) (data tran);
             EvModuleUnref (t_module t)]) as ->
    by (unfold teardown_calls; now rewrite Et).
  assert (owned_by m tran = (t_module t =? m)) as ->
    by (unfold owned_by; now rewrite Et).
  cbn [app filter is_cleanup is_module_unref is_unref_of is_module_ref].
  rewrite H4. destruct (t_module t =? m); cbn [List.length];
    rewrite H1, H2, H3; auto.
Qed.

Lemma stack_wf_filter (f : bbs_io_transformation -> bool)
    (trans : bbs_io_transformations) :
  stack_wf trans -> stack_wf (filter f trans).
Proof.
  unfold stack_wf. rewrite !Forall_forall. intros H x Hx.
  apply filter_In in Hx. now apply H.
Qed.

Lemma filter_has_data_all (trans : bbs_io_transformations) :
  Forall (fun tran => has_data tran = true) (filter has_data trans).
Proof.
  apply Forall_forall. intros x Hx. now apply filter_In in Hx.
Qed.

Lemma torn_down_idem (trans : bbs_io_transformations) :
  map torn_down (map torn_down trans) = map torn_down trans.
Proof.
  rewrite map_map. apply map_ext. intros tran.
  unfold torn_down at 1. now rewrite torn_down_no_data.
Qed.

(** The teardown takes out of use exactly the slots that had data. *)
Lemma torn_down_in_use (trans : bbs_io_transformations) :
  stack_wf trans ->
  (List.length (filter in_use (map torn_down trans)) +
   List.length (filter has_data trans)
   = List.length (filter in_use trans))%nat.
Proof.
  induction trans as [|tran rest IH]; intros Hwf; simpl; [reflexivity|].
  inversion Hwf as [|? ? Hs Hr]. subst. specialize (IH Hr).
  unfold torn_down at 1. destruct (has_data tran) eqn:E.
  - assert (data tran <> NULL) as Hd by (now apply non_null_true).
    specialize (Hs Hd).
    assert (in_use tran = true) as ->
      by (unfold in_use; destruct (transformer tran); [reflexivity|contradiction]).
    change (in_use {| transformer := None; data := NULL |}) with false.
    cbn iota. simpl. lia.
  - destruct (in_use tran); simpl; lia.
Qed.

End TeardownFacts.

(** C6: on every well-formed stack, with K the number of slots whose data
    is set, the teardown calls the cleanup hook K times, once for each such
    slot in order, and unrefs the owning module once for each (K unrefs in
    all, and for each module as many as it owns of those slots), takes no
    reference, and leaves the stack in which each of those K slots has both
    its transformer and its data set to NULL and every other slot is as it
    was: K slots fewer hold a transformer, and none has data; a second
    teardown on the stack it left makes no call and leaves every slot as it
    is. *)
Theorem teardown_all_cleans_every_active_slot (trans : bbs_io_transformations) :
  stack_wf trans ->
  exists trans' ev,
    bbs_io_teardown_all_transformers trans = Some (trans', ev) /\
    trans' = map torn_down trans /\
    (List.length (filter in_use trans') + List.length (filter has_data trans)
     = List.length (filter in_use trans))%nat /\
    ev = flat_map teardown_calls (filter has_data trans) /\
    List.length (filter is_cleanup ev) = List.length (filter has_data trans) /\
    List.length (filter is_module_unref ev) = List.length (filter has_data trans) /\
    (forall m, List.length (filter (is_unref_of m) ev)
               = List.length (filter (owned_by m) (filter has_data trans))) /\
    filter is_module_ref ev = [] /\
    filter has_data trans' = [] /\
    (forall type, bbs_io_transform_active trans' type = Some false) /\
    bbs_io_teardown_all_transformers trans' = Some (trans', []).
Proof.
  intros Hwf. exists (map torn_down trans).
  exists (flat_map teardown_calls (filter has_data trans)).
  pose proof (stack_wf_filter has_data trans Hwf) as Hwf'.
  pose proof (filter_has_data_all trans) as Hall.
  split; [now apply teardown_spec|]. split; [reflexivity|].
  split; [now apply torn_down_in_use|]. split; [reflexivity|].
  split; [apply (teardown_calls_count _ 0 Hwf' Hall)|].
  split; [apply (teardown_calls_count _ 0 Hwf' Hall)|].
  split; [intros m; apply (teardown_calls_count _ m Hwf' Hall)|].
  split; [apply (teardown_calls_count _ 0 Hwf' Hall)|].
  split; [apply filter_torn_down|].
  split.
  - intros type. rewrite (active_spec _ type (torn_down_wf trans)). f_equal.
    apply existsb_count. apply count_active_torn_down.
  - rewrite (teardown_spec _ (torn_down_wf trans)).
    now rewrite torn_down_idem, filter_torn_down.
Qed.

(** C6 on a three-slot stack with TLS and deflate set up (K = 2): two
    cleanups, two unrefs, three empty slots afterwards, and a second
    teardown that does nothing. *)
Lemma teardown_all_cleans_every_active_slot_witness :
  let tls := sample_transformer "TLS" TRANSFORM_TLS_ENCRYPTION 3 (hook_ok 500) 1 in
  let deflate :=
    sample_transformer "DEFLATE" TRANSFORM_DEFLATE_COMPRESSION 3 (hook_ok 600) 2 in
  let trans := [{| transformer := Some tls; data := 500 |};
                {| transformer := Some deflate; data := 600 |}; empty_slot] in
  exists trans' ev,
    bbs_io_teardown_all_transformers trans = Some (trans', ev) /\
    trans' = [empty_slot; empty_slot; empty_slot] /\
    (List.length (filter in_use trans') + 2 = 2)%nat /\
    ev = [EvCleanup 41 "TLS" 500; EvModuleUnref 1;
          EvCleanup 42 "DEFLATE" 600; EvModuleUnref 2] /\
    List.length (filter is_cleanup ev) = 2%nat /\
    List.length (filter is_module_unref ev) = 2%nat /\
    (forall m, List.length (filter (is_unref_of m) ev)
               = List.length (filter (owned_by m) (filter has_data trans))) /\
    filter is_module_ref ev = [] /\
    filter has_data trans' = [] /\
    (forall type, bbs_io_transform_active trans' type = Some false) /\
    bbs_io_teardown_all_transformers trans' = Some (trans', []).
Proof.
  intros tls deflate trans.
  apply (teardown_all_cleans_every_active_slot trans). stack_wf_by_cases.
Defined.

(** ** The composite setup: results and reference counting *)

(** C5, as stated, fails: a setup hook that declines with status 1 makes
    the setup return 1, the value of the storage failure, although nothing
    was stored or cleaned up; one that declines with 5 makes it return 5.  A
    failure other than the storage failure is then not negative. *)
Lemma setup_passes_hook_status_through :
  let declining := sample_transformer "TLS" TRANSFORM_TLS_ENCRYPTION 3 (hook_status 1) 1 in
  let declining5 := sample_transformer "TLS" TRANSFORM_TLS_ENCRYPTION 3 (hook_status 5) 1 in
  bbs_io_transform_setup [declining] (fresh_stack 2) TRANSFORM_TLS_ENCRYPTION 1 4 5 0
  = Some {| so_res := 1; so_trans := fresh_stack 2; so_rfd := 4; so_wfd := 5;
            so_events := [] |} /\
  bbs_io_transform_setup [declining5] (fresh_stack 2) TRANSFORM_TLS_ENCRYPTION 1 4 5 0
  = Some {| so_res := 5; so_trans := fresh_stack 2; so_rfd := 4; so_wfd := 5;
            so_events := [] |}.
Proof.
  split; reflexivity.
Qed.

(** C5, amended: in the composite setup, whatever happens to the stack while
    the hook runs: when the hook returns 0 and the store finds no slot, the
    cleanup hook is called at once on the data the hook produced, no module
    reference is taken and the call returns 1; when the store succeeds, the
    module reference is taken exactly once and the call returns 0; when the
    hook returns a status other than 0, that status is returned as it is,
    with nothing stored and no cleanup or reference call; and every failure
    found before the hook is called (request not possible, no free slot, no
    suitable transformer) returns -1 with the stack untouched and no cleanup
    or reference call. *)
Theorem setup_results_and_module_reference
    (during_hook : bbs_io_transformations -> bbs_io_transformations)
    (reg : list bbs_io_transformer) (trans : bbs_io_transformations)
    (type : bbs_io_transform_type) (direction : bbs_io_transform_dir)
    (rfd wfd : Z) (arg : ptr) :
  (forall t,
      __bbs_io_transform_possible trans type true = Some (true, []) ->
      io_transform_slots_free trans = true ->
      find (suitable type direction) reg = Some t ->
      let r := t_setup t rfd wfd direction arg in
      (sr_res r = 0 ->
       io_transform_store (during_hook trans) t (sr_data r) = None ->
       io_transform_setup_with during_hook reg trans type direction rfd wfd arg
       = Some {| so_res := 1; so_trans := during_hook trans;
                 so_rfd := sr_rfd r; so_wfd := sr_wfd r;
                 so_events := [EvLog LOG_ERROR FailedToStore;
                               EvCleanup (t_cleanup t) (t_name t) (sr_data r)] |}) /\
      (forall trans',
       sr_res r = 0 ->
       io_transform_store (during_hook trans) t (sr_data r) = Some trans' ->
       io_transform_setup_with during_hook reg trans type direction rfd wfd arg
       = Some {| so_res := 0; so_trans := trans';
                 so_rfd := sr_rfd r; so_wfd := sr_wfd r;
                 so_events := [EvModuleRef (t_module t)] |}) /\
      (sr_res r <> 0 ->
       io_transform_setup_with during_hook reg trans type direction rfd wfd arg
       = Some {| so_res := sr_res r; so_trans := during_hook trans;
                 so_rfd := sr_rfd r; so_wfd := sr_wfd r; so_events := [] |})) /\
  (forall o,
      io_transform_setup_with during_hook reg trans type direction rfd wfd arg = Some o ->
      (exists ev, __bbs_io_transform_possible trans type true = Some (false, ev)) \/
      io_transform_slots_free trans = false \/
      find (suitable type direction) reg = None ->
      so_res o = -1 /\ so_trans o = trans /\ so_rfd o = rfd /\ so_wfd o = wfd /\
      filter is_cleanup (so_events o) = [] /\
      filter is_module_ref (so_events o) = []).
Proof.
  split.
  - intros t Hp Hf Ht r.
    rewrite (setup_reaches_hook during_hook reg trans type direction rfd wfd arg t
               Hp Hf Ht).
    cbn zeta. fold r. unfold store_after_setup. split; [|split].
    + intros Hr Hs. rewrite Hr, Hs. reflexivity.
    + intros trans' Hr Hs. rewrite Hr, Hs. reflexivity.
    + intros Hr. apply Z.eqb_neq in Hr. rewrite Hr. reflexivity.
  - intros o Ho Hfail. unfold io_transform_setup_with in Ho.
    destruct (__bbs_io_transform_possible trans type true) as [[[|] ev]|] eqn:Ep;
      [| |discriminate].
    + destruct (possible_true_inv _ _ _ _ Ep) as [-> _].
      destruct (io_transform_slots_free trans) eqn:Ef; simpl in Ho.
      * destruct (find (suitable type direction) reg) as [t|] eqn:Et.
        -- destruct Hfail as [[ev H]|[H|H]]; discriminate.
        -- inversion Ho. subst. simpl. auto 10.
      * inversion Ho. subst. simpl. auto 10.
    + inversion Ho. subst. simpl.
      unfold __bbs_io_transform_possible in Ep.
      destruct (bbs_io_transform_active trans type) as [[|]|]; try discriminate.
      * inversion Ep. subst. simpl. auto 10.
      * destruct (type_eqb type TRANSFORM_TLS_ENCRYPTION); [|discriminate].
        destruct (bbs_io_transform_active trans TRANSFORM_DEFLATE_COMPRESSION)
          as [[|]|]; try discriminate.
        inversion Ep. subst. simpl. auto 10.
Qed.

(** C5 on a one-slot stack that another thread fills while the TLS hook
    runs: the hook's data 500 is cleaned up, no reference is taken and the
    call returns 1; with nobody else writing, the reference is taken and the
    call returns 0. *)
Lemma setup_results_and_module_reference_witness :
  let tls := sample_transformer "TLS" TRANSFORM_TLS_ENCRYPTION 3 (hook_ok 500) 1 in
  let logger := sample_transformer "LOG" TRANSFORM_SESSION_LOGGING 3 (hook_ok 700) 3 in
  let taken := [{| transformer := Some logger; data := 700 |}] in
  io_transform_setup_with (fun _ => taken) [tls] (fresh_stack 1)
    TRANSFORM_TLS_ENCRYPTION 1 4 5 0
  = Some {| so_res := 1; so_trans := taken; so_rfd := 4; so_wfd := 5;
            so_events := [EvLog LOG_ERROR FailedToStore; EvCleanup 41 "TLS" 500] |} /\
  io_transform_setup_with (fun trans => trans) [tls] (fresh_stack 1)
    TRANSFORM_TLS_ENCRYPTION 1 4 5 0
  = Some {| so_res := 0; so_trans := [{| transformer := Some tls; data := 500 |}];
            so_rfd := 4; so_wfd := 5; so_events := [EvModuleRef 1] |}.
Proof.
  intros tls logger taken. split.
  - apply (proj1 (proj1 (setup_results_and_module_reference (fun _ => taken) [tls]
                           (fresh_stack 1) TRANSFORM_TLS_ENCRYPTION 1 4 5 0)
                    tls eq_refl eq_refl eq_refl)); reflexivity.
  - apply (proj1 (proj2 (proj1 (setup_results_and_module_reference (fun trans => trans)
                                  [tls] (fresh_stack 1) TRANSFORM_TLS_ENCRYPTION 1 4 5 0)
                           tls eq_refl eq_refl eq_refl))); reflexivity.
Defined.

(** ** Slots in use without private data *)

Section NullData.

Lemma slots_free_in_use (trans : bbs_io_transformations) :
  io_transform_slots_free trans = negb (forallb in_use trans).
Proof.
  induction trans as [|tran rest IH]; simpl; [reflexivity|].
  unfold in_use at 1. destruct (transformer tran); simpl; auto.
Qed.

(** Nothing active of a kind: the query finds nothing. *)
Lemma query_inactive (trans : bbs_io_transformations) (type : bbs_io_transform_type)
    (query : Z) (qdata : ptr) :
  bbs_io_transform_active trans type = Some false ->
  bbs_io_transform_query trans type query qdata = Some (-1).
Proof.
  induction trans as [|tran rest IH]; simpl; [reflexivity|].
  destruct (non_null (data tran)); [|exact IH].
  destruct (transformer tran) as [t|]; [|discriminate].
  destruct (type_eqb (t_type t) type); [discriminate|exact IH].
Qed.

Lemma wf_free_slot_no_data (tran : bbs_io_transformation) :
  slot_wf tran -> transformer tran = None -> has_data tran = false.
Proof.
  unfold slot_wf, has_data. intros Hwf Hn.
  destruct (non_null (data tran)) eqn:E; [|reflexivity].
  apply non_null_true in E. apply Hwf in E. contradiction.
Qed.

End NullData.

(** C10: the scans of active and teardown look at a slot only when its data
    pointer is set, while the capacity check asks for a slot whose
    transformer pointer is NULL.  So when a setup succeeds with a hook that
    returns 0 and leaves the private data NULL, the stack has one more slot
    in use, the module reference is taken, yet the kind is still reported
    inactive, a query for it answers -1, the teardown makes exactly the calls
    it would have made before this setup (none for the new slot) and leaves
    the slot in use. *)
Theorem null_data_slot_is_in_use_but_inactive
    (reg : list bbs_io_transformer) (trans : bbs_io_transformations)
    (type : bbs_io_transform_type) (direction : bbs_io_transform_dir)
    (rfd wfd : Z) (arg : ptr) (t : bbs_io_transformer) :
  stack_wf trans ->
  __bbs_io_transform_possible trans type true = Some (true, []) ->
  io_transform_slots_free trans = true ->
  find (suitable type direction) reg = Some t ->
  sr_res (t_setup t rfd wfd direction arg) = 0 ->
  sr_data (t_setup t rfd wfd direction arg) = NULL ->
  bbs_io_transform_active trans type = Some (existsb (active_slot type) trans) /\
  io_transform_slots_free trans = negb (forallb in_use trans) /\
  exists trans' trans'',
    bbs_io_transform_setup reg trans type direction rfd wfd arg
    = Some {| so_res := 0; so_trans := trans';
              so_rfd := sr_rfd (t_setup t rfd wfd direction arg);
              so_wfd := sr_wfd (t_setup t rfd wfd direction arg);
              so_events := [EvModuleRef (t_module t)] |} /\
    List.length (filter in_use trans') = S (List.length (filter in_use trans)) /\
    In {| transformer := Some t; data := NULL |} trans' /\
    bbs_io_transform_active trans' type = Some false /\
    (forall query qdata, bbs_io_transform_query trans' type query qdata = Some (-1)) /\
    bbs_io_teardown_all_transformers trans'
    = Some (trans'', flat_map teardown_calls (filter has_data trans)) /\
    In {| transformer := Some t; data := NULL |} trans'' /\
    List.length (filter in_use trans'')
    = S (List.length (filter in_use (map torn_down trans))).
Proof.
  intros Hwf Hp Hf Ht Hr Hd.
  split; [now apply active_spec|]. split; [apply slots_free_in_use|].
  destruct (proj1 (store_free trans t NULL) Hf) as [trans' Hs].
  exists trans', (map torn_down trans').
  pose proof (store_wf _ _ _ _ Hs Hwf) as Hwf'.
  destruct (possible_true_inv _ _ _ _ Hp) as [_ Hact].
  assert (bbs_io_transform_active trans' type = Some false) as Hact'.
  { rewrite (active_spec trans' type Hwf'). f_equal. apply existsb_count.
    rewrite (store_count _ _ _ _ type Hs).
    rewrite (active_spec trans type Hwf) in Hact. inversion Hact as [Hex].
    apply existsb_count in Hex. rewrite Hex. reflexivity. }
  destruct (store_shape _ _ _ _ Hs) as [before [tran [after [Htr [Hn [_ Htr']]]]]].
  assert (has_data tran = false) as Hnd.
  { apply wf_free_slot_no_data; [|assumption].
    unfold stack_wf in Hwf. rewrite Forall_forall in Hwf. apply Hwf.
    rewrite Htr. apply in_or_app. right. now left. }
  assert (in_use tran = false) as Hiu by (unfold in_use; now rewrite Hn).
  assert (torn_down tran = tran) as Htd by (unfold torn_down; now rewrite Hnd).
  split; [|split; [|split; [|split; [|split; [|split; [|split]]]]]].
  - unfold bbs_io_transform_setup.
    rewrite (setup_reaches_hook _ reg trans type direction rfd wfd arg t Hp Hf Ht).
    cbn zeta. unfold store_after_setup. rewrite Hr, Hd. cbn [Z.eqb].
    rewrite Hs. reflexivity.
  - rewrite Htr, Htr', !filter_app, !length_app. simpl.
    rewrite Hiu. simpl. lia.
  - rewrite Htr'. apply in_or_app. right. now left.
  - exact Hact'.
  - intros query qdata. now apply query_inactive.
  - rewrite (teardown_spec trans' Hwf'). do 2 f_equal.
    rewrite Htr, Htr', !filter_app. simpl. now rewrite Hnd.
  - rewrite Htr', map_app. apply in_or_app. right. now left.
  - rewrite Htr, Htr', !map_app, !filter_app, !length_app. simpl.
    rewrite Htd, Hiu. simpl. lia.
Qed.

(** C10 on a fresh one-slot stack and a logging transformer whose hook
    returns 0 without private data: the only slot is taken, logging is
    reported inactive, and the teardown calls nothing and frees nothing. *)
Lemma null_data_slot_is_in_use_but_inactive_witness :
  let logger := sample_transformer "LOG" TRANSFORM_SESSION_LOGGING 3 (hook_ok NULL) 3 in
  let taken := [{| transformer := Some logger; data := NULL |}] in
  bbs_io_transform_setup [logger] (fresh_stack 1) TRANSFORM_SESSION_LOGGING 1 4 5 0
  = Some {| so_res := 0; so_trans := taken; so_rfd := 4; so_wfd := 5;
            so_events := [EvModuleRef 3] |} /\
  io_transform_slots_free taken = false /\
  bbs_io_transform_active taken TRANSFORM_SESSION_LOGGING = Some false /\
  bbs_io_teardown_all_transformers taken = Some (taken, []) /\
  exists trans' trans'',
    bbs_io_transform_setup [logger] (fresh_stack 1) TRANSFORM_SESSION_LOGGING 1 4 5 0
    = Some {| so_res := 0; so_trans := trans'; so_rfd := 4; so_wfd := 5;
              so_events := [EvModuleRef 3] |} /\
    List.length (filter in_use trans') = 1%nat /\
    In {| transformer := Some logger; data := NULL |} trans' /\
    bbs_io_transform_active trans' TRANSFORM_SESSION_LOGGING = Some false /\
    (forall query qdata,
        bbs_io_transform_query trans' TRANSFORM_SESSION_LOGGING query qdata = Some (-1)) /\
    bbs_io_teardown_all_transformers trans' = Some (trans'', []) /\
    In {| transformer := Some logger; data := NULL |} trans'' /\
    List.length (filter in_use trans'') = 1%nat.
Proof.
  intros logger taken.
  split; [reflexivity|]. split; [reflexivity|]. split; [reflexivity|].
  split; [reflexivity|].
  apply (proj2 (proj2 (null_data_slot_is_in_use_but_inactive [logger] (fresh_stack 1)
                         TRANSFORM_SESSION_LOGGING 1 4 5 0 logger
                         (stack_wf_fresh 1) eq_refl eq_refl eq_refl eq_refl eq_refl))).
Defined.

(** ** Delimited reader: what the caller can tell from the return value *)

(** C9, as stated, fails: a wait that times out (poll returns 0) and an end
    of stream (read returns 0) are different outcomes, and bbs_readline
    returns -1 for both. *)
Lemma closed_and_timed_out_return_alike :
  Readline.classify 0 0 0 = Readline.TimedOut /\
  Readline.classify 1 0 0 = Readline.Closed /\
  Readline.TimedOut <> Readline.Closed /\
  Readline.bbs_readline 0 0 0 = -1 /\
  Readline.bbs_readline 1 0 0 = -1.
Proof.
  repeat split. discriminate.
Qed.

(** C9, amended: the return value of a delimiter-mode read tells apart three
    classes: -2 exactly for a transport error, -1 exactly for a timed-out
    wait or an end of stream (the two are not told apart), and a value of 0
    or more exactly for a record, whose length it is. *)
Theorem readline_return_classes (poll_res read_res record_len : Z) :
  0 <= record_len ->
  let o := Readline.classify poll_res read_res record_len in
  Readline.bbs_readline poll_res read_res record_len = Readline.retval o /\
  (Readline.retval o = -2 <-> o = Readline.IOError) /\
  (Readline.retval o = -1 <-> o = Readline.Closed \/ o = Readline.TimedOut) /\
  (0 <= Readline.retval o <-> o = Readline.Record_read record_len) /\
  (o = Readline.IOError <-> poll_res < 0 \/ (0 < poll_res /\ read_res < 0)) /\
  (o = Readline.TimedOut <-> poll_res = 0) /\
  (o = Readline.Closed <-> 0 < poll_res /\ read_res = 0).
Proof.
  intros Hn o. subst o. unfold Readline.bbs_readline, Readline.classify.
  destruct (Z.ltb_spec poll_res 0) as [Hp|Hp];
    [|destruct (Z.eqb_spec poll_res 0) as [Hp0|Hp0];
      [|destruct (Z.ltb_spec read_res 0) as [Hr|Hr];
        [|destruct (Z.eqb_spec read_res 0) as [Hr0|Hr0]]]];
    cbn [Readline.retval];
    repeat split; intros; try discriminate; try lia; auto;
    try (match goal with H : _ \/ _ |- _ => destruct H end; try discriminate; lia).
Qed.

(** C9 on a wait that times out, an end of stream and a failed read. *)
Lemma readline_return_classes_witness :
  (Readline.bbs_readline 0 0 0 = -1 /\
   Readline.classify 0 0 0 = Readline.TimedOut) /\
  (Readline.bbs_readline 1 0 0 = -1 /\
   Readline.classify 1 0 0 = Readline.Closed) /\
  (Readline.bbs_readline 1 (-1) 0 = -2 /\
   Readline.classify 1 (-1) 0 = Readline.IOError) /\
  Readline.bbs_readline 1 13 11 = 11.
Proof.
  assert (0 <= 0) as H0 by lia.
  pose proof (readline_return_classes 0 0 0 H0) as Htimeout.
  pose proof (readline_return_classes 1 0 0 H0) as Heof.
  pose proof (readline_return_classes 1 (-1) 0 H0) as Herr.
  cbv zeta in Htimeout, Heof, Herr.
  destruct Htimeout as [_ [_ [_ [_ [_ [Htimeout _]]]]]].
  destruct Heof as [_ [_ [_ [_ [_ [_ Heof]]]]]].
  destruct Herr as [_ [_ [_ [_ [Herr _]]]]].
  split; [split; [reflexivity|]|split; [split; [reflexivity|]|split;
    [split; [reflexivity|]|reflexivity]]].
  - apply Htimeout. reflexivity.
  - apply Heof. split; [lia|reflexivity].
  - apply Herr. right. lia.
Defined.

(** * Further properties of io.c *)

(** ** Unregistering a transformer *)

Section UnregisterFacts.

Lemma strcmp_zero_strcasecmp (a b : string) :
  strcmp a b = 0 -> strcasecmp a b = 0.
Proof.
  revert b. induction a as [|c r IH]; intros [|d r']; simpl; auto.
  - intros H. assert (uchar d = 0) as -> by lia. reflexivity.
  - intros H. rewrite H. reflexivity.
  - destruct (uchar c =? uchar d) eqn:E.
    + apply Z.eqb_eq in E. rewrite E, Z.eqb_refl.
      destruct (uchar d =? 0); auto.
    + apply Z.eqb_neq in E. intros H. lia.
Qed.

Lemma same_name_nocase_of_same_name (name : string) (t : bbs_io_transformer) :
  same_name name t = true -> same_name_nocase name t = true.
Proof.
  unfold same_name, same_name_nocase. rewrite !Z.eqb_eq.
  apply strcmp_zero_strcasecmp.
Qed.

Lemma find_split {A : Type} (f : A -> bool) (before after : list A) (x : A) :
  (forall y, In y before -> f y = false) -> f x = true ->
  find f (before ++ x :: after) = Some x /\
  remove_first f (before ++ x :: after) = before ++ after.
Proof.
  induction before as [|y r IH]; simpl; intros Hb Hx.
  - now rewrite Hx.
  - rewrite (Hb y (or_introl eq_refl)).
    destruct IH as [H1 H2]; auto. now rewrite H1, H2.
Qed.

Lemma NoDup_map_remove_first {A B : Type} (g : A -> B) (f : A -> bool) (l : list A) :
  NoDup (map g l) -> NoDup (map g (remove_first f l)).
Proof.
  induction l as [|x r IH]; simpl; [auto|].
  intros Hnd. inversion Hnd as [|? ? Hni Hr]. subst.
  destruct (f x); [assumption|]. simpl. constructor; [|auto].
  intros Hin. apply Hni. apply in_map_iff in Hin. destruct Hin as [y [Hy Hin]].
  apply in_map_iff. exists y. split; [assumption|].
  now apply remove_first_in in Hin.
Qed.

(** With pairwise distinct images, unlinking the first match leaves no match. *)
Lemma remove_first_no_match {A B : Type} (g : A -> B) (f : A -> bool) (l : list A) :
  (forall x y, In x l -> In y l -> f x = true -> f y = true -> g x = g y) ->
  NoDup (map g l) ->
  forall y, In y (remove_first f l) -> f y = false.
Proof.
  induction l as [|x r IH]; simpl; [tauto|].
  intros Hfg Hnd y Hy. inversion Hnd as [|? ? Hni Hr]. subst.
  destruct (f x) eqn:Ex.
  - destruct (f y) eqn:Ey; [|reflexivity].
    exfalso. apply Hni. rewrite (Hfg x y); auto. now apply in_map.
  - destruct Hy as [<-|Hy]; [assumption|]. apply IH; auto.
Qed.

End UnregisterFacts.

(** X1: bbs_io_transformer_unregister returns -1 and leaves the registry as
    it was when no registered name matches under strcasecmp; otherwise it
    returns 0 and unlinks exactly the first matching entry, keeping every
    other entry and their order. *)
Theorem unregister_unlinks_first_match (reg : list bbs_io_transformer)
    (name : string) :
  ((forall t, In t reg -> strcasecmp name (t_name t) <> 0) ->
   bbs_io_transformer_unregister reg name = (-1, reg)) /\
  (forall before t after,
      reg = before ++ t :: after ->
      (forall u, In u before -> strcasecmp name (t_name u) <> 0) ->
      strcasecmp name (t_name t) = 0 ->
      bbs_io_transformer_unregister reg name = (0, before ++ after)).
Proof.
  unfold bbs_io_transformer_unregister. split.
  - intros H.
    assert (find (same_name_nocase name) reg = None) as ->; [|reflexivity].
    apply find_none_iff. intros t Ht. unfold same_name_nocase.
    apply Z.eqb_neq. now apply H.
  - intros before t after -> Hb Ht.
    destruct (find_split (same_name_nocase name) before after t) as [H1 H2].
    + intros u Hu. unfold same_name_nocase. apply Z.eqb_neq. now apply Hb.
    + unfold same_name_nocase. now apply Z.eqb_eq.
    + now rewrite H1, H2.
Qed.

(** X1 on a registry holding "TLS", "deflate" and "LOG": unregistering
    "DEFLATE" unlinks the middle entry, unregistering "gzip" finds nothing. *)
Lemma unregister_unlinks_first_match_witness :
  let tls := sample_transformer "TLS" TRANSFORM_TLS_ENCRYPTION 3 (hook_ok 500) 1 in
  let deflate :=
    sample_transformer "deflate" TRANSFORM_DEFLATE_COMPRESSION 3 (hook_ok 600) 2 in
  let logger := sample_transformer "LOG" TRANSFORM_SESSION_LOGGING 3 (hook_ok 700) 3 in
  bbs_io_transformer_unregister [tls; deflate; logger] "gzip"
  = (-1, [tls; deflate; logger]) /\
  bbs_io_transformer_unregister [tls; deflate; logger] "DEFLATE"
  = (0, [tls; logger]).
Proof.
  intros tls deflate logger. split.
  - apply (proj1 (unregister_unlinks_first_match [tls; deflate; logger] "gzip")).
    intros t [<-|[<-|[<-|[]]]]; discriminate.
  - apply (proj2 (unregister_unlinks_first_match [tls; deflate; logger] "DEFLATE")
             [tls] deflate [logger] eq_refl).
    + intros u [<-|[]]. discriminate.
    + reflexivity.
Defined.

(** X2: after a registration that returned 0, unregistering the same name
    returns 0 and gives back the registry the registration started from. *)
Theorem register_then_unregister_restores (reg reg' : list bbs_io_transformer)
    (alloc_ok : bool) (name : string) setup query cleanup type dir module
    (ev : list event) :
  __bbs_io_transformer_register reg alloc_ok name setup query cleanup type dir module
  = (0, reg', ev) ->
  bbs_io_transformer_unregister reg' name = (0, reg).
Proof.
  unfold __bbs_io_transformer_register.
  destruct (find (same_name_nocase name) reg) eqn:E; [discriminate|].
  destruct alloc_ok; [|discriminate].
  intros H. inversion H. subst. clear H.
  unfold bbs_io_transformer_unregister.
  destruct (find_split (same_name_nocase name) reg []
              {| t_name := name; t_type := type; t_dir := dir; t_setup := setup;
                 t_query := query; t_cleanup := cleanup; t_module := module |})
    as [H1 H2].
  - now apply find_none_iff.
  - unfold same_name_nocase. simpl. rewrite strcasecmp_refl. reflexivity.
  - rewrite H1, H2. now rewrite app_nil_r.
Qed.

(** X2 on a registry holding "TLS": "deflate" is registered and then
    unregistered, which leaves "TLS" alone again. *)
Lemma register_then_unregister_restores_witness :
  let tls := sample_transformer "TLS" TRANSFORM_TLS_ENCRYPTION 3 (hook_ok 500) 1 in
  let deflate :=
    sample_transformer_at "deflate" TRANSFORM_DEFLATE_COMPRESSION 3 (hook_ok 600) 41 2 in
  __bbs_io_transformer_register [tls] true "deflate" (hook_ok 600) None 41
    TRANSFORM_DEFLATE_COMPRESSION 3 2 = (0, [tls; deflate], []) /\
  bbs_io_transformer_unregister [tls; deflate] "deflate" = (0, [tls]).
Proof.
  intros tls deflate. split; [reflexivity|].
  apply (register_then_unregister_restores [tls] [tls; deflate] true "deflate"
           (hook_ok 600) None 41 TRANSFORM_DEFLATE_COMPRESSION 3 2 []).
  reflexivity.
Defined.

(** ** Names stay distinct up to letter case *)

Section DistinctNames.

Lemma registry_step_distinct (reg : list bbs_io_transformer) (op : registry_op) :
  cstring (op_name op) -> names_cstring reg ->
  NoDup (folded_names reg) -> NoDup (folded_names (registry_step reg op)).
Proof.
  intros Hop Hreg Hnd.
  destruct op as [alloc_ok name setup query cleanup type dir module|name];
    simpl in *.
  - unfold __bbs_io_transformer_register.
    destruct (find (same_name_nocase name) reg) eqn:E; simpl; [assumption|].
    destruct alloc_ok; simpl; [|assumption].
    unfold folded_names. rewrite map_app. simpl.
    apply NoDup_snoc; [assumption|].
    intros Hin. apply in_map_iff in Hin. destruct Hin as [t [Hl Hin]].
    pose proof (find_none _ _ E t Hin) as Hf.
    unfold names_cstring in Hreg. rewrite Forall_forall in Hreg.
    assert (same_name_nocase name t = true) as Ht
      by (apply (same_name_nocase_lower name t Hop (Hreg t Hin)); now symmetry).
    rewrite Ht in Hf. discriminate.
  - unfold bbs_io_transformer_unregister.
    destruct (find (same_name_nocase name) reg); simpl; [|assumption].
    now apply NoDup_map_remove_first.
Qed.

Lemma registry_run_distinct (ops : list registry_op) :
  forall reg, Forall (fun op => cstring (op_name op)) ops -> names_cstring reg ->
  NoDup (folded_names reg) -> NoDup (folded_names (registry_run reg ops)).
Proof.
  unfold registry_run.
  induction ops as [|op r IH]; intros reg Hops Hreg Hnd; simpl; [assumption|].
  inversion Hops as [|? ? Hop Hr]. subst.
  apply IH; [assumption| |].
  - now apply (registry_step_names reg op Hop Hreg).
  - now apply registry_step_distinct.
Qed.

End DistinctNames.

(** X3: in every registry reached from the empty one by register and
    unregister calls, no two entries have names that agree up to letter case;
    so once bbs_io_transformer_unregister has been called for a name, no
    entry matching that name is left, and the lookup of the name answers 0. *)
Theorem registered_names_distinct_nocase (ops : list registry_op) (name : string) :
  Forall (fun op => cstring (op_name op)) ops -> cstring name ->
  NoDup (folded_names (registry_run [] ops)) /\
  (forall t, In t (snd (bbs_io_transformer_unregister (registry_run [] ops) name)) ->
             strcasecmp name (t_name t) <> 0) /\
  bbs_io_named_transformer_available
    (snd (bbs_io_transformer_unregister (registry_run [] ops) name)) name = 0.
Proof.
  intros Hops Hn.
  assert (names_cstring []) as H0 by constructor.
  assert (NoDup (folded_names [])) as Hd0 by constructor.
  pose proof (registry_run_distinct ops [] Hops H0 Hd0) as Hnd.
  destruct (registry_run_names ops [] Hops H0) as [_ Hcs].
  set (reg := registry_run [] ops) in *.
  assert (forall t, In t (snd (bbs_io_transformer_unregister reg name)) ->
                    same_name_nocase name t = false) as Hno.
  { unfold bbs_io_transformer_unregister.
    destruct (find (same_name_nocase name) reg) eqn:E; simpl.
    - apply (remove_first_no_match (fun t => lower (t_name t))); [|exact Hnd].
      intros x y Hx Hy Hfx Hfy.
      unfold names_cstring in Hcs. rewrite Forall_forall in Hcs.
      apply (same_name_nocase_lower name x Hn (Hcs x Hx)) in Hfx.
      apply (same_name_nocase_lower name y Hn (Hcs y Hy)) in Hfy.
      congruence.
    - intros t Ht. now apply (find_none _ _ E). }
  split; [exact Hnd|]. split.
  - intros t Ht. apply Hno in Ht. unfold same_name_nocase in Ht.
    now apply Z.eqb_neq.
  - unfold bbs_io_named_transformer_available.
    assert (find (same_name name)
              (snd (bbs_io_transformer_unregister reg name)) = None) as ->;
      [|reflexivity].
    apply find_none_iff. intros t Ht.
    destruct (same_name name t) eqn:E; [|reflexivity].
    apply same_name_nocase_of_same_name in E. rewrite (Hno t Ht) in E. discriminate.
Qed.

(** X3 on the run that registers "TLS" and "deflate" and tries "tls": the
    two names kept differ after folding, and after unregistering "Tls"
    nothing matching it is left. *)
Lemma registered_names_distinct_nocase_witness :
  let ops := [RRegister true "TLS" (hook_ok 500) None 40 TRANSFORM_TLS_ENCRYPTION 3 1;
              RRegister true "deflate" (hook_ok 600) None 41
                TRANSFORM_DEFLATE_COMPRESSION 3 2;
              RRegister true "tls" (hook_ok 700) None 42 TRANSFORM_TLS_ENCRYPTION 3 1] in
  map t_name (registry_run [] ops) = ["TLS"%string; "deflate"%string] /\
  NoDup (folded_names (registry_run [] ops)) /\
  map t_name (snd (bbs_io_transformer_unregister (registry_run [] ops) "Tls"))
  = ["deflate"%string] /\
  bbs_io_named_transformer_available
    (snd (bbs_io_transformer_unregister (registry_run [] ops) "Tls")) "Tls" = 0.
Proof.
  intros ops.
  assert (Forall (fun op => cstring (op_name op)) ops) as Hops
    by (repeat constructor; discriminate).
  assert (cstring "Tls") as Hn by (simpl; repeat split; discriminate).
  pose proof (registered_names_distinct_nocase ops "Tls" Hops Hn) as [Hnd [_ Hav]].
  split; [reflexivity|]. split; [exact Hnd|]. split; [reflexivity|exact Hav].
Defined.

(** ** Looking a transformer up by name and by kind *)

Section LookupFacts.

Lemma find_app_some {A : Type} (f : A -> bool) (l l' : list A) (x : A) :
  find f l = Some x -> find f (l ++ l') = Some x.
Proof.
  induction l as [|y r IH]; simpl; [discriminate|].
  destruct (f y); auto.
Qed.


End LookupFacts.

(** X4: once a registration has returned 0, the lookups by the exact name
    registered find it: bbs_io_named_transformer_available answers 1 and
    transform_type_from_name returns 0 with the kind registered; and every
    name the lookups found before is still found, with the same kind. *)
Theorem registered_name_is_found (reg reg' : list bbs_io_transformer)
    (alloc_ok : bool) (name : string) setup query cleanup type dir module
    (ev : list event) :
  __bbs_io_transformer_register reg alloc_ok name setup query cleanup type dir module
  = (0, reg', ev) ->
  bbs_io_named_transformer_available reg' name = 1 /\
  transform_type_from_name reg' name = (0, Some type) /\
  (forall other,
      bbs_io_named_transformer_available reg other = 1 ->
      bbs_io_named_transformer_available reg' other = 1 /\
      transform_type_from_name reg' other = transform_type_from_name reg other).
Proof.
  unfold __bbs_io_transformer_register.
  destruct (find (same_name_nocase name) reg) eqn:E; [discriminate|].
  destruct alloc_ok; [|discriminate].
  intros H. inversion H. subst. clear H.
  assert (find (same_name name) reg = None) as Hnone.
  { apply find_none_iff. intros t Ht.
    destruct (same_name name t) eqn:Es; [|reflexivity].
    apply same_name_nocase_of_same_name in Es.
    rewrite (find_none _ _ E t Ht) in Es. discriminate. }
  unfold bbs_io_named_transformer_available, transform_type_from_name.
  rewrite (find_app_none _ _ _ Hnone).
  assert (same_name name
            {| t_name := name; t_type := type; t_dir := dir; t_setup := setup;
               t_query := query; t_cleanup := cleanup; t_module := module |} = true)
    as -> by (unfold same_name; simpl; now rewrite strcmp_refl).
  split; [reflexivity|]. split; [reflexivity|].
  intros other Ho.
  destruct (find (same_name other) reg) as [t|] eqn:Ef; [|discriminate].
  now rewrite (find_app_some _ _ _ _ Ef).
Qed.

(** X4 on a registry holding "TLS": after "LOG" is registered for session
    logging, "LOG" is found with that kind and "TLS" is found as before. *)
Lemma registered_name_is_found_witness :
  let tls := sample_transformer "TLS" TRANSFORM_TLS_ENCRYPTION 3 (hook_ok 500) 1 in
  let logger :=
    sample_transformer_at "LOG" TRANSFORM_SESSION_LOGGING 3 (hook_ok 700) 43 3 in
  bbs_io_named_transformer_available [tls; logger] "LOG" = 1 /\
  transform_type_from_name [tls; logger] "LOG" = (0, Some TRANSFORM_SESSION_LOGGING) /\
  (forall other,
      bbs_io_named_transformer_available [tls] other = 1 ->
      bbs_io_named_transformer_available [tls; logger] other = 1 /\
      transform_type_from_name [tls; logger] other = transform_type_from_name [tls] other).
Proof.
  intros tls logger.
  apply (registered_name_is_found [tls] [tls; logger] true "LOG" (hook_ok 700) None 43
           TRANSFORM_SESSION_LOGGING 3 3 []).
  reflexivity.
Defined.



(** ** The possibility check *)

(** X6: bbs_io_transform_possible gives the answer of the check that
    bbs_io_transform_setup makes, without logging.  On a well-formed stack a
    kind is possible exactly when it is not active and, for encryption, when
    compression is not active either: compression and logging are possible
    whenever they are not active themselves.  When the answer is no, the
    setup returns -1, logs once and changes nothing. *)
Theorem possible_predicts_setup (trans : bbs_io_transformations)
    (type : bbs_io_transform_type) :
  stack_wf trans ->
  bbs_io_transform_possible trans type
  = Some (negb (existsb (active_slot type) trans) &&
          negb (type_eqb type TRANSFORM_TLS_ENCRYPTION &&
                existsb (active_slot TRANSFORM_DEFLATE_COMPRESSION) trans)) /\
  (bbs_io_transform_possible trans type = Some false ->
   forall reg direction rfd wfd arg,
   exists e,
     bbs_io_transform_setup reg trans type direction rfd wfd arg
     = Some {| so_res := -1; so_trans := trans; so_rfd := rfd; so_wfd := wfd;
               so_events := [e] |} /\
     is_cleanup e = false /\ is_module_ref e = false) /\
  (bbs_io_transform_possible trans type = Some true ->
   __bbs_io_transform_possible trans type true = Some (true, [])).
Proof.
  intros Hwf. unfold bbs_io_transform_possible, __bbs_io_transform_possible.
  rewrite (active_spec trans type Hwf).
  rewrite (active_spec trans TRANSFORM_DEFLATE_COMPRESSION Hwf).
  destruct (existsb (active_slot type) trans) eqn:Ea; simpl.
  - split; [reflexivity|]. split; [|discriminate].
    intros _ reg direction rfd wfd arg. eexists. split.
    + apply setup_refused. apply possible_already_active.
      now rewrite (active_spec trans type Hwf), Ea.
    + split; reflexivity.
  - destruct (type_eqb type TRANSFORM_TLS_ENCRYPTION) eqn:Et; simpl.
    + apply type_eqb_eq in Et. subst type.
      destruct (existsb (active_slot TRANSFORM_DEFLATE_COMPRESSION) trans) eqn:Ec;
        simpl.
      * split; [reflexivity|]. split; [|discriminate].
        intros _ reg direction rfd wfd arg. eexists. split.
        -- apply setup_refused. apply possible_encryption_late.
           ++ now rewrite (active_spec trans _ Hwf), Ea.
           ++ now rewrite (active_spec trans _ Hwf), Ec.
        -- split; reflexivity.
      * split; [reflexivity|]. split; [discriminate|reflexivity].
    + split; [reflexivity|]. split; [discriminate|reflexivity].
Qed.

(** X6 on a stack with deflate active: encryption is not possible and its
    setup is refused, logging is possible. *)
Lemma possible_predicts_setup_witness :
  let deflate :=
    sample_transformer "DEFLATE" TRANSFORM_DEFLATE_COMPRESSION 3 (hook_ok 600) 2 in
  let trans := [{| transformer := Some deflate; data := 600 |}; empty_slot] in
  bbs_io_transform_possible trans TRANSFORM_TLS_ENCRYPTION = Some false /\
  bbs_io_transform_possible trans TRANSFORM_SESSION_LOGGING = Some true /\
  (forall reg direction rfd wfd arg,
   exists e,
     bbs_io_transform_setup reg trans TRANSFORM_TLS_ENCRYPTION direction rfd wfd arg
     = Some {| so_res := -1; so_trans := trans; so_rfd := rfd; so_wfd := wfd;
               so_events := [e] |} /\
     is_cleanup e = false /\ is_module_ref e = false).
Proof.
  intros deflate trans.
  assert (stack_wf trans) as Hwf by stack_wf_by_cases.
  split; [reflexivity|]. split; [reflexivity|].
  apply (proj1 (proj2 (possible_predicts_setup trans TRANSFORM_TLS_ENCRYPTION Hwf))).
  reflexivity.
Defined.

(** ** Querying an active transformation *)

Section QueryFacts.

Lemma active_app_skip (before rest : bbs_io_transformations)
    (type : bbs_io_transform_type) :
  stack_wf before -> existsb (active_slot type) before = false ->
  bbs_io_transform_active (before ++ rest) type = bbs_io_transform_active rest type.
Proof.
  induction before as [|tran r IH]; simpl; intros Hwf Hex; [reflexivity|].
  inversion Hwf as [|? ? Hs Hr]. subst.
  apply orb_false_iff in Hex. destruct Hex as [Ha Hex].
  unfold active_slot, has_data in Ha.
  destruct (non_null (data tran)) eqn:E; [|now apply IH].
  apply non_null_true in E. specialize (Hs E).
  destruct (transformer tran) as [t|]; [|contradiction].
  simpl in Ha. rewrite Ha. now apply IH.
Qed.

Lemma query_app_skip (before rest : bbs_io_transformations)
    (type : bbs_io_transform_type) (query : Z) (qdata : ptr) :
  stack_wf before -> existsb (active_slot type) before = false ->
  bbs_io_transform_query (before ++ rest) type query qdata
  = bbs_io_transform_query rest type query qdata.
Proof.
  induction before as [|tran r IH]; simpl; intros Hwf Hex; [reflexivity|].
  inversion Hwf as [|? ? Hs Hr]. subst.
  apply orb_false_iff in Hex. destruct Hex as [Ha Hex].
  unfold active_slot, has_data in Ha.
  destruct (non_null (data tran)) eqn:E; [|now apply IH].
  apply non_null_true in E. specialize (Hs E).
  destruct (transformer tran) as [t|]; [|contradiction].
  simpl in Ha. rewrite Ha. now apply IH.
Qed.

(** The query is answered by the first active slot of the kind. *)
Lemma query_first_active (before after : bbs_io_transformations)
    (tran : bbs_io_transformation) (t : bbs_io_transformer)
    (type : bbs_io_transform_type) (query : Z) (qdata : ptr) :
  stack_wf before -> existsb (active_slot type) before = false ->
  transformer tran = Some t -> t_type t = type -> data tran <> NULL ->
  bbs_io_transform_active (before ++ tran :: after) type = Some true /\
  bbs_io_transform_query (before ++ tran :: after) type query qdata
  = Some (match t_query t with
          | Some q => q (data tran) query qdata
          | None => 1
          end).
Proof.
  intros Hwf Hex Ht Hty Hd.
  rewrite (active_app_skip _ _ _ Hwf Hex), (query_app_skip _ _ _ _ _ Hwf Hex).
  simpl. apply non_null_true in Hd. rewrite Hd, Ht, Hty, type_eqb_refl.
  split; [reflexivity|]. now destruct (t_query t).
Qed.

Lemma existsb_app_false {A : Type} (f : A -> bool) (l l' : list A) :
  existsb f (l ++ l') = false -> existsb f l = false /\ existsb f l' = false.
Proof.
  rewrite existsb_app. apply orb_false_iff.
Qed.

Lemma count_active_existsb (type : bbs_io_transform_type)
    (a b : bbs_io_transformations) :
  count_active type a = count_active type b ->
  existsb (active_slot type) a = existsb (active_slot type) b.
Proof.
  intros H.
  destruct (existsb (active_slot type) a) eqn:Ea,
           (existsb (active_slot type) b) eqn:Eb; auto.
  - apply existsb_count in Eb. rewrite Eb in H. apply existsb_count in H.
    congruence.
  - apply existsb_count in Ea. rewrite Ea in H. symmetry in H.
    apply existsb_count in H. congruence.
Qed.

End QueryFacts.

(** X7: bbs_io_transform_query on a well-formed stack: when the kind is not
    active it returns -1; otherwise it is answered by the first slot that has
    data and a transformer of the kind, with the result of that transformer's
    query hook on the slot's data, or with 1 when the transformer has no
    query hook.  No other slot's hook is consulted. *)
Theorem query_answers_from_first_active_slot (trans : bbs_io_transformations)
    (type : bbs_io_transform_type) (query : Z) (qdata : ptr) :
  stack_wf trans ->
  (bbs_io_transform_active trans type = Some false ->
   bbs_io_transform_query trans type query qdata = Some (-1)) /\
  (forall before tran after t,
      trans = before ++ tran :: after ->
      existsb (active_slot type) before = false ->
      transformer tran = Some t -> t_type t = type -> data tran <> NULL ->
      bbs_io_transform_active trans type = Some true /\
      bbs_io_transform_query trans type query qdata
      = Some (match t_query t with
              | Some q => q (data tran) query qdata
              | None => 1
              end)).
Proof.
  intros Hwf. split; [apply query_inactive|].
  intros before tran after t -> Hex Ht Hty Hd.
  apply query_first_active; auto.
  unfold stack_wf in *. rewrite Forall_app in Hwf. tauto.
Qed.

(** X7 on a stack with a TLS slot whose transformer answers queries with the
    slot's data plus the query code, and a deflate slot without query hook. *)
Lemma query_answers_from_first_active_slot_witness :
  let tls := {| t_name := "TLS"; t_type := TRANSFORM_TLS_ENCRYPTION; t_dir := 3;
                t_setup := hook_ok 500;
                t_query := Some (fun d query _ => d + query);
                t_cleanup := 41; t_module := 1 |} in
  let deflate :=
    sample_transformer "DEFLATE" TRANSFORM_DEFLATE_COMPRESSION 3 (hook_ok 600) 2 in
  let trans := [{| transformer := Some tls; data := 500 |};
                {| transformer := Some deflate; data := 600 |}; empty_slot] in
  bbs_io_transform_query trans TRANSFORM_TLS_ENCRYPTION 7 0 = Some 507 /\
  bbs_io_transform_query trans TRANSFORM_DEFLATE_COMPRESSION 7 0 = Some 1 /\
  bbs_io_transform_query trans TRANSFORM_SESSION_LOGGING 7 0 = Some (-1).
Proof.
  intros tls deflate trans.
  assert (stack_wf trans) as Hwf by stack_wf_by_cases.
  split; [|split].
  - apply (proj2 (query_answers_from_first_active_slot trans
                    TRANSFORM_TLS_ENCRYPTION 7 0 Hwf)
             [] {| transformer := Some tls; data := 500 |}
             [{| transformer := Some deflate; data := 600 |}; empty_slot] tls);
      try reflexivity. discriminate.
  - apply (proj2 (query_answers_from_first_active_slot trans
                    TRANSFORM_DEFLATE_COMPRESSION 7 0 Hwf)
             [{| transformer := Some tls; data := 500 |}]
             {| transformer := Some deflate; data := 600 |} [empty_slot] deflate);
      try reflexivity. discriminate.
  - apply (proj1 (query_answers_from_first_active_slot trans
                    TRANSFORM_SESSION_LOGGING 7 0 Hwf)). reflexivity.
Defined.

(** X8: when bbs_io_transform_setup succeeds with a hook that hands back
    private data, the kind becomes active, the activity of every other kind
    is as before, a query of the kind is answered by the new transformer on
    the data just stored, and the kind is no longer possible. *)
Theorem setup_makes_kind_active
    (reg : list bbs_io_transformer) (trans : bbs_io_transformations)
    (type : bbs_io_transform_type) (direction : bbs_io_transform_dir)
    (rfd wfd : Z) (arg : ptr) (t : bbs_io_transformer) :
  stack_wf trans ->
  __bbs_io_transform_possible trans type true = Some (true, []) ->
  io_transform_slots_free trans = true ->
  find (suitable type direction) reg = Some t ->
  sr_res (t_setup t rfd wfd direction arg) = 0 ->
  sr_data (t_setup t rfd wfd direction arg) <> NULL ->
  exists trans',
    bbs_io_transform_setup reg trans type direction rfd wfd arg
    = Some {| so_res := 0; so_trans := trans';
              so_rfd := sr_rfd (t_setup t rfd wfd direction arg);
              so_wfd := sr_wfd (t_setup t rfd wfd direction arg);
              so_events := [EvModuleRef (t_module t)] |} /\
    bbs_io_transform_active trans' type = Some true /\
    (forall other, other <> type ->
                   bbs_io_transform_active trans' other
                   = bbs_io_transform_active trans other) /\
    (forall query qdata,
        bbs_io_transform_query trans' type query qdata
        = Some (match t_query t with
                | Some q => q (sr_data (t_setup t rfd wfd direction arg)) query qdata
                | None => 1
                end)) /\
    bbs_io_transform_possible trans' type = Some false.
Proof.
  intros Hwf Hp Hf Ht Hr Hd.
  set (d := sr_data (t_setup t rfd wfd direction arg)) in *.
  destruct (proj1 (store_free trans t d) Hf) as [trans' Hs].
  exists trans'.
  pose proof (store_wf _ _ _ _ Hs Hwf) as Hwf'.
  destruct (possible_true_inv _ _ _ _ Hp) as [_ Hact].
  destruct (suitable_found _ _ _ _ Ht) as [_ [Hty _]].
  rewrite (active_spec trans type Hwf) in Hact. inversion Hact as [Hex].
  destruct (store_shape _ _ _ _ Hs) as [before [tran [after [Htr [Hn [_ Htr']]]]]].
  assert (stack_wf before /\ existsb (active_slot type) before = false) as [Hwb Hxb].
  { rewrite Htr in Hwf, Hex. unfold stack_wf in Hwf. rewrite Forall_app in Hwf.
    apply existsb_app_false in Hex. tauto. }
  destruct (query_first_active before after {| transformer := Some t; data := d |}
              t type 0 0 Hwb Hxb eq_refl Hty Hd) as [Hact' _].
  rewrite <- Htr' in Hact'.
  split; [|split; [|split; [|split]]].
  - unfold bbs_io_transform_setup.
    rewrite (setup_reaches_hook _ reg trans type direction rfd wfd arg t Hp Hf Ht).
    cbn zeta. fold d. unfold store_after_setup. rewrite Hr. cbn [Z.eqb].
    rewrite Hs. reflexivity.
  - exact Hact'.
  - intros other Hne.
    rewrite (active_spec trans' other Hwf'), (active_spec trans other Hwf).
    f_equal. apply count_active_existsb.
    rewrite (store_count _ _ _ _ other Hs).
    unfold active_slot. simpl. rewrite Hty.
    destruct (type_eqb type other) eqn:E;
      [apply type_eqb_eq in E; congruence|].
    rewrite andb_false_r. lia.
  - intros query qdata. rewrite Htr'.
    apply (query_first_active before after {| transformer := Some t; data := d |}
             t type query qdata Hwb Hxb eq_refl Hty Hd).
  - unfold bbs_io_transform_possible, __bbs_io_transform_possible.
    now rewrite Hact'.
Qed.

(** X8 on a fresh two-slot stack and a TLS transformer without query hook. *)
Lemma setup_makes_kind_active_witness :
  let tls := sample_transformer "TLS" TRANSFORM_TLS_ENCRYPTION 3 (hook_ok 500) 1 in
  exists trans',
    bbs_io_transform_setup [tls] (fresh_stack 2) TRANSFORM_TLS_ENCRYPTION 1 4 5 0
    = Some {| so_res := 0; so_trans := trans'; so_rfd := 4; so_wfd := 5;
              so_events := [EvModuleRef 1] |} /\
    bbs_io_transform_active trans' TRANSFORM_TLS_ENCRYPTION = Some true /\
    (forall other, other <> TRANSFORM_TLS_ENCRYPTION ->
                   bbs_io_transform_active trans' other
                   = bbs_io_transform_active (fresh_stack 2) other) /\
    (forall query qdata,
        bbs_io_transform_query trans' TRANSFORM_TLS_ENCRYPTION query qdata = Some 1) /\
    bbs_io_transform_possible trans' TRANSFORM_TLS_ENCRYPTION = Some false.
Proof.
  intros tls.
  apply (setup_makes_kind_active [tls] (fresh_stack 2) TRANSFORM_TLS_ENCRYPTION
           1 4 5 0 tls (stack_wf_fresh 2) eq_refl eq_refl eq_refl eq_refl).
  discriminate.
Defined.

(** ** What a setup and a teardown leave alone *)

Section FrameFacts.

Lemma store_keeps (trans trans' : bbs_io_transformations) (t : bbs_io_transformer)
    (d : ptr) :
  io_transform_store trans t d = Some trans' ->
  List.length trans' = List.length trans /\
  forall i tran, nth_error trans i = Some tran -> in_use tran = true ->
                 nth_error trans' i = Some tran.
Proof.
  revert trans'. induction trans as [|x rest IH]; simpl; intros trans' H;
    [discriminate|].
  destruct (transformer x) eqn:E.
  - destruct (io_transform_store rest t d) as [rest'|]; [|discriminate].
    inversion H. subst. destruct (IH rest' eq_refl) as [Hl Hk].
    split; [simpl; now rewrite Hl|].
    intros [|i] tran; simpl; auto.
  - inversion H. subst. split; [reflexivity|].
    intros [|i] tran; simpl; auto.
    intros Hx Hu. inversion Hx. subst. unfold in_use in Hu. rewrite E in Hu.
    discriminate.
Qed.

(** One setup, case by case: nothing stored and no reference taken, or one
    registered transformer stored with the data of its successful hook and
    one reference taken on its module. *)
Lemma setup_step_cases (reg : list bbs_io_transformer)
    (trans : bbs_io_transformations) (type : bbs_io_transform_type)
    (direction : bbs_io_transform_dir) (rfd wfd : Z) (arg : ptr) (o : setup_outcome) :
  bbs_io_transform_setup reg trans type direction rfd wfd arg = Some o ->
  (so_res o <> 0 /\ so_trans o = trans /\
   filter is_module_ref (so_events o) = [] /\
   filter is_cleanup (so_events o) = []) \/
  (so_res o = 0 /\
   exists t,
     In t reg /\
     sr_res (t_setup t rfd wfd direction arg) = 0 /\
     io_transform_store trans t (sr_data (t_setup t rfd wfd direction arg))
     = Some (so_trans o) /\
     so_events o = [EvModuleRef (t_module t)]).
Proof.
  unfold bbs_io_transform_setup, io_transform_setup_with.
  destruct (__bbs_io_transform_possible trans type true) as [[[|] ev]|] eqn:Ep;
    [| |discriminate].
  - destruct (possible_true_inv _ _ _ _ Ep) as [-> _].
    destruct (io_transform_slots_free trans) eqn:Efree; simpl;
      [|intros H; inversion H; left; simpl; repeat split; discriminate].
    destruct (find (suitable type direction) reg) as [t|] eqn:Ef;
      [|intros H; inversion H; left; simpl; repeat split; discriminate].
    destruct (suitable_found _ _ _ _ Ef) as [Hin _].
    unfold store_after_setup.
    destruct (sr_res (t_setup t rfd wfd direction arg) =? 0) eqn:Er.
    + apply Z.eqb_eq in Er.
      destruct (proj1 (store_free trans t
                         (sr_data (t_setup t rfd wfd direction arg))) Efree)
        as [trans' Hs].
      rewrite Hs. intros H. inversion H. subst. simpl.
      right. split; [reflexivity|]. exists t. auto.
    + apply Z.eqb_neq in Er. intros H. inversion H. subst. simpl.
      left. auto.
  - intros H. inversion H. subst. simpl. left.
    split; [discriminate|]. split; [reflexivity|].
    unfold __bbs_io_transform_possible in Ep.
    destruct (bbs_io_transform_active trans type) as [[|]|]; try discriminate.
    + inversion Ep. split; reflexivity.
    + destruct (type_eqb type TRANSFORM_TLS_ENCRYPTION); [|discriminate].
      destruct (bbs_io_transform_active trans TRANSFORM_DEFLATE_COMPRESSION)
        as [[|]|]; try discriminate.
      inversion Ep. split; reflexivity.
Qed.

Lemma teardown_keeps (trans trans' : bbs_io_transformations) (ev : list event) :
  bbs_io_teardown_all_transformers trans = Some (trans', ev) ->
  List.length trans' = List.length trans /\
  forall i tran, nth_error trans i = Some tran -> has_data tran = false ->
                 nth_error trans' i = Some tran.
Proof.
  revert trans' ev. induction trans as [|x rest IH]; simpl; intros trans' ev H.
  - inversion H. split; [reflexivity|]. intros [|i] tran; discriminate.
  - destruct (non_null (data x)) eqn:E.
    + destruct (teardown_transformation x) as [[x' e]|]; [|discriminate].
      destruct (bbs_io_teardown_all_transformers rest) as [[rest' ev']|];
        [|discriminate].
      destruct (IH _ _ eq_refl) as [Hl Hk]. inversion H. subst.
      split; [simpl; now rewrite Hl|].
      intros [|i] tran; simpl; auto.
      intros Hx Hd. inversion Hx. subst. unfold has_data in Hd. congruence.
    + destruct (bbs_io_teardown_all_transformers rest) as [[rest' ev']|];
        [|discriminate].
      destruct (IH _ _ eq_refl) as [Hl Hk]. inversion H. subst.
      split; [simpl; now rewrite Hl|].
      intros [|i] tran; simpl; auto.
Qed.

End FrameFacts.

(** X9: bbs_io_transform_setup never changes the number of slots and never
    touches a slot that already holds a transformer (it stays at its index
    with the same transformer and data); a setup that returns anything but 0
    leaves the whole stack as it was.  bbs_io_teardown_all_transformers
    never changes the number of slots either, and leaves every slot without
    data as it is. *)
Theorem setup_and_teardown_frame (trans : bbs_io_transformations) :
  (forall reg type direction rfd wfd arg o,
      bbs_io_transform_setup reg trans type direction rfd wfd arg = Some o ->
      List.length (so_trans o) = List.length trans /\
      (forall i tran, nth_error trans i = Some tran -> in_use tran = true ->
                      nth_error (so_trans o) i = Some tran) /\
      (so_res o <> 0 -> so_trans o = trans)) /\
  (forall trans' ev,
      bbs_io_teardown_all_transformers trans = Some (trans', ev) ->
      List.length trans' = List.length trans /\
      (forall i tran, nth_error trans i = Some tran -> has_data tran = false ->
                      nth_error trans' i = Some tran)).
Proof.
  split.
  - intros reg type direction rfd wfd arg o Ho.
    destruct (setup_step_cases _ _ _ _ _ _ _ _ Ho)
      as [[Hr [Ht _]]|[Hr [t [_ [_ [Hs _]]]]]].
    + rewrite Ht. auto.
    + destruct (store_keeps _ _ _ _ Hs) as [Hl Hk]. repeat split; auto.
      intros Hne. contradiction.
  - intros trans' ev. apply teardown_keeps.
Qed.

(** X9 on a stack with TLS in its first slot: the setup of deflate fills the
    second slot and leaves the first, and the teardown keeps three slots. *)
Lemma setup_and_teardown_frame_witness :
  let tls := sample_transformer "TLS" TRANSFORM_TLS_ENCRYPTION 3 (hook_ok 500) 1 in
  let deflate :=
    sample_transformer "DEFLATE" TRANSFORM_DEFLATE_COMPRESSION 3 (hook_ok 600) 2 in
  let trans := [{| transformer := Some tls; data := 500 |}; empty_slot; empty_slot] in
  let o := {| so_res := 0;
              so_trans := [{| transformer := Some tls; data := 500 |};
                           {| transformer := Some deflate; data := 600 |}; empty_slot];
              so_rfd := 4; so_wfd := 5; so_events := [EvModuleRef 2] |} in
  bbs_io_transform_setup [tls; deflate] trans TRANSFORM_DEFLATE_COMPRESSION 1 4 5 0
  = Some o /\
  List.length (so_trans o) = 3%nat /\
  nth_error (so_trans o) 0 = Some {| transformer := Some tls; data := 500 |}.
Proof.
  intros tls deflate trans o.
  assert (bbs_io_transform_setup [tls; deflate] trans TRANSFORM_DEFLATE_COMPRESSION
            1 4 5 0 = Some o) as Ho by reflexivity.
  destruct (proj1 (setup_and_teardown_frame trans) [tls; deflate]
              TRANSFORM_DEFLATE_COMPRESSION 1 4 5 0 o Ho) as [Hl [Hk _]].
  split; [exact Ho|]. split; [exact Hl|].
  apply (Hk 0%nat); reflexivity.
Defined.

(** ** Capacity and module references over a sequence of setups *)

Section ReferenceBalance.

Lemma owned_in_use_app (m : ptr) (a b : bbs_io_transformations) :
  List.length (filter (owned_by m) (filter in_use (a ++ b)))
  = (List.length (filter (owned_by m) (filter in_use a)) +
     List.length (filter (owned_by m) (filter in_use b)))%nat.
Proof. now rewrite !filter_app, length_app. Qed.

(** The store adds one slot in use, owned by the transformer's module. *)
Lemma store_in_use (trans trans' : bbs_io_transformations) (t : bbs_io_transformer)
    (d : ptr) (m : ptr) :
  io_transform_store trans t d = Some trans' ->
  List.length (filter in_use trans') = S (List.length (filter in_use trans)) /\
  List.length (filter (owned_by m) (filter in_use trans'))
  = (List.length (filter (owned_by m) (filter in_use trans)) +
     (if Z.eqb (t_module t) m then 1 else 0))%nat.
Proof.
  intros H. destruct (store_shape _ _ _ _ H) as [before [tran [after [-> [Hn [_ ->]]]]]].
  assert (in_use tran = false) as Hiu by (unfold in_use; now rewrite Hn).
  change (tran :: after) with ([tran] ++ after).
  change ({| transformer := Some t; data := d |} :: after)
    with ([{| transformer := Some t; data := d |}] ++ after).
  rewrite !owned_in_use_app. rewrite !filter_app, !length_app.
  cbn [filter]. rewrite Hiu.
  change (in_use {| transformer := Some t; data := d |}) with true.
  cbn [filter List.length].
  change (owned_by m {| transformer := Some t; data := d |}) with (t_module t =? m).
  destruct (t_module t =? m); cbn [List.length]; lia.
Qed.

Lemma store_no_null_data (trans trans' : bbs_io_transformations)
    (t : bbs_io_transformer) (d : ptr) :
  io_transform_store trans t d = Some trans' -> d <> NULL ->
  no_null_data trans -> no_null_data trans'.
Proof.
  intros H Hd. destruct (store_shape _ _ _ _ H) as [before [tran [after [-> [_ [_ ->]]]]]].
  unfold no_null_data. rewrite !Forall_app. intros [Hb Ha]. split; [assumption|].
  inversion Ha. subst. constructor; [|assumption].
  intros _. unfold has_data. simpl. now apply non_null_true.
Qed.

(** A sequence of setups takes one module reference per slot it puts in use
    and keeps the number of slots. *)
Lemma setup_run_references (reg : list bbs_io_transformer) (reqs : list setup_request) :
  forall trans trans' ev,
  setup_run reg trans reqs = Some (trans', ev) ->
  List.length trans' = List.length trans /\
  List.length (filter in_use trans')
  = (List.length (filter in_use trans) + List.length (filter is_module_ref ev))%nat /\
  (forall m,
      List.length (filter (owned_by m) (filter in_use trans'))
      = (List.length (filter (owned_by m) (filter in_use trans)) +
         List.length (filter (is_ref_of m) ev))%nat) /\
  filter is_cleanup ev = [] /\
  (stack_wf trans -> stack_wf trans') /\
  (hooks_give_data reg -> no_null_data trans -> no_null_data trans').
Proof.
  induction reqs as [|rq rest IH]; simpl; intros trans trans' ev H.
  - inversion H. subst. simpl. repeat split; auto.
  - destruct (bbs_io_transform_setup reg trans (rq_type rq) (rq_direction rq)
                (rq_rfd rq) (rq_wfd rq) (rq_arg rq)) as [o|] eqn:Eo; [|discriminate].
    destruct (setup_run reg (so_trans o) rest) as [[trans1 ev1]|] eqn:Er;
      [|discriminate].
    inversion H. subst. clear H.
    destruct (IH _ _ _ Er) as [Hl [Hc [Hm [Hcl [Hw Hnn]]]]].
    rewrite !filter_app, !length_app.
    destruct (setup_step_cases _ _ _ _ _ _ _ _ Eo)
      as [[_ [Ht [Hev Hcl0]]]|[_ [t [Hin [Hres [Hs Hev]]]]]].
    + rewrite Ht in *. rewrite Hev, Hcl0, Hcl. simpl. repeat split; auto.
      intros m. rewrite Hm, filter_app, length_app.
      assert (filter (is_ref_of m) (so_events o) = []) as ->; [|reflexivity].
      clear - Hev. induction (so_events o) as [|e r IHr]; simpl in *; [reflexivity|].
      destruct e; simpl in *; try (now apply IHr); discriminate.
    + rewrite Hev. cbn [filter is_module_ref is_cleanup is_ref_of List.length app].
      destruct (store_keeps _ _ _ _ Hs) as [Hl0 _].
      destruct (store_in_use _ _ _ _ 0 Hs) as [Hc0 _].
      split; [lia|]. split; [lia|]. split.
      * intros m. destruct (store_in_use _ _ _ _ m Hs) as [_ Hm0].
        rewrite Hm, Hm0. destruct (t_module t =? m); cbn [List.length]; lia.
      * split; [assumption|]. split.
        -- intros Hwf. apply Hw. now apply (store_wf _ _ _ _ Hs).
        -- intros Hg Hn. apply Hnn; [assumption|].
           apply (store_no_null_data _ _ _ _ Hs); [|assumption].
           now apply Hg.
Qed.

Lemma filter_in_use_fresh (n : nat) : filter in_use (fresh_stack n) = [].
Proof. induction n; simpl; auto. Qed.

Lemma no_null_data_fresh (n : nat) : no_null_data (fresh_stack n).
Proof.
  unfold no_null_data, fresh_stack. apply Forall_forall. intros tran Hin.
  apply repeat_spec in Hin. subst. discriminate.
Qed.

(** With every slot in use carrying data, the teardown clears the stack. *)
Lemma torn_down_fresh (trans : bbs_io_transformations) :
  no_null_data trans ->
  map torn_down trans = fresh_stack (List.length trans).
Proof.
  induction trans as [|tran rest IH]; simpl; intros H; [reflexivity|].
  inversion H as [|? ? Ht Hr]. subst. rewrite (IH Hr). f_equal.
  unfold torn_down. destruct (has_data tran) eqn:E; [reflexivity|].
  destruct tran as [tr d]. unfold in_use, has_data, non_null in *. simpl in *.
  destruct tr; [specialize (Ht eq_refl); congruence|].
  apply negb_false_iff, Z.eqb_eq in E. subst. reflexivity.
Qed.

Lemma has_data_in_use_filter (trans : bbs_io_transformations) :
  stack_wf trans -> no_null_data trans ->
  filter has_data trans = filter in_use trans.
Proof.
  intros Hwf Hn. apply filter_ext_in. intros tran Hin.
  unfold stack_wf, no_null_data in *. rewrite Forall_forall in Hwf, Hn.
  specialize (Hwf tran Hin). specialize (Hn tran Hin).
  destruct (in_use tran) eqn:Ei.
  - now apply Hn.
  - destruct (has_data tran) eqn:Ed; [|reflexivity].
    unfold has_data in Ed. apply non_null_true in Ed. apply Hwf in Ed.
    unfold in_use in Ei. destruct (transformer tran); [discriminate|contradiction].
Qed.

End ReferenceBalance.

(** X10: a sequence of setups on a fresh stack of n slots takes exactly one
    module reference for each slot it puts in use, never calls a cleanup
    hook, and never has more than n slots in use; once every slot holds a
    transformer, a setup that passes the possibility check returns -1 with
    the at-maximum error and changes nothing. *)
Theorem setups_bounded_by_capacity (reg : list bbs_io_transformer) (n : nat)
    (reqs : list setup_request) (trans' : bbs_io_transformations) (ev : list event) :
  setup_run reg (fresh_stack n) reqs = Some (trans', ev) ->
  List.length trans' = n /\
  List.length (filter is_module_ref ev) = List.length (filter in_use trans') /\
  (List.length (filter is_module_ref ev) <= n)%nat /\
  filter is_cleanup ev = [] /\
  (io_transform_slots_free trans' = false ->
   forall type direction rfd wfd arg,
   __bbs_io_transform_possible trans' type true = Some (true, []) ->
   bbs_io_transform_setup reg trans' type direction rfd wfd arg
   = Some {| so_res := -1; so_trans := trans'; so_rfd := rfd; so_wfd := wfd;
             so_events := [EvLog LOG_ERROR AtMaxTransformations] |}).
Proof.
  intros H. destruct (setup_run_references _ _ _ _ _ H) as [Hl [Hc [_ [Hcl _]]]].
  pose proof (filter_in_use_fresh n) as Hf0.
  rewrite Hf0 in Hc. simpl in Hc.
  unfold fresh_stack in Hl. rewrite repeat_length in Hl.
  split; [assumption|]. split; [lia|]. split.
  - rewrite <- Hc, <- Hl. apply filter_length_le.
  - split; [assumption|].
    intros Hfull type direction rfd wfd arg Hp.
    unfold bbs_io_transform_setup, io_transform_setup_with.
    now rewrite Hp, Hfull.
Qed.

(** X10 on a fresh one-slot stack: TLS takes the slot and one reference, and
    deflate is then refused for lack of a slot. *)
Lemma setups_bounded_by_capacity_witness :
  let tls := sample_transformer "TLS" TRANSFORM_TLS_ENCRYPTION 3 (hook_ok 500) 1 in
  let deflate :=
    sample_transformer "DEFLATE" TRANSFORM_DEFLATE_COMPRESSION 3 (hook_ok 600) 2 in
  let reqs := [{| rq_type := TRANSFORM_TLS_ENCRYPTION; rq_direction := 1;
                  rq_rfd := 4; rq_wfd := 5; rq_arg := 0 |};
               {| rq_type := TRANSFORM_DEFLATE_COMPRESSION; rq_direction := 1;
                  rq_rfd := 4; rq_wfd := 5; rq_arg := 0 |}] in
  let trans' := [{| transformer := Some tls; data := 500 |}] in
  let ev := [EvModuleRef 1; EvLog LOG_ERROR AtMaxTransformations] in
  setup_run [tls; deflate] (fresh_stack 1) reqs = Some (trans', ev) /\
  List.length (filter is_module_ref ev) = List.length (filter in_use trans') /\
  (List.length (filter is_module_ref ev) <= 1)%nat /\
  bbs_io_transform_setup [tls; deflate] trans' TRANSFORM_SESSION_LOGGING 1 4 5 0
  = Some {| so_res := -1; so_trans := trans'; so_rfd := 4; so_wfd := 5;
            so_events := [EvLog LOG_ERROR AtMaxTransformations] |}.
Proof.
  intros tls deflate reqs trans' ev.
  assert (setup_run [tls; deflate] (fresh_stack 1) reqs = Some (trans', ev)) as H
    by reflexivity.
  destruct (setups_bounded_by_capacity [tls; deflate] 1 reqs trans' ev H)
    as [_ [Hc [Hle [_ Hfull]]]].
  split; [exact H|]. split; [exact Hc|]. split; [exact Hle|].
  apply Hfull; reflexivity.
Defined.

(** X11: when every setup hook of the registry that returns 0 hands back
    private data, a teardown after any sequence of setups on a fresh stack
    returns the stack to the fresh state, calls one cleanup per reference
    taken, and releases each module exactly as many times as the setups
    referenced it. *)
Theorem teardown_releases_every_reference (reg : list bbs_io_transformer) (n : nat)
    (reqs : list setup_request) (trans' : bbs_io_transformations) (ev : list event) :
  hooks_give_data reg ->
  setup_run reg (fresh_stack n) reqs = Some (trans', ev) ->
  exists ev',
    bbs_io_teardown_all_transformers trans' = Some (fresh_stack n, ev') /\
    List.length (filter is_cleanup ev') = List.length (filter is_module_ref ev) /\
    (forall m, List.length (filter (is_unref_of m) ev')
               = List.length (filter (is_ref_of m) ev)).
Proof.
  intros Hg H.
  destruct (setup_run_references _ _ _ _ _ H) as [Hl [Hc [Hm [_ [Hw Hn]]]]].
  specialize (Hw (stack_wf_fresh n)). specialize (Hn Hg (no_null_data_fresh n)).
  pose proof (filter_in_use_fresh n) as Hf0.
  rewrite Hf0 in Hc, Hm. simpl in Hc, Hm.
  unfold fresh_stack in Hl. rewrite repeat_length in Hl.
  exists (flat_map teardown_calls (filter has_data trans')).
  rewrite (teardown_spec trans' Hw), (torn_down_fresh trans' Hn), Hl.
  split; [reflexivity|].
  pose proof (stack_wf_filter has_data trans' Hw) as Hwf'.
  pose proof (filter_has_data_all trans') as Hall.
  split.
  - rewrite (proj1 (teardown_calls_count _ 0 Hwf' Hall)).
    rewrite (has_data_in_use_filter trans' Hw Hn). lia.
  - intros m.
    rewrite (proj1 (proj2 (proj2 (teardown_calls_count _ m Hwf' Hall)))).
    rewrite (has_data_in_use_filter trans' Hw Hn). now rewrite Hm.
Qed.

(** X11 on a fresh three-slot stack: TLS and deflate are set up, then torn
    down; the stack is fresh again and modules 1 and 2 are released once. *)
Lemma teardown_releases_every_reference_witness :
  let tls := sample_transformer "TLS" TRANSFORM_TLS_ENCRYPTION 3 (hook_ok 500) 1 in
  let deflate :=
    sample_transformer "DEFLATE" TRANSFORM_DEFLATE_COMPRESSION 3 (hook_ok 600) 2 in
  let reqs := [{| rq_type := TRANSFORM_TLS_ENCRYPTION; rq_direction := 1;
                  rq_rfd := 4; rq_wfd := 5; rq_arg := 0 |};
               {| rq_type := TRANSFORM_DEFLATE_COMPRESSION; rq_direction := 1;
                  rq_rfd := 4; rq_wfd := 5; rq_arg := 0 |}] in
  let trans' := [{| transformer := Some tls; data := 500 |};
                 {| transformer := Some deflate; data := 600 |}; empty_slot] in
  let ev := [EvModuleRef 1; EvModuleRef 2] in
  setup_run [tls; deflate] (fresh_stack 3) reqs = Some (trans', ev) /\
  exists ev',
    bbs_io_teardown_all_transformers trans' = Some (fresh_stack 3, ev') /\
    List.length (filter is_cleanup ev') = 2%nat /\
    (forall m, List.length (filter (is_unref_of m) ev')
               = List.length (filter (is_ref_of m) ev)).
Proof.
  intros tls deflate reqs trans' ev.
  assert (hooks_give_data [tls; deflate]) as Hg.
  { intros t rfd wfd direction arg [<-|[<-|[]]] _; discriminate. }
  split; [reflexivity|].
  apply (teardown_releases_every_reference [tls; deflate] 3 reqs trans' ev Hg).
  reflexivity.
Defined.

(** ** Sessions: one per stack, found by identifier *)

Section SessionLookup.

Lemma session_step_stacks (st : session_state) (op : session_op) :
  NoDup (map i_s (sessions st)) ->
  NoDup (map i_s (sessions (fst (session_step st op)))).
Proof.
  intros Hnd. destruct op as [alloc_ok now s type owner|s]; simpl.
  - unfold bbs_io_session_register.
    destruct (find (session_is s) (sessions st)) eqn:E; simpl; [assumption|].
    destruct alloc_ok; simpl; [|assumption].
    rewrite map_app. simpl. apply NoDup_snoc; [assumption|].
    intros Hin. apply in_map_iff in Hin. destruct Hin as [i [Hi Hin]].
    pose proof (find_none _ _ E i Hin) as Hf.
    apply session_is_true in Hi. congruence.
  - unfold bbs_io_session_unregister.
    destruct (find (session_is s) (sessions st)); simpl; [|assumption].
    now apply NoDup_map_remove_first.
Qed.

Lemma session_run_stacks (ops : list session_op) :
  forall st, NoDup (map i_s (sessions st)) ->
  NoDup (map i_s (sessions (fst (session_run st ops)))).
Proof.
  induction ops as [|op r IH]; intros st Hnd; simpl; [assumption|].
  pose proof (session_step_stacks st op Hnd) as H1.
  destruct (session_step st op) as [st1 ids1]. simpl in H1.
  specialize (IH st1 H1). now destruct (session_run st1 r).
Qed.

(** With one session per stack, unlinking the first session of a stack is
    dropping every session of that stack. *)
Lemma remove_first_filter (s : ptr) (l : list io_session) :
  NoDup (map i_s l) ->
  remove_first (session_is s) l = filter (fun i => negb (session_is s i)) l.
Proof.
  induction l as [|x r IH]; simpl; intros Hnd; [reflexivity|].
  inversion Hnd as [|? ? Hni Hr]. subst.
  destruct (session_is s x) eqn:E; simpl.
  - apply session_is_true in E.
    symmetry. apply forallb_filter_id. apply forallb_forall. intros i Hi.
    destruct (session_is s i) eqn:Ei; [|reflexivity].
    apply session_is_true in Ei. exfalso. apply Hni.
    rewrite E, <- Ei. now apply in_map.
  - now rewrite IH.
Qed.

Lemma find_id_none (l : list io_session) (id : Z) :
  Forall (fun i => i_id i <> id) l -> find (fun i => i_id i =? id) l = None.
Proof.
  intros H. apply find_none_iff. intros i Hi. rewrite Forall_forall in H.
  apply Z.eqb_neq. now apply H.
Qed.

End SessionLookup.

(** X12: in every run of register and unregister calls from the start of
    the process, no two sessions in the list reference the same stack; so
    bbs_io_session_unregister of a stack leaves no session for it, keeps all
    the others in their order, and the stack can be registered again. *)
Theorem one_session_per_stack (ops : list session_op) (s : ptr) :
  let st := fst (session_run session_init ops) in
  let st' := snd (fst (bbs_io_session_unregister st s)) in
  NoDup (map i_s (sessions st)) /\
  sessions st' = filter (fun i => negb (session_is s i)) (sessions st) /\
  (forall i, In i (sessions st') -> i_s i <> s) /\
  (forall now type owner,
      fst (fst (bbs_io_session_register st' true now s type owner)) = 0).
Proof.
  intros st st'.
  assert (NoDup (map i_s (sessions st))) as Hnd
    by (apply session_run_stacks; constructor).
  assert (sessions st' = filter (fun i => negb (session_is s i)) (sessions st)) as Hs.
  { subst st'. unfold bbs_io_session_unregister.
    destruct (find (session_is s) (sessions st)) eqn:E; simpl.
    - now apply remove_first_filter.
    - rewrite <- (remove_first_filter s _ Hnd). symmetry.
      now apply remove_first_none. }
  assert (forall i, In i (sessions st') -> i_s i <> s) as Hno.
  { intros i Hi. rewrite Hs in Hi. apply filter_In in Hi. destruct Hi as [_ Hi].
    apply negb_true_iff in Hi. intros Heq. apply session_is_true in Heq.
    congruence. }
  split; [exact Hnd|]. split; [exact Hs|]. split; [exact Hno|].
  intros now type owner. now rewrite (register_fresh st' s now type owner Hno).
Qed.

(** X13: while the counter has not wrapped, find_io_session with the
    identifier a registration has just issued returns the session that was
    registered (its stack, type, owner and start time); identifiers that
    were found before are still found with the same session; and an
    identifier that has not been issued yet (0, or one above the counter) is
    not found. *)
Theorem session_found_by_issued_id (ops : list session_op) (alloc_ok : bool)
    (now : Z) (s : ptr) (type : bbs_io_session_type) (owner : ptr)
    (st' : session_state) (ev : list event) :
  let st := fst (session_run session_init ops) in
  Z.of_nat (List.length (snd (session_run session_init ops))) + 1 < UINT_MODULUS ->
  bbs_io_session_register st alloc_ok now s type owner = (0, st', ev) ->
  find_io_session st' (io_session_io st')
  = Some {| i_s := s; i_id := io_session_io st'; i_start := now;
            i_type := type; i_owner := owner |} /\
  io_session_io st' = io_session_io st + 1 /\
  (forall id i, find_io_session st id = Some i -> find_io_session st' id = Some i) /\
  (forall id, id <= 0 \/ io_session_io st' < id -> find_io_session st' id = None).
Proof.
  intros st Hlt Hreg.
  assert (session_inv session_init) as Hinit.
  { repeat split; simpl; try lia; constructor. }
  destruct (session_run_increasing ops session_init Hinit)
    as [Hctr [_ [_ [[Hc [Hle Hnd]] _]]]]; [simpl; lia|].
  fold st in Hctr, Hc, Hle, Hnd. simpl in Hctr.
  apply register_success_inv in Hreg. destruct Hreg as [_ [_ ->]].
  assert (uint_incr (io_session_io st) = io_session_io st + 1) as Hinc
    by (apply uint_incr_small; lia).
  unfold find_io_session. cbn [sessions io_session_io]. rewrite Hinc.
  split; [|split; [reflexivity|split]].
  - rewrite find_app_none.
    + cbn [i_id]. now rewrite Z.eqb_refl.
    + apply find_id_none. eapply Forall_impl; [|exact Hle]. simpl. intros; lia.
  - intros id i Hf. now apply find_app_some.
  - intros id Hid. apply find_id_none. apply Forall_app. split.
    + eapply Forall_impl; [|exact Hle]. simpl. intros; lia.
    + constructor; [simpl; lia|constructor].
Qed.

(** X13 on the run that registers stacks 100 and 200 and unregisters 100:
    registering 300 issues 3, and 3 is then found with stack 300. *)
Lemma session_found_by_issued_id_witness :
  let ops := [SRegister true 10 100 TRANSFORM_SESSION_NODE 7;
              SRegister true 11 200 TRANSFORM_SESSION_TCPCLIENT 8;
              SUnregister 100] in
  let st := fst (session_run session_init ops) in
  let st' := snd (fst (bbs_io_session_register st true 12 300 TRANSFORM_SESSION_NODE 9)) in
  io_session_io st' = 3 /\
  find_io_session st' 3
  = Some {| i_s := 300; i_id := 3; i_start := 12;
            i_type := TRANSFORM_SESSION_NODE; i_owner := 9 |} /\
  find_io_session st' 1 = None /\
  find_io_session st' 4 = None.
Proof.
  intros ops st st'.
  assert (Z.of_nat (List.length (snd (session_run session_init ops))) + 1 < UINT_MODULUS)
    as Hlt by (vm_compute; reflexivity).
  assert (bbs_io_session_register st true 12 300 TRANSFORM_SESSION_NODE 9
          = (0, st', [])) as Hreg by reflexivity.
  destruct (session_found_by_issued_id ops true 12 300 TRANSFORM_SESSION_NODE 9
              st' [] Hlt Hreg) as [Hfound [_ [_ Hnone]]].
  split; [reflexivity|]. split; [exact Hfound|]. split; [reflexivity|].
  apply Hnone. right. vm_compute. reflexivity.
Defined.

(** ** Adding a transformation to a session from the CLI *)

Section CliFacts.

(** A setup that returns 0 has stored the first registered transformer that
    is suitable for the kind and direction. *)
Lemma setup_installs_first_suitable (reg : list bbs_io_transformer)
    (trans : bbs_io_transformations) (type : bbs_io_transform_type)
    (direction : bbs_io_transform_dir) (rfd wfd : Z) (arg : ptr) (o : setup_outcome) :
  bbs_io_transform_setup reg trans type direction rfd wfd arg = Some o ->
  so_res o = 0 ->
  exists t,
    find (suitable type direction) reg = Some t /\
    io_transform_store trans t (sr_data (t_setup t rfd wfd direction arg))
    = Some (so_trans o) /\
    In {| transformer := Some t; data := sr_data (t_setup t rfd wfd direction arg) |}
       (so_trans o).
Proof.
  unfold bbs_io_transform_setup, io_transform_setup_with.
  destruct (__bbs_io_transform_possible trans type true) as [[[|] ev]|];
    [| |discriminate].
  - destruct (io_transform_slots_free trans); simpl;
      [|intros H; inversion H; subst; discriminate].
    destruct (find (suitable type direction) reg) as [t|];
      [|intros H; inversion H; subst; discriminate].
    unfold store_after_setup.
    destruct (sr_res (t_setup t rfd wfd direction arg) =? 0) eqn:Er.
    + destruct (io_transform_store trans t (sr_data (t_setup t rfd wfd direction arg)))
        as [trans'|] eqn:Es; intros H; inversion H; subst; simpl;
        [|discriminate].
      intros _. exists t. split; [reflexivity|]. split; [exact Es|].
      destruct (store_shape _ _ _ _ Es) as [before [tran [after [_ [_ [_ ->]]]]]].
      apply in_or_app. right. now left.
    + apply Z.eqb_neq in Er. intros H. inversion H. subst. simpl. contradiction.
  - intros H. inversion H. subst. discriminate.
Qed.

End CliFacts.

(** X14: cli_io_session_transformation_add returns -1 and changes nothing
    when the name is not registered byte for byte or the session identifier
    is not found.  Otherwise it runs bbs_io_transform_setup on the session's
    stack with the kind of the named transformer and returns its result,
    leaving every other stack alone; when that result is 0 the transformer
    now in the stack is the first registered one of that kind that supports
    the direction, whether or not it is the one that was named. *)
Theorem cli_add_sets_up_by_kind (tx_rx : bbs_io_transform_dir)
    (reg : list bbs_io_transformer) (st : session_state) (mem : cli_memory)
    (argv3 argv4 : string) (atoi_argv3 : Z) :
  (bbs_io_named_transformer_available reg argv4 = 0 ->
   cli_io_session_transformation_add tx_rx reg st mem argv3 argv4 atoi_argv3
   = Some {| co_res := -1; co_memory := mem;
             co_printed := [TransformerNotAvailable argv4]; co_events := [] |}) /\
  (bbs_io_named_transformer_available reg argv4 = 1 ->
   find_io_session st (atoi_argv3 mod UINT_MODULUS) = None ->
   cli_io_session_transformation_add tx_rx reg st mem argv3 argv4 atoi_argv3
   = Some {| co_res := -1; co_memory := mem;
             co_printed := [NoSuchSession argv4]; co_events := [] |}) /\
  (forall named i c,
      find (same_name argv4) reg = Some named ->
      find_io_session st (atoi_argv3 mod UINT_MODULUS) = Some i ->
      cli_io_session_transformation_add tx_rx reg st mem argv3 argv4 atoi_argv3
      = Some c ->
      exists o,
        bbs_io_transform_setup reg (stack_at mem (i_s i)) (t_type named) tx_rx
          (fst (match i_type i with
                | TRANSFORM_SESSION_NODE => node_fds mem (i_owner i)
                | TRANSFORM_SESSION_TCPCLIENT => tcpclient_fds mem (i_owner i)
                end))
          (snd (match i_type i with
                | TRANSFORM_SESSION_NODE => node_fds mem (i_owner i)
                | TRANSFORM_SESSION_TCPCLIENT => tcpclient_fds mem (i_owner i)
                end)) NULL = Some o /\
        co_res c = so_res o /\
        co_events c = so_events o /\
        stack_at (co_memory c) (i_s i) = so_trans o /\
        (forall p, p <> i_s i -> stack_at (co_memory c) p = stack_at mem p) /\
        co_printed c = [if co_res c =? 0 then EnabledTransformation argv4
                        else FailedToEnable argv4] /\
        (co_res c = 0 ->
         exists t d,
           find (suitable (t_type named) tx_rx) reg = Some t /\
           In {| transformer := Some t; data := d |} (stack_at (co_memory c) (i_s i)))).
Proof.
  unfold cli_io_session_transformation_add. split; [|split].
  - intros H. now rewrite H.
  - intros H Hf. now rewrite H, Hf.
  - intros named i c Hn Hf.
    unfold bbs_io_named_transformer_available, transform_type_from_name.
    rewrite Hn, Hf. cbn [Z.eqb].
    destruct (bbs_io_transform_setup reg (stack_at mem (i_s i)) (t_type named) tx_rx
                (fst match i_type i with
                     | TRANSFORM_SESSION_NODE => node_fds mem (i_owner i)
                     | TRANSFORM_SESSION_TCPCLIENT => tcpclient_fds mem (i_owner i)
                     end)
                (snd match i_type i with
                     | TRANSFORM_SESSION_NODE => node_fds mem (i_owner i)
                     | TRANSFORM_SESSION_TCPCLIENT => tcpclient_fds mem (i_owner i)
                     end) NULL) as [o|] eqn:Eo; [|discriminate].
    intros H. inversion H. subst c. clear H. exists o. cbn.
    split; [reflexivity|]. split; [reflexivity|]. split; [reflexivity|].
    split; [unfold update; now rewrite Z.eqb_refl|].
    split.
    + intros p Hp. unfold update. apply Z.eqb_neq in Hp. now rewrite Hp.
    + split; [reflexivity|]. intros Hr.
      destruct (setup_installs_first_suitable _ _ _ _ _ _ _ _ Eo Hr)
        as [t [Ht [_ Hin]]].
      exists t. eexists. split; [exact Ht|].
      unfold update. rewrite Z.eqb_refl. exact Hin.
Qed.

(** X14 with two logging transformers registered, "LOG1" before "LOG2":
    adding "LOG2" to session 1 returns 0 and puts LOG1 in the stack. *)
Lemma cli_add_sets_up_by_kind_witness :
  let log1 := sample_transformer "LOG1" TRANSFORM_SESSION_LOGGING 3 (hook_ok 700) 3 in
  let log2 := sample_transformer "LOG2" TRANSFORM_SESSION_LOGGING 3 (hook_ok 800) 4 in
  let st := {| sessions := [{| i_s := 100; i_id := 1; i_start := 0;
                               i_type := TRANSFORM_SESSION_NODE; i_owner := 7 |}];
               io_session_io := 1 |} in
  let mem := {| stack_at := fun _ => fresh_stack 2;
                node_fds := fun _ => (4, 5);
                tcpclient_fds := fun _ => (6, 7) |} in
  exists c,
    cli_io_session_transformation_add 3 [log1; log2] st mem "1" "LOG2" 1 = Some c /\
    co_res c = 0 /\
    co_printed c = [EnabledTransformation "LOG2"] /\
    stack_at (co_memory c) 100 = [{| transformer := Some log1; data := 700 |}; empty_slot] /\
    (exists t d,
        find (suitable TRANSFORM_SESSION_LOGGING 3) [log1; log2] = Some t /\
        In {| transformer := Some t; data := d |} (stack_at (co_memory c) 100)).
Proof.
  intros log1 log2 st mem.
  destruct (cli_io_session_transformation_add 3 [log1; log2] st mem "1" "LOG2" 1)
    as [c|] eqn:Ec; [|discriminate Ec].
  exists c.
  destruct (proj2 (proj2 (cli_add_sets_up_by_kind 3 [log1; log2] st mem "1" "LOG2" 1))
              log2 {| i_s := 100; i_id := 1; i_start := 0;
                      i_type := TRANSFORM_SESSION_NODE; i_owner := 7 |} c
              eq_refl eq_refl Ec) as [o [Ho [Hres [_ [Hst [_ [Hpr Hin]]]]]]].
  inversion Ec. subst c. cbn in *.
  split; [reflexivity|]. split; [reflexivity|]. split; [reflexivity|].
  split; [reflexivity|]. apply Hin. reflexivity.
Defined.

(** * Properties of mod_sendmail.c *)

Section SendmailFacts.

Import Sendmail.

(** The translation of the exec result, case by case. *)
Lemma translate_result_cases (recipient : string) (res : Z) (echild : bool) :
  (res < 0 /\ echild = false /\
   translate_result recipient res echild
   = (res, [LogError UnableToExecute; LogError (FailedToSend recipient)])) \/
  (res = 127 /\
   translate_result recipient res echild
   = (127, [LogError UnableToExecute; LogError (FailedToSend recipient)])) \/
  ((res = 0 \/ (res < 0 /\ echild = true)) /\
   translate_result recipient res echild = (0, [])) \/
  (0 < res /\ res <> 127 /\
   translate_result recipient res echild = (-1, [LogError (FailedToSend recipient)])).
Proof.
  unfold translate_result.
  destruct (Z.ltb_spec res 0) as [Hn|Hn]; destruct echild; simpl.
  - right. right. left. split; [right; auto|].
    destruct (Z.eqb_spec res 127); [lia|]. reflexivity.
  - left. split; [assumption|]. split; [reflexivity|].
    destruct (Z.eqb_spec res 0); [lia|]. reflexivity.
  - destruct (Z.eqb_spec res 127) as [->|H127]; [right; left; auto|].
    destruct (Z.eqb_spec res 0) as [->|H0]; simpl.
    + right. right. left. auto.
    + right. right. right. repeat split; auto. lia.
  - destruct (Z.eqb_spec res 127) as [->|H127]; [right; left; auto|].
    destruct (Z.eqb_spec res 0) as [->|H0]; simpl.
    + right. right. left. auto.
    + right. right. right. repeat split; auto. lia.
Qed.

(** A list of calls whose last element is an error log. *)
Lemma ends_with_error (l : list call) :
  l <> [] -> is_error (last l Fclose) = true ->
  exists calls m, l = calls ++ [LogError m].
Proof.
  intros Hne He. exists (removelast l).
  destruct (last l Fclose) as [m| | | | | |] eqn:El; try discriminate.
  exists m. rewrite <- El. now apply app_removelast_last.
Qed.

End SendmailFacts.

(** X15: sendmail returns 0 exactly when the mailer binary is accessible,
    the temporary file was created, and the exec result is 0 or is negative
    with errno being ECHILD when it is tested.  Otherwise: it returns -1 when
    the mailer is missing, when the file cannot be created, and when the exec
    result is positive and not 127; it returns 127 for an exec result of
    127; and it returns the exec result as it is when that is negative and
    errno is not ECHILD.  Every nonzero outcome ends with an error log, and
    when 0 is returned no error has been logged other than a failure to
    delete the temporary file. *)
Theorem sendmail_result (env : Sendmail.environment) (p : Sendmail.mailer_params) :
  (fst (Sendmail.sendmail env p) = 0 <->
   Sendmail.eaccess_res env = 0 /\ Sendmail.mkftemp_ok env = true /\
   (Sendmail.exec_res env = 0 \/
    (Sendmail.exec_res env < 0 /\ Sendmail.errno_is_echild env = true))) /\
  (Sendmail.eaccess_res env <> 0 \/ Sendmail.mkftemp_ok env = false ->
   fst (Sendmail.sendmail env p) = -1) /\
  (Sendmail.eaccess_res env = 0 -> Sendmail.mkftemp_ok env = true ->
   (Sendmail.exec_res env < 0 /\ Sendmail.errno_is_echild env = false ->
    fst (Sendmail.sendmail env p) = Sendmail.exec_res env) /\
   (Sendmail.exec_res env = 127 -> fst (Sendmail.sendmail env p) = 127) /\
   (0 < Sendmail.exec_res env /\ Sendmail.exec_res env <> 127 ->
    fst (Sendmail.sendmail env p) = -1)) /\
  (fst (Sendmail.sendmail env p) <> 0 ->
   (fst (Sendmail.sendmail env p) = -1 \/
    (fst (Sendmail.sendmail env p) = Sendmail.exec_res env /\
     (Sendmail.exec_res env = 127 \/
      (Sendmail.exec_res env < 0 /\ Sendmail.errno_is_echild env = false)))) /\
   exists calls m,
     snd (Sendmail.sendmail env p) = calls ++ [Sendmail.LogError m]) /\
  (fst (Sendmail.sendmail env p) = 0 ->
   forall m, In (Sendmail.LogError m) (snd (Sendmail.sendmail env p)) ->
             m = Sendmail.FailedToDeleteTemporary (Sendmail.tmp_name env)).
Proof.
  unfold Sendmail.sendmail.
  destruct (Z.eqb_spec (Sendmail.eaccess_res env) 0) as [He|He]; simpl.
  2:{ split; [split; [discriminate|tauto]|].
      split; [reflexivity|]. split; [intros F; contradiction|].
      split; [|discriminate].
      intros _. split; [now left|]. exists []. eexists. reflexivity. }
  destruct (Sendmail.mkftemp_ok env) eqn:Em; simpl.
  2:{ split; [split; [discriminate|intros [_ [F _]]; discriminate]|].
      split; [reflexivity|]. split; [discriminate|].
      split; [|discriminate].
      intros _. split; [now left|]. exists []. eexists. reflexivity. }
  split; [|split; [intros [F|F]; [contradiction|discriminate]|]].
  - destruct (translate_result_cases (Sendmail.to p) (Sendmail.exec_res env)
                (Sendmail.errno_is_echild env))
      as [[Hn [Hc ->]]|[[H127 ->]|[[Hok ->]|[Hp [H127 ->]]]]]; simpl.
    + split; [lia|]. intros [_ [_ [H|[_ H]]]]; [lia|congruence].
    + split; [discriminate|]. intros [_ [_ [H|[H _]]]]; lia.
    + split; auto.
    + split; [discriminate|]. intros [_ [_ [H|[H _]]]]; lia.
  - split; [intros _ _|split].
    + destruct (translate_result_cases (Sendmail.to p) (Sendmail.exec_res env)
                  (Sendmail.errno_is_echild env))
        as [[Hn [Hc ->]]|[[H127 ->]|[[Hok ->]|[Hp [H127 ->]]]]]; simpl;
        (split; [|split]); intros; try reflexivity; try lia;
        try (destruct Hok as [?|[? ?]]; (lia || (exfalso; intuition congruence)));
        try (intuition congruence).
    + destruct (translate_result_cases (Sendmail.to p) (Sendmail.exec_res env)
                  (Sendmail.errno_is_echild env))
        as [[Hn [Hc ->]]|[[H127 ->]|[[Hok ->]|[Hp [H127 ->]]]]]; simpl.
      * intros _. split; [right; auto|].
        destruct (Sendmail.async p); [|destruct (Sendmail.remove_res env =? 0)];
          apply ends_with_error; simpl; try discriminate; reflexivity.
      * intros _. split; [right; split; [now rewrite H127|now left]|].
        destruct (Sendmail.async p); [|destruct (Sendmail.remove_res env =? 0)];
          apply ends_with_error; simpl; try discriminate; reflexivity.
      * intros F. now contradiction F.
      * intros _. split; [now left|].
        destruct (Sendmail.async p); [|destruct (Sendmail.remove_res env =? 0)];
          apply ends_with_error; simpl; try discriminate; reflexivity.
    + destruct (translate_result_cases (Sendmail.to p) (Sendmail.exec_res env)
                  (Sendmail.errno_is_echild env))
        as [[Hn [Hc ->]]|[[H127 ->]|[[Hok ->]|[Hp [H127 ->]]]]]; simpl;
        try (intros F; exfalso; lia); try discriminate.
      intros _ m Hin. rewrite app_nil_r in Hin.
      destruct Hin as [Hin|Hin]; [discriminate|].
      destruct (Sendmail.async p); simpl in Hin.
      * destruct Hin as [Hin|[Hin|[]]]; discriminate.
      * destruct Hin as [Hin|[Hin|[Hin|[Hin|Hin]]]]; try discriminate.
        destruct (Sendmail.remove_res env =? 0); simpl in Hin; [contradiction|].
        destruct Hin as [Hin|[]]. now inversion Hin.
Qed.

(** X16: on the synchronous path sendmail removes the temporary file exactly
    once, after the exec and the fclose, whatever the exec returned; on the
    asynchronous path it closes the file before it runs the shell and does
    not remove the file itself (the shell command ends with the rm); when
    the mailer is missing or the file cannot be created, nothing is executed
    and nothing removed. *)
Theorem sendmail_temporary_file (env : Sendmail.environment)
    (p : Sendmail.mailer_params) :
  (Sendmail.eaccess_res env <> 0 \/ Sendmail.mkftemp_ok env = false ->
   exists m, Sendmail.sendmail env p = (-1, [Sendmail.LogError m])) /\
  (Sendmail.eaccess_res env = 0 -> Sendmail.mkftemp_ok env = true ->
   (Sendmail.async p = false ->
    filter Sendmail.is_remove (snd (Sendmail.sendmail env p))
    = [Sendmail.RemoveTemporary (Sendmail.tmp_name env)] /\
    exists rest,
      snd (Sendmail.sendmail env p)
      = Sendmail.MakeEmailFile p :: Sendmail.Rewind :: Sendmail.ExecSendmail
        :: Sendmail.Fclose :: Sendmail.RemoveTemporary (Sendmail.tmp_name env)
        :: rest /\
      Forall (fun c => Sendmail.is_error c = true) rest) /\
   (Sendmail.async p = true ->
    filter Sendmail.is_remove (snd (Sendmail.sendmail env p)) = [] /\
    exists rest,
      snd (Sendmail.sendmail env p)
      = Sendmail.MakeEmailFile p :: Sendmail.Fclose
        :: Sendmail.ExecShell (Sendmail.shell_command (Sendmail.tmp_name env))
        :: rest /\
      Forall (fun c => Sendmail.is_error c = true) rest)).
Proof.
  unfold Sendmail.sendmail. split.
  - intros [H|H].
    + apply Z.eqb_neq in H. rewrite H. simpl. eauto.
    + rewrite H. destruct (negb (Sendmail.eaccess_res env =? 0)); simpl; eauto.
  - intros He Hm. rewrite He, Hm. simpl.
    assert (Forall (fun c => Sendmail.is_error c = true)
              (snd (Sendmail.translate_result (Sendmail.to p) (Sendmail.exec_res env)
                      (Sendmail.errno_is_echild env)))
            /\ filter Sendmail.is_remove
                 (snd (Sendmail.translate_result (Sendmail.to p) (Sendmail.exec_res env)
                         (Sendmail.errno_is_echild env))) = []) as [Hlog Hnr].
    { destruct (translate_result_cases (Sendmail.to p) (Sendmail.exec_res env)
                  (Sendmail.errno_is_echild env))
        as [[_ [_ ->]]|[[_ ->]|[[_ ->]|[_ [_ ->]]]]]; simpl;
        split; repeat constructor. }
    destruct (Sendmail.translate_result (Sendmail.to p) (Sendmail.exec_res env)
                (Sendmail.errno_is_echild env)) as [res log]. simpl in *.
    split; intros Ha; rewrite Ha; simpl.
    + destruct (Sendmail.remove_res env =? 0); simpl; rewrite Hnr.
      * split; [reflexivity|]. eexists. split; [reflexivity|assumption].
      * split; [reflexivity|]. eexists. split; [reflexivity|].
        constructor; [reflexivity|assumption].
    + rewrite Hnr. split; [reflexivity|]. eexists. split; [reflexivity|assumption].
Qed.

(** X15 on a synchronous send whose temporary file cannot be deleted: an
    exec result of 127 is returned as 127 and the last call is an error log;
    an exec result of 5 is returned as -1. *)
Lemma sendmail_result_witness :
  let p := {| Sendmail.async := false; Sendmail.to := "sysop";
              Sendmail.from := "bbs"; Sendmail.replyto := "";
              Sendmail.errorsto := ""; Sendmail.subject := "hello";
              Sendmail.body := "text" |} in
  let env := {| Sendmail.eaccess_res := 0; Sendmail.mkftemp_ok := true;
                Sendmail.tmp_name := "/tmp/bbsmail-abc123";
                Sendmail.exec_res := 127; Sendmail.errno_is_echild := false;
                Sendmail.remove_res := -1 |} in
  let env5 := {| Sendmail.eaccess_res := 0; Sendmail.mkftemp_ok := true;
                 Sendmail.tmp_name := "/tmp/bbsmail-abc123";
                 Sendmail.exec_res := 5; Sendmail.errno_is_echild := false;
                 Sendmail.remove_res := -1 |} in
  fst (Sendmail.sendmail env p) = 127 /\
  fst (Sendmail.sendmail env5 p) = -1 /\
  (fst (Sendmail.sendmail env p) = -1 \/
   (fst (Sendmail.sendmail env p) = Sendmail.exec_res env /\
    (Sendmail.exec_res env = 127 \/
     (Sendmail.exec_res env < 0 /\ Sendmail.errno_is_echild env = false)))) /\
  exists calls m, snd (Sendmail.sendmail env p) = calls ++ [Sendmail.LogError m].
Proof.
  intros p env env5.
  split.
  - apply (proj1 (proj2 (proj1 (proj2 (proj2 (sendmail_result env p)))
                           eq_refl eq_refl))). reflexivity.
  - split.
    + apply (proj2 (proj2 (proj1 (proj2 (proj2 (sendmail_result env5 p)))
                             eq_refl eq_refl))). split; [reflexivity|discriminate].
    + apply (proj1 (proj2 (proj2 (proj2 (sendmail_result env p))))). discriminate.
Defined.

(** X16 on an asynchronous send that succeeds: the file is closed, the
    shell command is run, and nothing is removed by the function. *)
Lemma sendmail_temporary_file_witness :
  let p := {| Sendmail.async := true; Sendmail.to := "sysop";
              Sendmail.from := "bbs"; Sendmail.replyto := "";
              Sendmail.errorsto := ""; Sendmail.subject := "hello";
              Sendmail.body := "text" |} in
  let env := {| Sendmail.eaccess_res := 0; Sendmail.mkftemp_ok := true;
                Sendmail.tmp_name := "/tmp/bbsmail-abc123";
                Sendmail.exec_res := 0; Sendmail.errno_is_echild := false;
                Sendmail.remove_res := 0 |} in
  Sendmail.sendmail env p
  = (0, [Sendmail.MakeEmailFile p; Sendmail.Fclose;
         Sendmail.ExecShell
           "( /usr/sbin/sendmail -t < /tmp/bbsmail-abc123 ; rm -f /tmp/bbsmail-abc123 ) &"]) /\
  filter Sendmail.is_remove (snd (Sendmail.sendmail env p)) = [] /\
  exists rest,
    snd (Sendmail.sendmail env p)
    = Sendmail.MakeEmailFile p :: Sendmail.Fclose
      :: Sendmail.ExecShell (Sendmail.shell_command (Sendmail.tmp_name env))
      :: rest /\
    Forall (fun c => Sendmail.is_error c = true) rest.
Proof.
  intros p env. split; [reflexivity|].
  apply (proj2 (proj2 (sendmail_temporary_file env p) eq_refl eq_refl)).
  reflexivity.
Defined.

(** * The listing of a session's transformations *)

Section ListingFacts.

Lemma listed_names_spec (trans : bbs_io_transformations) :
  stack_wf trans ->
  exists names,
    listed_names trans = Some names /\
    List.length names = List.length (filter has_data trans).
Proof.
  induction trans as [|tran rest IH]; intros Hwf; simpl; [now exists []|].
  inversion Hwf as [|? ? Hs Hr]. subst. destruct (IH Hr) as [names [Hn Hl]].
  unfold has_data at 1. destruct (non_null (data tran)) eqn:E.
  - apply non_null_true in E. specialize (Hs E).
    destruct (transformer tran) as [t|]; [|contradiction].
    rewrite Hn. exists (t_name t :: names). simpl. now rewrite Hl.
  - exists names. auto.
Qed.

(** Every slot with data is active for exactly one of the three kinds. *)
Lemma has_data_by_kind (trans : bbs_io_transformations) :
  stack_wf trans ->
  List.length (filter has_data trans)
  = (count_active TRANSFORM_TLS_ENCRYPTION trans +
     count_active TRANSFORM_DEFLATE_COMPRESSION trans +
     count_active TRANSFORM_SESSION_LOGGING trans)%nat.
Proof.
  unfold count_active.
  induction trans as [|tran rest IH]; intros Hwf; simpl; [reflexivity|].
  inversion Hwf as [|? ? Hs Hr]. subst. specialize (IH Hr).
  destruct (has_data tran) eqn:E.
  - assert (data tran <> NULL) as Hd by (now apply non_null_true).
    specialize (Hs Hd).
    destruct (transformer tran) as [t|] eqn:Et; [|contradiction].
    assert (forall type, active_slot type tran = type_eqb (t_type t) type) as Ha
      by (intros type; unfold active_slot; now rewrite E, Et).
    rewrite !Ha. destruct (t_type t); simpl; lia.
  - assert (forall type, active_slot type tran = false) as Ha
      by (intros type; unfold active_slot; now rewrite E).
    rewrite !Ha. exact IH.
Qed.

Lemma active_flag_count (trans : bbs_io_transformations)
    (type : bbs_io_transform_type) :
  stack_wf trans -> (count_active type trans <= 1)%nat ->
  active_flag trans type = count_active type trans.
Proof.
  intros Hwf Hc. unfold active_flag. rewrite (active_spec trans type Hwf).
  destruct (existsb (active_slot type) trans) eqn:E.
  - destruct (count_active type trans) as [|[|k]] eqn:Ec; [|reflexivity|lia].
    apply existsb_count in Ec. congruence.
  - apply existsb_count in E. now rewrite E.
Qed.

End ListingFacts.

(** X17: for a session whose stack a connection produced from a fresh one
    by setups and teardowns, cli_io_session returns 0 and prints one name
    per slot with data; the count it prints is the number of kinds that
    bbs_io_transform_active reports active (so at most three) and the number
    of cleanup calls a teardown of the stack makes.  For an identifier that
    is not found it returns -1 and prints only the no-such-session line. *)
Theorem session_listing_counts_active_kinds (st : session_state) (mem : cli_memory)
    (argv2 : string) (atoi_argv2 : Z) :
  (find_io_session st (atoi_argv2 mod UINT_MODULUS) = None ->
   cli_io_session st mem argv2 atoi_argv2 = Some (-1, [NoSuchSessionLine argv2])) /\
  (forall io,
      find_io_session st (atoi_argv2 mod UINT_MODULUS) = Some io ->
      stack_reachable (stack_at mem (i_s io)) ->
      exists names trans' ev,
        cli_io_session st mem argv2 atoi_argv2
        = Some (0,
                [ActiveTransformationsHeader] ++ map TransformerName names ++
                [ActiveTransformationsCount (Z.of_nat (List.length names))]) /\
        List.length names
        = (active_flag (stack_at mem (i_s io)) TRANSFORM_TLS_ENCRYPTION +
           active_flag (stack_at mem (i_s io)) TRANSFORM_DEFLATE_COMPRESSION +
           active_flag (stack_at mem (i_s io)) TRANSFORM_SESSION_LOGGING)%nat /\
        (List.length names <= 3)%nat /\
        bbs_io_teardown_all_transformers (stack_at mem (i_s io)) = Some (trans', ev) /\
        List.length (filter is_cleanup ev) = List.length names).
Proof.
  unfold cli_io_session. split.
  - intros H. now rewrite H.
  - intros io Hf Hr. rewrite Hf.
    destruct (stack_inv_reachable _ Hr) as [Hwf Hc].
    destruct (listed_names_spec _ Hwf) as [names [Hn Hl]].
    exists names, (map torn_down (stack_at mem (i_s io))),
           (flat_map teardown_calls (filter has_data (stack_at mem (i_s io)))).
    rewrite Hn.
    assert (List.length names
            = (active_flag (stack_at mem (i_s io)) TRANSFORM_TLS_ENCRYPTION +
               active_flag (stack_at mem (i_s io)) TRANSFORM_DEFLATE_COMPRESSION +
               active_flag (stack_at mem (i_s io)) TRANSFORM_SESSION_LOGGING)%nat)
      as Hk.
    { rewrite Hl, (has_data_by_kind _ Hwf).
      rewrite !active_flag_count; auto. }
    split; [reflexivity|]. split; [exact Hk|]. split.
    + rewrite Hl, (has_data_by_kind _ Hwf).
      pose proof (Hc TRANSFORM_TLS_ENCRYPTION).
      pose proof (Hc TRANSFORM_DEFLATE_COMPRESSION).
      pose proof (Hc TRANSFORM_SESSION_LOGGING). lia.
    + split; [now apply teardown_spec|].
      rewrite Hl.
      apply (teardown_calls_count _ 0 (stack_wf_filter has_data _ Hwf)
               (filter_has_data_all _)).
Qed.

(** X17 on session 1, whose two-slot stack has TLS set up. *)
Lemma session_listing_counts_active_kinds_witness :
  let tls := sample_transformer "TLS" TRANSFORM_TLS_ENCRYPTION 3 (hook_ok 500) 1 in
  let trans := [{| transformer := Some tls; data := 500 |}; empty_slot] in
  let io := {| i_s := 100; i_id := 1; i_start := 0;
               i_type := TRANSFORM_SESSION_NODE; i_owner := 7 |} in
  let st := {| sessions := [io]; io_session_io := 1 |} in
  let mem := {| stack_at := fun _ => trans; node_fds := fun _ => (4, 5);
                tcpclient_fds := fun _ => (6, 7) |} in
  cli_io_session st mem "1" 1
  = Some (0, [ActiveTransformationsHeader; TransformerName "TLS";
              ActiveTransformationsCount 1]) /\
  cli_io_session st mem "9" 9 = Some (-1, [NoSuchSessionLine "9"]) /\
  exists names trans' ev,
    cli_io_session st mem "1" 1
    = Some (0,
            [ActiveTransformationsHeader] ++ map TransformerName names ++
            [ActiveTransformationsCount (Z.of_nat (List.length names))]) /\
    List.length names
    = (active_flag trans TRANSFORM_TLS_ENCRYPTION +
       active_flag trans TRANSFORM_DEFLATE_COMPRESSION +
       active_flag trans TRANSFORM_SESSION_LOGGING)%nat /\
    (List.length names <= 3)%nat /\
    bbs_io_teardown_all_transformers trans = Some (trans', ev) /\
    List.length (filter is_cleanup ev) = List.length names.
Proof.
  intros tls trans io st mem.
  split; [reflexivity|]. split; [reflexivity|].
  apply (proj2 (session_listing_counts_active_kinds st mem "1" 1) io eq_refl).
  apply (reach_setup (fresh_stack 2) [tls] TRANSFORM_TLS_ENCRYPTION 1 4 5 0
           {| so_res := 0; so_trans := trans; so_rfd := 4; so_wfd := 5;
              so_events := [EvModuleRef 1] |} (reach_fresh 2) eq_refl).
Defined.
